(** * Competitive intelligence and strategy classifier

    A shallow embedding of [src/utils/graphql.ts] (the classifier part) and of
    [src/utils/contracts.ts] ([isAddressOfType]), with the JavaScript
    primitives they rely on: exceptions and [try]/[catch], string methods,
    [BigInt] parsing and printing, loosely typed ([any]) values, objects used
    as insertion-ordered maps, and the stable [Array.prototype.sort]. *)

From Stdlib Require Import ZArith List String Ascii Bool Lia.
From Stdlib Require Import Permutation Sorted.
From Stdlib Require Import DecimalString DecimalZ DecimalPos DecimalN.
From Stdlib Require HexadecimalString HexadecimalZ HexadecimalPos.
Import ListNotations.

Local Open Scope string_scope.
Local Open Scope Z_scope.

(** ** JavaScript primitives *)

Module Js.

(** *** Completions: a call either returns or throws *)

Inductive JsError : Type :=
| TypeError (message : string)
| SyntaxError (message : string)
| Error (message : string).

(** [error.message] *)
Definition messageOf (e : JsError) : string :=
  match e with
  | TypeError m | SyntaxError m | Error m => m
  end.

(** Errors raised by the engine itself; their wording is the engine's and no
    label depends on it. *)
Definition notAString : JsError := TypeError "toLowerCase is not a function".
Definition nullishAccess : JsError := TypeError "Cannot read properties of null".
Definition notIterable : JsError := TypeError "object is not iterable".
Definition notABigInt : JsError := TypeError "Cannot convert to a BigInt".
Definition badLiteral : JsError := SyntaxError "Cannot convert to a BigInt".

Inductive completion (A : Type) : Type :=
| Normal (a : A)
| Throw (e : JsError).

Arguments Normal {A} a.
Arguments Throw {A} e.

Definition bind {A B} (c : completion A) (k : A -> completion B) : completion B :=
  match c with
  | Normal a => k a
  | Throw e => Throw e
  end.

(** [try { body } catch (error) { handler }] *)
Definition tryCatch {A} (body : completion A) (handler : JsError -> completion A)
  : completion A :=
  match body with
  | Normal a => Normal a
  | Throw e => handler e
  end.

Definition returns {A} (c : completion A) : Prop := exists a, c = Normal a.

(** *** Strings

    A string is a sequence of character codes.  Case mapping and white space
    are modelled on the ASCII range, which covers decimal and hexadecimal
    literals, contract addresses and the resource vocabulary. *)

Definition code (c : ascii) : Z := Z.of_nat (nat_of_ascii c).

Definition lowerChar (c : ascii) : ascii :=
  if (65 <=? code c) && (code c <=? 90)
  then ascii_of_nat (nat_of_ascii c + 32) else c.

Definition upperChar (c : ascii) : ascii :=
  if (97 <=? code c) && (code c <=? 122)
  then ascii_of_nat (nat_of_ascii c - 32) else c.

Fixpoint toLowerCase (s : string) : string :=
  match s with
  | EmptyString => EmptyString
  | String c s' => String (lowerChar c) (toLowerCase s')
  end.

Fixpoint toUpperCase (s : string) : string :=
  match s with
  | EmptyString => EmptyString
  | String c s' => String (upperChar c) (toUpperCase s')
  end.

(** [s.charAt(0)] *)
Definition charAt0 (s : string) : string :=
  match s with
  | EmptyString => EmptyString
  | String c _ => String c EmptyString
  end.

(** [s.slice(1)] *)
Definition slice1 (s : string) : string :=
  match s with
  | EmptyString => EmptyString
  | String _ s' => s'
  end.

(** [s.includes(sub)] *)
Fixpoint includes (s sub : string) : bool :=
  prefix sub s ||
  match s with
  | EmptyString => false
  | String _ s' => includes s' sub
  end.

(** [arr.push(x)] *)
Definition push {A} (arr : list A) (x : A) : list A := (arr ++ [x])%list.

(** [arr.includes(x)] on an array of strings *)
Definition arrayIncludes (arr : list string) (x : string) : bool :=
  existsb (String.eqb x) arr.

(** *** BigInt

    [StringToBigInt] follows the StringNumericLiteral grammar used by
    [BigInt(string)]: surrounding white space is dropped, the empty literal
    is zero, a decimal literal may carry a sign, and the prefixes 0x, 0o and
    0b select another radix.  [None] is the SyntaxError. *)

Definition isWhiteSpace (c : ascii) : bool :=
  ((9 <=? code c) && (code c <=? 13)) || (code c =? 32).

Fixpoint trimStart (l : list ascii) : list ascii :=
  match l with
  | c :: l' => if isWhiteSpace c then trimStart l' else l
  | [] => []
  end.

Definition trim (l : list ascii) : list ascii :=
  rev (trimStart (rev (trimStart l))).

Definition digitValue (c : ascii) : option Z :=
  if (48 <=? code c) && (code c <=? 57) then Some (code c - 48)
  else if (97 <=? code c) && (code c <=? 122) then Some (code c - 87)
  else if (65 <=? code c) && (code c <=? 90) then Some (code c - 55)
  else None.

Fixpoint parseDigits (radix acc : Z) (l : list ascii) : option Z :=
  match l with
  | [] => Some acc
  | c :: l' =>
      match digitValue c with
      | Some d => if d <? radix then parseDigits radix (acc * radix + d) l' else None
      | None => None
      end
  end.

Definition parseLiteral (radix : Z) (l : list ascii) : option Z :=
  match l with
  | [] => None
  | _ => parseDigits radix 0 l
  end.

Definition isChar (c : ascii) (k : Z) : bool := code c =? k.

Definition StringToBigInt (s : string) : option Z :=
  match trim (list_ascii_of_string s) with
  | [] => Some 0
  | c0 :: rest =>
      match rest with
      | c1 :: ds =>
          if isChar c0 48 && (isChar c1 120 || isChar c1 88) then parseLiteral 16 ds
          else if isChar c0 48 && (isChar c1 111 || isChar c1 79) then parseLiteral 8 ds
          else if isChar c0 48 && (isChar c1 98 || isChar c1 66) then parseLiteral 2 ds
          else if isChar c0 45 then option_map Z.opp (parseLiteral 10 rest)
          else if isChar c0 43 then parseLiteral 10 rest
          else parseLiteral 10 (c0 :: rest)
      | [] => parseLiteral 10 [c0]
      end
  end.

(** A string argument, possibly [undefined] or [null]. *)
Inductive MaybeString : Type :=
| Undefined
| Null
| Str (s : string).

(** Truthiness of a [string | undefined | null]: only a non-empty string. *)
Definition truthy (v : MaybeString) : bool :=
  match v with
  | Str (String _ _) => true
  | _ => false
  end.

(** [BigInt(value)] *)
Definition BigInt (v : MaybeString) : completion Z :=
  match v with
  | Undefined | Null => Throw notABigInt
  | Str s =>
      match StringToBigInt s with
      | Some z => Normal z
      | None => Throw badLiteral
      end
  end.

(** [z.toString()] for a bigint [z] *)
Definition bigintToString (z : Z) : string :=
  NilZero.string_of_int (Z.to_int z).

(** *** [Array.prototype.sort]

    The sort is stable: for a consistent comparator every stable sort yields
    the same array.  The comparator is called as a stable insertion sort
    does, and an exception it throws leaves the sort. *)

Fixpoint insertSorted {A} (cmp : A -> A -> completion Z) (x : A) (l : list A)
  : completion (list A) :=
  match l with
  | [] => Normal [x]
  | y :: l' =>
      bind (cmp x y) (fun c =>
        if c <=? 0 then Normal (x :: l)
        else bind (insertSorted cmp x l') (fun r => Normal (y :: r)))
  end.

Fixpoint sort {A} (cmp : A -> A -> completion Z) (l : list A) : completion (list A) :=
  match l with
  | [] => Normal []
  | x :: l' => bind (sort cmp l') (insertSorted cmp x)
  end.

(** The comparator returns on [x] and [y], and puts the larger key first. *)
Definition descending {A} (cmp : A -> A -> completion Z) (key : A -> Z) (x y : A)
  : Prop :=
  exists c, cmp x y = Normal c /\ (c <= 0 <-> key y <= key x).

End Js.

Import Js.

Notation "x <- c ;; k" := (bind c (fun x => k))
  (at level 61, c at next level, right associativity).

(** ** Safe numeric conversion ([safeBigIntConversion]) *)

Definition safeBigIntConversion (value : MaybeString) (defaultValue : Z) : completion Z :=
  if negb (truthy value) then Normal defaultValue
  else tryCatch (BigInt value) (fun _ => Normal defaultValue).

(** ** Data model *)

(** [Record<string, string>]: the entries in [Object.entries] order, keys
    pairwise distinct.  Keys are ordinary property names. *)
Definition Dict (V : Type) : Type := list (string * V).

Definition keys {V} (o : Dict V) : list string := map fst o.

(** [o[k]] *)
Fixpoint get {V} (o : Dict V) (k : string) : option V :=
  match o with
  | [] => None
  | (k', v) :: o' => if String.eqb k k' then Some v else get o' k
  end.

(** [o[k] = v]: an existing key keeps its position, a new key goes last. *)
Fixpoint set {V} (o : Dict V) (k : string) (v : V) : Dict V :=
  match o with
  | [] => [(k, v)]
  | (k', v') :: o' => if String.eqb k k' then (k', v) :: o' else (k', v') :: set o' k v
  end.

(** [o[k]] on a [Record<string, string>], as a [string | undefined] *)
Definition getStr (o : Dict string) (k : string) : MaybeString :=
  match get o k with
  | Some s => Str s
  | None => Undefined
  end.

(** The positions arguments are typed [any] and come from the indexer
    unchecked.  The model keeps the shapes the classifiers can tell apart.
    Of a position only its address property ([pairAddress], resp.
    [reactorAddress]) is read. *)
Inductive Position : Type :=
| PNullish                        (* [null] or [undefined] in the array *)
| PObject (address : MaybeString) (* any other value; its address property,
                                     [Undefined] when that is not a string *).

Inductive PositionsField : Type :=
| FFalsy                          (* property absent, [undefined], [null], ... *)
| FArray (items : list Position)
| FNotIterable                    (* truthy, not iterable, without [length], e.g. [{}] *).

Inductive PositionsResponse : Type :=
| RNullish
| RObject (field : PositionsField).

(** [response?.field || []] *)
Definition fieldOrEmpty (r : PositionsResponse) : PositionsField :=
  match r with
  | RNullish => FArray []
  | RObject FFalsy => FArray []
  | RObject f => f
  end.

(** [positions.length], [None] for [undefined] *)
Definition lengthOf (f : PositionsField) : option Z :=
  match f with
  | FArray items => Some (Z.of_nat (List.length items))
  | _ => None
  end.

(** The iteration of [for (const x of positions)] *)
Definition iterate (f : PositionsField) : completion (list Position) :=
  match f with
  | FArray items => Normal items
  | _ => Throw notIterable
  end.

(** [position.pairAddress], [stake.reactorAddress] *)
Definition addressOf (p : Position) : completion MaybeString :=
  match p with
  | PNullish => Throw nullishAccess
  | PObject a => Normal a
  end.

(** A [for ... of] loop whose body updates the local counters [S]. *)
Fixpoint forOf {X S} (items : list X) (body : S -> X -> completion S) (s : S)
  : completion S :=
  match items with
  | [] => Normal s
  | x :: items' => s' <- body s x ;; forOf items' body s'
  end.

(** A well-typed [LiquidityPositionsResponse] / [StakePositionsResponse]
    whose positions have the given addresses. *)
Definition responseOf (addresses : list string) : PositionsResponse :=
  RObject (FArray (map (fun a => PObject (Str a)) addresses)).

Record AgentIntelligence : Type := {
  agentId : string;
  address : string;
  he3Balance : string;
  resourceBalances : Dict string;
  liquidityPositions : PositionsResponse;
  stakePositions : PositionsResponse;
  error : MaybeString
}.

Record StrategicAnalysis : Type := {
  sa_agentId : string;
  sa_address : string;
  sa_he3Balance : string;
  resourceFocus : string;
  pathPreference : string;
  liquidityStrategy : string;
  stakingStrategy : string;
  overallStrategy : string;
  counterStrategies : list string;
  sa_error : MaybeString
}.

(** ** Address categories ([contracts.ts]) *)

Inductive ContractCategory : Type := core | resources | lpPairs | reactors | agents.

(** [a || b] on calls that may throw, [b] evaluated only when [a] is false. *)
Definition orElse (a b : completion bool) : completion bool :=
  x <- a ;; if x then Normal true else b.

Definition andAlso (a b : completion bool) : completion bool :=
  x <- a ;; if x then b else Normal false.

Section Contracts.

(** The table imported from [contracts.json]: per category, contract name to
    address; [None] for a category the file does not have. *)
Variable contractAddresses : ContractCategory -> option (Dict string).

Definition isAddressOfType (address : MaybeString) (category : ContractCategory)
    (tokenType : MaybeString) : completion bool :=
  tryCatch
    (match contractAddresses category with
     | None => Normal false
     | Some categoryAddresses =>
         normalizedAddress <-
           match address with
           | Str a => Normal (toLowerCase a)
           | _ => Throw notAString
           end ;;
         if truthy tokenType then
           let tokenAddress :=
             match tokenType with
             | Str t => getStr categoryAddresses t
             | _ => Undefined
             end in
           match tokenAddress with
           | Str ta =>
               Normal (truthy tokenAddress && String.eqb normalizedAddress (toLowerCase ta))
           | _ => Normal false
           end
         else
           Normal (existsb
                     (fun kv => truthy (Str (snd kv)) &&
                                String.eqb (toLowerCase (snd kv)) normalizedAddress)
                     categoryAddresses)
     end)
    (fun _ => Normal false).

End Contracts.

(** ** Classifiers ([graphql.ts]) *)

Definition label_AnalysisError : string := "Analysis Error".

(** [name.charAt(0).toUpperCase() + name.slice(1)] *)
Definition capitalize (name : string) : string :=
  toUpperCase (charAt0 name) ++ slice1 name.

(** The comparator of [analyzeResourceFocus]: larger balance first. *)
Definition byBalanceDesc (x y : string * Z) : completion Z :=
  let a := snd x in
  let b := snd y in
  Normal (if a >? b then -1 else if a <? b then 1 else 0).

Definition analyzeResourceFocus (resourceBalances : Dict string) : completion string :=
  tryCatch
    (balances <-
       forOf resourceBalances
         (fun (balances : Dict Z) entry =>
            let '(resource, balance) := entry in
            if negb (String.eqb balance "Error") then
              v <- safeBigIntConversion (Str balance) 0 ;;
              Normal (set balances resource v)
            else Normal balances)
         [] ;;
     sorted <- sort byBalanceDesc balances ;;
     let sortedResources := map fst sorted in
     match sortedResources with
     | [] => Normal "Unknown"
     | topResource :: _ =>
         if String.eqb topResource "helium3" &&
            match get balances "helium3" with
            | Some v => v >? 0
            | None => false
            end
         then Normal "He3 Accumulation"
         else if arrayIncludes ["graphene"; "yttrium"] topResource
         then Normal (capitalize topResource ++ " Path Focus")
         else if arrayIncludes ["carbon"; "neodymium"] topResource
         then Normal (capitalize topResource ++ " Stockpiling")
         else Normal "Balanced Resource Approach"
     end)
    (fun _ => Normal label_AnalysisError).

Section Classifiers.

Variable contractAddresses : ContractCategory -> option (Dict string).

Let isType (a : MaybeString) (c : ContractCategory) (t : string) : completion bool :=
  isAddressOfType contractAddresses a c (Str t).

Definition graphenePathResources : list string := ["carbon"; "graphite"; "graphene"].
Definition yttriumPathResources : list string := ["neodymium"; "dysprosium"; "yttrium"].

Definition analyzePathPreference (resourceBalances : Dict string)
    (liquidityPositions stakePositions : PositionsResponse) : completion string :=
  tryCatch
    (
     (* Score based on resource balances *)
     s1 <-
       forOf resourceBalances
         (fun (score : Z * Z) entry =>
            let '(graphenePathScore, yttriumPathScore) := score in
            let '(resource, balance) := entry in
            if String.eqb balance "Error" then Normal score
            else
              balanceValue <- safeBigIntConversion (Str balance) 0 ;;
              if balanceValue =? 0 then Normal score
              else
                let g := if arrayIncludes graphenePathResources resource
                         then graphenePathScore + 1 else graphenePathScore in
                let y := if arrayIncludes yttriumPathResources resource
                         then yttriumPathScore + 1 else yttriumPathScore in
                Normal (g, y))
         (0, 0) ;;
     (* Score based on liquidity positions *)
     positions <- iterate (fieldOrEmpty liquidityPositions) ;;
     s2 <-
       forOf positions
         (fun (score : Z * Z) position =>
            let '(graphenePathScore, yttriumPathScore) := score in
            pairAddress <- addressOf position ;;
            inGraphene <-
              orElse (isType pairAddress lpPairs "carbon")
                (orElse (isType pairAddress lpPairs "graphite")
                        (isType pairAddress lpPairs "graphene")) ;;
            let g := if inGraphene then graphenePathScore + 2 else graphenePathScore in
            inYttrium <-
              orElse (isType pairAddress lpPairs "neodymium")
                (orElse (isType pairAddress lpPairs "dysprosium")
                        (isType pairAddress lpPairs "yttrium")) ;;
            let y := if inYttrium then yttriumPathScore + 2 else yttriumPathScore in
            Normal (g, y))
         s1 ;;
     (* Score based on stake positions *)
     stakes <- iterate (fieldOrEmpty stakePositions) ;;
     s3 <-
       forOf stakes
         (fun (score : Z * Z) stake =>
            let '(graphenePathScore, yttriumPathScore) := score in
            reactorAddress <- addressOf stake ;;
            inGraphene <-
              orElse (isType reactorAddress reactors "grp")
                     (isType reactorAddress reactors "gph") ;;
            let g := if inGraphene then graphenePathScore + 3 else graphenePathScore in
            inYttrium <-
              orElse (isType reactorAddress reactors "dy")
                     (isType reactorAddress reactors "y") ;;
            let y := if inYttrium then yttriumPathScore + 3 else yttriumPathScore in
            Normal (g, y))
         s2 ;;
     (* Determine path preference *)
     let '(graphenePathScore, yttriumPathScore) := s3 in
     if graphenePathScore >? yttriumPathScore * 2
     then Normal "Strong Graphene Path Preference"
     else if graphenePathScore >? yttriumPathScore
     then Normal "Moderate Graphene Path Preference"
     else if yttriumPathScore >? graphenePathScore * 2
     then Normal "Strong Yttrium Path Preference"
     else if yttriumPathScore >? graphenePathScore
     then Normal "Moderate Yttrium Path Preference"
     else Normal "Balanced Path Approach")
    (fun _ => Normal label_AnalysisError).

(** [positions.length === 0] *)
Definition lengthIsZero (f : PositionsField) : bool :=
  match lengthOf f with
  | Some n => n =? 0
  | None => false
  end.

(** [positions.length > 0] *)
Definition lengthIsPositive (f : PositionsField) : bool :=
  match lengthOf f with
  | Some n => n >? 0
  | None => false
  end.

Definition analyzeLiquidityStrategy (liquidityPositions : PositionsResponse)
  : completion string :=
  tryCatch
    (let positions := fieldOrEmpty liquidityPositions in
     if lengthIsZero positions then Normal "No Liquidity Positions"
     else
       items <- iterate positions ;;
       counts <-
         forOf items
           (fun (counts : Z * Z * Z) position =>
              let '(baseResourcePositions, intermediateResourcePositions,
                    advancedResourcePositions) := counts in
              pairAddress <- addressOf position ;;
              isBase <-
                orElse (isType pairAddress lpPairs "carbon")
                       (isType pairAddress lpPairs "neodymium") ;;
              if isBase then
                Normal (baseResourcePositions + 1, intermediateResourcePositions,
                        advancedResourcePositions)
              else
                isIntermediate <-
                  orElse (isType pairAddress lpPairs "graphite")
                         (isType pairAddress lpPairs "dysprosium") ;;
                if isIntermediate then
                  Normal (baseResourcePositions, intermediateResourcePositions + 1,
                          advancedResourcePositions)
                else
                  isAdvanced <-
                    orElse (isType pairAddress lpPairs "graphene")
                      (orElse (isType pairAddress lpPairs "yttrium")
                              (isType pairAddress lpPairs "helium3")) ;;
                  if isAdvanced then
                    Normal (baseResourcePositions, intermediateResourcePositions,
                            advancedResourcePositions + 1)
                  else Normal counts)
           (0, 0, 0) ;;
       let '(baseResourcePositions, intermediateResourcePositions,
             advancedResourcePositions) := counts in
       if (advancedResourcePositions >? intermediateResourcePositions) &&
          (advancedResourcePositions >? baseResourcePositions)
       then Normal "Advanced Resource Liquidity Focus"
       else if intermediateResourcePositions >? baseResourcePositions
       then Normal "Intermediate Resource Liquidity Focus"
       else if baseResourcePositions >? 0
       then Normal "Base Resource Liquidity Focus"
       else Normal "Diversified Liquidity Strategy")
    (fun _ => Normal label_AnalysisError).

Definition notM (a : completion bool) : completion bool :=
  x <- a ;; Normal (negb x).

Definition analyzeStakingStrategy (stakePositions : PositionsResponse)
  : completion string :=
  tryCatch
    (let stakes := fieldOrEmpty stakePositions in
     if lengthIsZero stakes then Normal "No Staking Positions"
     else
       items <- iterate stakes ;;
       counts <-
         forOf items
           (fun (counts : Z * Z * Z * Z) stake =>
              let '(baseResourceStakes, intermediateResourceStakes,
                    advancedResourceStakes, he3SingleStake) := counts in
              reactorAddress <- addressOf stake ;;
              isBase <-
                orElse (isType reactorAddress reactors "grp")
                       (isType reactorAddress reactors "dy") ;;
              if isBase then
                Normal (baseResourceStakes + 1, intermediateResourceStakes,
                        advancedResourceStakes, he3SingleStake)
              else
                isIntermediate <-
                  orElse (isType reactorAddress reactors "gph")
                         (isType reactorAddress reactors "y") ;;
                if isIntermediate then
                  Normal (baseResourceStakes, intermediateResourceStakes + 1,
                          advancedResourceStakes, he3SingleStake)
                else
                  isProduction <-
                    andAlso (isType reactorAddress reactors "he3")
                            (notM (isType reactorAddress reactors "he3Stake")) ;;
                  if isProduction then
                    Normal (baseResourceStakes, intermediateResourceStakes,
                            advancedResourceStakes + 1, he3SingleStake)
                  else
                    isSingle <- isType reactorAddress reactors "he3Stake" ;;
                    if isSingle then
                      Normal (baseResourceStakes, intermediateResourceStakes,
                              advancedResourceStakes, he3SingleStake + 1)
                    else Normal counts)
           (0, 0, 0, 0) ;;
       let '(baseResourceStakes, intermediateResourceStakes,
             advancedResourceStakes, he3SingleStake) := counts in
       if he3SingleStake >? 0
       then Normal "He3 Single Stake Focus"
       else if (advancedResourceStakes >? intermediateResourceStakes) &&
               (advancedResourceStakes >? baseResourceStakes)
       then Normal "Advanced Resource Staking Focus"
       else if intermediateResourceStakes >? baseResourceStakes
       then Normal "Intermediate Resource Staking Focus"
       else if baseResourceStakes >? 0
       then Normal "Base Resource Staking Focus"
       else Normal "Diversified Staking Strategy")
    (fun _ => Normal label_AnalysisError).

Definition endGameThreshold : Z := 800000000000000000000000.
Definition lateGameThreshold : Z := 500000000000000000000000.

(** [resourceBalances[name] && safeBigIntConversion(resourceBalances[name]) > 0n],
    read as a condition *)
Definition hasResource (resourceBalances : Dict string) (name : string)
  : completion bool :=
  if truthy (getStr resourceBalances name) then
    v <- safeBigIntConversion (getStr resourceBalances name) 0 ;;
    Normal (v >? 0)
  else Normal false.

Definition determineOverallStrategy (resourceBalances : Dict string)
    (liquidityPositions stakePositions : PositionsResponse) (he3Balance : string)
  : completion string :=
  tryCatch
    (he3BalanceValue <- safeBigIntConversion (Str he3Balance) 0 ;;
     if he3BalanceValue >? endGameThreshold
     then Normal "End Game - Final He3 Accumulation"
     else if he3BalanceValue >? lateGameThreshold
     then Normal "Late Game - He3 Acceleration"
     else
       hasGraphene <- hasResource resourceBalances "graphene" ;;
       hasYttrium <- hasResource resourceBalances "yttrium" ;;
       if hasGraphene && hasYttrium then Normal "Mid Game - Dual Path Production"
       else if hasGraphene then Normal "Mid Game - Graphene Path Focus"
       else if hasYttrium then Normal "Mid Game - Yttrium Path Focus"
       else
         let positions := fieldOrEmpty liquidityPositions in
         if lengthIsPositive positions
         then Normal "Early Game - Resource Conversion Setup"
         else Normal "Early Game - Resource Accumulation")
    (fun _ => Normal label_AnalysisError).

Definition suggestCounterStrategies (resourceBalances : Dict string)
    (liquidityPositions stakePositions : PositionsResponse) (he3Balance : string)
  : completion (list string) :=
  tryCatch
    (let strategies : list string := [] in
     he3BalanceValue <- safeBigIntConversion (Str he3Balance) 0 ;;
     if he3BalanceValue >? endGameThreshold then
       Normal (push (push strategies "Accelerate He3 production to catch up")
                    "Focus exclusively on He3 single staking")
     else if he3BalanceValue >? lateGameThreshold then
       Normal (push (push strategies "Optimize He3 production path")
                    "Balance between He3 single staking and GPH-Y liquidity")
     else
       pathPreference <-
         analyzePathPreference resourceBalances liquidityPositions stakePositions ;;
       let strategies :=
         if includes pathPreference "Graphene" then
           push (push strategies "Focus on Yttrium path to avoid competition")
                "Secure Neodymium and Dysprosium resources"
         else if includes pathPreference "Yttrium" then
           push (push strategies "Focus on Graphene path to avoid competition")
                "Secure Carbon and Graphite resources"
         else push strategies "Specialize in one path for efficiency" in
       liquidityStrategy <- analyzeLiquidityStrategy liquidityPositions ;;
       let strategies :=
         if includes liquidityStrategy "Base Resource" then
           push strategies "Focus on intermediate and advanced resource liquidity"
         else if includes liquidityStrategy "Advanced Resource" then
           push strategies "Ensure base resource supply chain is secure"
         else strategies in
       Normal strategies)
    (fun _ => Normal [label_AnalysisError]).

End Classifiers.

(** ** Aggregation ([analyzeCompetitorStrategies]) *)

(** [a || b] on strings *)
Definition orString (a : string) (b : string) : string :=
  match a with
  | EmptyString => b
  | _ => a
  end.

(** The record stored by the per-agent [catch]. *)
Definition analysisErrorRecord (agentId : string) (intelligence : AgentIntelligence)
    (e : JsError) : StrategicAnalysis :=
  {| sa_agentId := agentId;
     sa_address := address intelligence;
     sa_he3Balance := orString (he3Balance intelligence) "0";
     resourceFocus := label_AnalysisError;
     pathPreference := label_AnalysisError;
     liquidityStrategy := label_AnalysisError;
     stakingStrategy := label_AnalysisError;
     overallStrategy := label_AnalysisError;
     counterStrategies := [label_AnalysisError];
     sa_error := Str (orString (messageOf e) "Failed to analyze strategy") |}.

(** The six analyses called for each agent.  The aggregator is written over
    arbitrary analyses, which may throw; [analyzeCompetitorStrategies] below
    is its instance at the classifiers of this file. *)
Record Analyses : Type := {
  resourceFocusOf : Dict string -> completion string;
  pathPreferenceOf :
    Dict string -> PositionsResponse -> PositionsResponse -> completion string;
  liquidityStrategyOf : PositionsResponse -> completion string;
  stakingStrategyOf : PositionsResponse -> completion string;
  overallStrategyOf :
    Dict string -> PositionsResponse -> PositionsResponse -> string -> completion string;
  counterStrategiesOf :
    Dict string -> PositionsResponse -> PositionsResponse -> string ->
    completion (list string)
}.

Section Aggregator.

Variable F : Analyses.

(** The object literal [analysis], its properties evaluated in order. *)
Definition buildAnalysis (agentId : string) (intelligence : AgentIntelligence)
  : completion StrategicAnalysis :=
  rf <- resourceFocusOf F (resourceBalances intelligence) ;;
  pp <- pathPreferenceOf F (resourceBalances intelligence)
          (liquidityPositions intelligence) (stakePositions intelligence) ;;
  ls <- liquidityStrategyOf F (liquidityPositions intelligence) ;;
  ss <- stakingStrategyOf F (stakePositions intelligence) ;;
  os <- overallStrategyOf F (resourceBalances intelligence)
          (liquidityPositions intelligence) (stakePositions intelligence)
          (he3Balance intelligence) ;;
  cs <- counterStrategiesOf F (resourceBalances intelligence)
          (liquidityPositions intelligence) (stakePositions intelligence)
          (he3Balance intelligence) ;;
  Normal {| sa_agentId := agentId;
            sa_address := address intelligence;
            sa_he3Balance := he3Balance intelligence;
            resourceFocus := rf;
            pathPreference := pp;
            liquidityStrategy := ls;
            stakingStrategy := ss;
            overallStrategy := os;
            counterStrategies := cs;
            sa_error := Undefined |}.

(** One turn of the loop over [Object.entries(competitiveIntelligence)]. *)
Definition analyzeAgent (strategicAnalysis : Dict StrategicAnalysis)
    (entry : string * AgentIntelligence) : completion (Dict StrategicAnalysis) :=
  let '(agentId, intelligence) := entry in
  tryCatch
    (if truthy (error intelligence) then Normal strategicAnalysis
     else
       analysis <- buildAnalysis agentId intelligence ;;
       Normal (set strategicAnalysis agentId analysis))
    (fun e =>
       Normal (set strategicAnalysis agentId
                 (analysisErrorRecord agentId intelligence e))).

Definition analyzeCompetitorStrategiesWith
    (competitiveIntelligence : Dict AgentIntelligence)
  : completion (Dict StrategicAnalysis) :=
  tryCatch
    (forOf competitiveIntelligence analyzeAgent [])
    (fun e => Throw e).

(** The record an agent ends up with: none when its intelligence carries a
    truthy [error], the analysis when all six analyses return, the
    "Analysis Error" record when one of them throws. *)
Definition recordFor (agentId : string) (intelligence : AgentIntelligence)
  : option StrategicAnalysis :=
  if truthy (error intelligence) then None
  else Some match buildAnalysis agentId intelligence with
            | Normal analysis => analysis
            | Throw e => analysisErrorRecord agentId intelligence e
            end.

(** What one turn of the loop does to the result object. *)
Definition store (acc : Dict StrategicAnalysis) (entry : string * AgentIntelligence)
  : Dict StrategicAnalysis :=
  match recordFor (fst entry) (snd entry) with
  | Some r => set acc (fst entry) r
  | None => acc
  end.

End Aggregator.

Definition classifiers (contractAddresses : ContractCategory -> option (Dict string))
  : Analyses :=
  {| resourceFocusOf := analyzeResourceFocus;
     pathPreferenceOf := analyzePathPreference contractAddresses;
     liquidityStrategyOf := analyzeLiquidityStrategy contractAddresses;
     stakingStrategyOf := analyzeStakingStrategy contractAddresses;
     overallStrategyOf := determineOverallStrategy;
     counterStrategiesOf := suggestCounterStrategies contractAddresses |}.

Definition analyzeCompetitorStrategies
    (contractAddresses : ContractCategory -> option (Dict string))
    (competitiveIntelligence : Dict AgentIntelligence)
  : completion (Dict StrategicAnalysis) :=
  analyzeCompetitorStrategiesWith (classifiers contractAddresses) competitiveIntelligence.

(** ** Ranking ([rankAgentsByHe3]) *)

Record RankedAgent : Type := {
  ra_agentId : string;
  ra_address : string;
  ra_he3Balance : string
}.

Definition categoryName (c : ContractCategory) : string :=
  match c with
  | core => "core"
  | resources => "resources"
  | lpPairs => "lpPairs"
  | reactors => "reactors"
  | agents => "agents"
  end.

Section Ranking.

Variable contractAddresses : ContractCategory -> option (Dict string).

(** The balance read from the chain: it returns a bigint or fails. *)
Variable getTokenBalance : string -> string -> completion Z.

Definition getCategoryAddresses (category : ContractCategory)
  : completion (Dict string) :=
  match contractAddresses category with
  | Some categoryAddresses => Normal categoryAddresses
  | None =>
      Throw (Error ("Contract category " ++ categoryName category ++ " not found"))
  end.

(** The comparator of [rankAgentsByHe3]: larger balance first. *)
Definition byHe3Desc (a b : RankedAgent) : completion Z :=
  balanceA <- BigInt (Str (ra_he3Balance a)) ;;
  balanceB <- BigInt (Str (ra_he3Balance b)) ;;
  Normal (if balanceB >? balanceA then 1 else if balanceB <? balanceA then -1 else 0).

Definition rankAgentsByHe3 : completion (list RankedAgent) :=
  tryCatch
    (agentAddresses <- getCategoryAddresses agents ;;
     resourceAddresses <- getCategoryAddresses resources ;;
     match getStr resourceAddresses "helium3" with
     | Str (String c a) =>
         let he3Address := String c a in
         balances <-
           forOf agentAddresses
             (fun (balances : list RankedAgent) entry =>
                let '(agentId, agentAddress) := entry in
                tryCatch
                  (balance <- getTokenBalance he3Address agentAddress ;;
                   Normal (push balances
                             {| ra_agentId := agentId;
                                ra_address := agentAddress;
                                ra_he3Balance := bigintToString balance |}))
                  (fun _ =>
                     Normal (push balances
                               {| ra_agentId := agentId;
                                  ra_address := agentAddress;
                                  ra_he3Balance := "Error" |})))
             [] ;;
         sort byHe3Desc
           (filter (fun agent => negb (String.eqb (ra_he3Balance agent) "Error"))
                   balances)
     | _ => Throw (Error "He3 token address not found")
     end)
    (fun e => Throw e).

End Ranking.

(** ** Notions used to state the properties *)

Definition isDecimalDigit (c : ascii) : bool := (48 <=? code c) && (code c <=? 57).

(** A well-formed non-negative integer string: decimal digits, at least one. *)
Definition wellFormedNat (s : string) : bool :=
  match s with
  | EmptyString => false
  | _ => forallb isDecimalDigit (list_ascii_of_string s)
  end.

(** Its value, most significant digit first. *)
Definition decimalValue (s : string) : Z :=
  fold_left (fun acc c => acc * 10 + (code c - 48)) (list_ascii_of_string s) 0.

(** The balance a resource entry counts for: its conversion with default
    zero. *)
Definition balanceOf (balance : string) : Z :=
  match balance with
  | EmptyString => 0
  | _ => match StringToBigInt balance with Some z => z | None => 0 end
  end.

(** The entries whose fetch succeeded. *)
Definition nonError (resourceBalances : Dict string) : Dict string :=
  filter (fun kv => negb (String.eqb (snd kv) "Error")) resourceBalances.

Definition converted (resourceBalances : Dict string) : Dict Z :=
  map (fun kv => (fst kv, balanceOf (snd kv))) (nonError resourceBalances).

(** The ladder of [analyzeResourceFocus] below the top resource. *)
Definition focusLabel (topResource : string) (he3 : option Z) : string :=
  if String.eqb topResource "helium3" &&
     match he3 with Some v => v >? 0 | None => false end
  then "He3 Accumulation"
  else if arrayIncludes ["graphene"; "yttrium"] topResource
  then capitalize topResource ++ " Path Focus"
  else if arrayIncludes ["carbon"; "neodymium"] topResource
  then capitalize topResource ++ " Stockpiling"
  else "Balanced Resource Approach".

(** Every non-error entry is zero. *)
Definition allZero (resourceBalances : Dict string) : Prop :=
  forall k s, In (k, s) resourceBalances -> s <> "Error" -> balanceOf s = 0.

(** Every entry is the "Error" sentinel (in particular, the empty mapping). *)
Definition allError (resourceBalances : Dict string) : Prop :=
  forall k s, In (k, s) resourceBalances -> s = "Error".

(** [k] holds a largest non-error balance. *)
Definition atTop (resourceBalances : Dict string) (k : string) : Prop :=
  exists s, In (k, s) (nonError resourceBalances) /\
            forall k' s', In (k', s') (nonError resourceBalances) ->
                          balanceOf s' <= balanceOf s.

(** At most one resource holds the largest non-error balance. *)
Definition noTopTie (resourceBalances : Dict string) : Prop :=
  forall k1 k2, atTop resourceBalances k1 -> atTop resourceBalances k2 -> k1 = k2.

Definition countIf {X} (p : X -> bool) (l : list X) : Z :=
  Z.of_nat (List.length (filter p l)).

(** A held resource of a path: a non-error entry with a non-zero balance
    whose name is in the path's resource set. *)
Definition held (path : list string) (kv : string * string) : bool :=
  negb (String.eqb (snd kv) "Error") &&
  negb (balanceOf (snd kv) =? 0) &&
  arrayIncludes path (fst kv).

Section PathScores.

Variable contractAddresses : ContractCategory -> option (Dict string).

(** The address registered under [name] in [category] is [a], up to case. *)
Definition addressIs (category : ContractCategory) (a name : string) : bool :=
  match contractAddresses category with
  | None => false
  | Some categoryAddresses =>
      truthy (Str name) &&
      match get categoryAddresses name with
      | Some registered =>
          truthy (Str registered) && String.eqb (toLowerCase a) (toLowerCase registered)
      | None => false
      end
  end.

(** A pair, resp. reactor, address belongs to a path when it is registered
    under one of the path's names. *)
Definition belongsTo (category : ContractCategory) (names : list string) (a : string)
  : bool :=
  existsb (addressIs category a) names.

Definition graphenePairs : list string := ["carbon"; "graphite"; "graphene"].
Definition yttriumPairs : list string := ["neodymium"; "dysprosium"; "yttrium"].
Definition grapheneReactors : list string := ["grp"; "gph"].
Definition yttriumReactors : list string := ["dy"; "y"].

(** The positions of a response; none when the response or its field is
    missing. *)
Definition positionsIn (r : PositionsResponse) : list Position :=
  match fieldOrEmpty r with
  | FArray items => items
  | _ => []
  end.

Definition isObject (p : Position) : bool :=
  match p with
  | PObject _ => true
  | PNullish => false
  end.

(** A response the classifiers go through without an internal fault: its
    field, when present, is an array, and no position in it is null. *)
Definition wellFormed (r : PositionsResponse) : bool :=
  match fieldOrEmpty r with
  | FArray items => forallb isObject items
  | _ => false
  end.

(** A position whose address belongs to a path; a position without a string
    address belongs to none. *)
Definition onPath (category : ContractCategory) (names : list string) (p : Position)
  : bool :=
  match p with
  | PObject (Str a) => belongsTo category names a
  | _ => false
  end.

Definition pathScore (resources pairs reactorNames : list string)
    (resourceBalances : Dict string) (liquidityPositions stakePositions : PositionsResponse)
  : Z :=
  1 * countIf (held resources) resourceBalances +
  2 * countIf (onPath lpPairs pairs) (positionsIn liquidityPositions) +
  3 * countIf (onPath reactors reactorNames) (positionsIn stakePositions).

Definition scoreA := pathScore graphenePathResources graphenePairs grapheneReactors.
Definition scoreB := pathScore yttriumPathResources yttriumPairs yttriumReactors.

End PathScores.

(** A small address table in the vocabulary the classifiers query, used to
    run them on concrete inputs. *)
Definition exampleContracts (c : ContractCategory) : option (Dict string) :=
  match c with
  | lpPairs =>
      Some [("carbon", "0xA1"); ("neodymium", "0xA2"); ("graphite", "0xA3");
            ("dysprosium", "0xA4"); ("graphene", "0xA5"); ("yttrium", "0xA6");
            ("helium3", "0xA7")]
  | reactors =>
      Some [("grp", "0xB1"); ("dy", "0xB2"); ("gph", "0xB3"); ("y", "0xB4");
            ("he3", "0xB5"); ("he3Stake", "0xB6")]
  | agents => Some [("agent-1", "0xC1"); ("agent-2", "0xC2"); ("agent-3", "0xC3")]
  | resources => Some [("carbon", "0xD1"); ("graphene", "0xD2"); ("helium3", "0xD3")]
  | core => None
  end.

(** The label sets of the five classifiers. *)
Definition resourceFocusLabels : list string :=
  ["He3 Accumulation"; "Graphene Path Focus"; "Yttrium Path Focus";
   "Carbon Stockpiling"; "Neodymium Stockpiling"; "Balanced Resource Approach";
   "Unknown"; "Analysis Error"].

Definition pathPreferenceLabels : list string :=
  ["Strong Graphene Path Preference"; "Moderate Graphene Path Preference";
   "Strong Yttrium Path Preference"; "Moderate Yttrium Path Preference";
   "Balanced Path Approach"; "Analysis Error"].

Definition liquidityStrategyLabels : list string :=
  ["No Liquidity Positions"; "Advanced Resource Liquidity Focus";
   "Intermediate Resource Liquidity Focus"; "Base Resource Liquidity Focus";
   "Diversified Liquidity Strategy"; "Analysis Error"].

Definition stakingStrategyLabels : list string :=
  ["No Staking Positions"; "He3 Single Stake Focus";
   "Advanced Resource Staking Focus"; "Intermediate Resource Staking Focus";
   "Base Resource Staking Focus"; "Diversified Staking Strategy"; "Analysis Error"].

Definition overallStrategyLabels : list string :=
  ["End Game - Final He3 Accumulation"; "Late Game - He3 Acceleration";
   "Mid Game - Dual Path Production"; "Mid Game - Graphene Path Focus";
   "Mid Game - Yttrium Path Focus"; "Early Game - Resource Conversion Setup";
   "Early Game - Resource Accumulation"; "Analysis Error"].

(** A computation that, if it returns, returns a label of [labels]. *)
Definition yields (labels : list string) (c : completion string) : Prop :=
  match c with
  | Normal l => In l labels
  | Throw _ => True
  end.

(** The balance recorded for a resource, zero when there is none. *)
Definition resourceBalance (resourceBalances : Dict string) (name : string) : Z :=
  match get resourceBalances name with
  | Some s => balanceOf s
  | None => 0
  end.

(** The number of liquidity positions in a response. *)
Definition positionCount (r : PositionsResponse) : Z :=
  match r with
  | RObject (FArray items) => Z.of_nat (List.length items)
  | _ => 0
  end.

(** The seven stage rules, first match wins. *)
Definition stage (balance : Z) (graphene yttrium anyLiquidity : bool) : string :=
  if balance >? 800000 * 10 ^ 18 then "End Game - Final He3 Accumulation"
  else if balance >? 500000 * 10 ^ 18 then "Late Game - He3 Acceleration"
  else if graphene && yttrium then "Mid Game - Dual Path Production"
  else if graphene && negb yttrium then "Mid Game - Graphene Path Focus"
  else if yttrium && negb graphene then "Mid Game - Yttrium Path Focus"
  else if anyLiquidity then "Early Game - Resource Conversion Setup"
  else "Early Game - Resource Accumulation".

Definition endGameCounters : list string :=
  ["Accelerate He3 production to catch up"; "Focus exclusively on He3 single staking"].

Definition lateGameCounters : list string :=
  ["Optimize He3 production path";
   "Balance between He3 single staking and GPH-Y liquidity"].

(** Sample intelligence records over [exampleContracts]. *)
Definition exampleIntelligence (id : string) (balances : Dict string) (e : MaybeString)
  : AgentIntelligence :=
  {| agentId := id;
     address := "0xC1";
     he3Balance := "12";
     resourceBalances := balances;
     liquidityPositions := responseOf ["0xa5"];
     stakePositions := RNullish;
     error := e |}.

(** The classifiers, except that the resource-focus analysis throws on an
    empty mapping: an analysis that fails for one agent. *)
Definition faultyAnalyses : Analyses :=
  {| resourceFocusOf :=
       fun rb => match rb with
                 | [] => Throw (Error "no balances")
                 | _ => analyzeResourceFocus rb
                 end;
     pathPreferenceOf := analyzePathPreference exampleContracts;
     liquidityStrategyOf := analyzeLiquidityStrategy exampleContracts;
     stakingStrategyOf := analyzeStakingStrategy exampleContracts;
     overallStrategyOf := determineOverallStrategy;
     counterStrategiesOf := suggestCounterStrategies exampleContracts |}.

(** A record as the indexer can deliver it: the second liquidity position
    is [null].  Reading its [pairAddress] is a TypeError inside the
    classifiers that go through the liquidity positions. *)
Definition nullPositionIntelligence (id : string) : AgentIntelligence :=
  {| agentId := id;
     address := "0xC2";
     he3Balance := "12";
     resourceBalances := [("carbon", "3")];
     liquidityPositions := RObject (FArray [PObject (Str "0xa5"); PNullish]);
     stakePositions := RNullish;
     error := Undefined |}.

(** The agents whose balance fetch succeeded, with the balance read. *)
Definition fetched (getTokenBalance : string -> string -> completion Z)
    (he3Address : string) (agentAddresses : Dict string)
  : list (string * string * Z) :=
  flat_map
    (fun entry =>
       match getTokenBalance he3Address (snd entry) with
       | Normal balance => [(fst entry, snd entry, balance)]
       | Throw _ => []
       end)
    agentAddresses.

(** The balance a returned entry is ranked by. *)
Definition rankKey (agent : RankedAgent) : Z :=
  match StringToBigInt (ra_he3Balance agent) with
  | Some z => z
  | None => 0
  end.

(** The element of [balances] pushed for one agent. *)
Definition balanceEntry (getTokenBalance : string -> string -> completion Z)
    (he3Address : string) (entry : string * string) : RankedAgent :=
  match getTokenBalance he3Address (snd entry) with
  | Normal balance =>
      {| ra_agentId := fst entry; ra_address := snd entry;
         ra_he3Balance := bigintToString balance |}
  | Throw _ =>
      {| ra_agentId := fst entry; ra_address := snd entry; ra_he3Balance := "Error" |}
  end.

(** The entry returned for a fetched agent. *)
Definition rankedEntry (e : string * string * Z) : RankedAgent :=
  {| ra_agentId := fst (fst e);
     ra_address := snd (fst e);
     ra_he3Balance := bigintToString (snd e) |}.

(** A balance oracle for the three agents of [exampleContracts]: one balance
    above 2^53, one failed fetch, one small balance. *)
Definition exampleBalances (token owner : string) : completion Z :=
  if String.eqb owner "0xC1" then Normal 50
  else if String.eqb owner "0xC2" then Throw (Error "rpc failed")
  else Normal 9007199254740993.

(** ** Further functions of [contracts.ts] *)

Definition agentPlaceholder : string :=
  "[Address will be available when agent is fully initialized]".

(** [category === 'agents'] *)
Definition isAgents (category : ContractCategory) : bool :=
  match category with
  | agents => true
  | _ => false
  end.

(** The string held by a truthy [string | undefined]. *)
Definition stringOf (v : MaybeString) : string :=
  match v with
  | Str s => s
  | _ => EmptyString
  end.

Section ContractLookups.

Variable contractAddresses : ContractCategory -> option (Dict string).

Definition getContractAddress (category : ContractCategory) (name : string)
  : completion string :=
  tryCatch
    (match contractAddresses category with
     | None =>
         Throw (Error ("Contract category " ++ categoryName category ++ " not found"))
     | Some categoryAddresses =>
         let address := getStr categoryAddresses name in
         if negb (truthy address) then
           if isAgents category then Normal agentPlaceholder
           else Throw (Error ("Contract " ++ name ++ " not found in category "
                                ++ categoryName category))
         else Normal (stringOf address)
     end)
    (fun error =>
       if isAgents category then Normal agentPlaceholder else Throw error).

(** [getTokenTypeForAddress]; [None] is [null].  The loop returns at the
    first entry whose address matches. *)
Definition getTokenTypeForAddress (address : MaybeString) (category : ContractCategory)
  : completion (option string) :=
  tryCatch
    (match contractAddresses category with
     | None => Normal None
     | Some categoryAddresses =>
         normalizedAddress <-
           match address with
           | Str a => Normal (toLowerCase a)
           | _ => Throw notAString
           end ;;
         Normal (option_map fst
                   (find (fun kv => String.eqb (toLowerCase (snd kv)) normalizedAddress)
                         categoryAddresses))
     end)
    (fun _ => Normal None).

End ContractLookups.

(** ** Functions of [starknet.ts] used by the classifier module *)

(** The module variable [currentAgentId], initially [null], is passed
    explicitly; [setCurrentAgentId] gives its new value. *)
Definition setCurrentAgentId (agentId : string) : MaybeString := Str agentId.

Definition getCurrentAgentId (currentAgentId : MaybeString) : string :=
  if negb (truthy currentAgentId) then "default-agent"
  else stringOf currentAgentId.

Definition getAgentAddress (contractAddresses : ContractCategory -> option (Dict string))
    (currentAgentId : MaybeString) : completion string :=
  tryCatch
    (let agentId := getCurrentAgentId currentAgentId in
     getContractAddress contractAddresses agents agentId)
    (fun _ => Normal "[Agent address will be set when agent starts]").

(** [s.replace(/^0x0*/, '0x')] *)
Fixpoint dropZeros (s : string) : string :=
  match s with
  | String c s' => if isChar c 48 then dropZeros s' else s
  | EmptyString => EmptyString
  end.

Definition replaceLeadingZeros (s : string) : string :=
  match s with
  | String a (String b rest) =>
      if isChar a 48 && isChar b 120 then "0x" ++ dropZeros rest else s
  | _ => s
  end.

Definition normalizeAddress (address : string) : string :=
  let prefixedAddress := if prefix "0x" address then address else "0x" ++ address in
  let normalized := replaceLeadingZeros (toLowerCase prefixedAddress) in
  if String.eqb normalized "0x" then "0x0" else normalized.

(** [z.toString(16)] for a bigint [z] *)
Definition bigintToHexString (z : Z) : string :=
  HexadecimalString.NilZero.string_of_int (Z.to_hex_int z).

(** The text of an error in a template literal: its name and message. *)
Definition errorToString (e : JsError) : string :=
  match e with
  | TypeError m => "TypeError: " ++ m
  | SyntaxError m => "SyntaxError: " ++ m
  | Error m => "Error: " ++ m
  end.

(** The argument of [toHex]: [bigint | string]. *)
Inductive BigIntOrString : Type :=
| OfBigInt (z : Z)
| OfString (s : string).

Definition toHex (value : BigIntOrString) (withPrefix : bool) : completion string :=
  tryCatch
    (bigIntValue <-
       match value with
       | OfString s => BigInt (Str s)
       | OfBigInt z => Normal z
       end ;;
     let hexString := bigintToHexString bigIntValue in
     Normal hexString)
    (fun error => Throw (Error ("Failed to convert value to hex: " ++ errorToString error))).

(** The significant part of an address: without the [0x] prefix when it has
    one, in lower case, without leading zeros. *)
Definition significantDigits (address : string) : string :=
  dropZeros (toLowerCase (if prefix "0x" address then slice1 (slice1 address)
                          else address)).

(** [n] zeros *)
Fixpoint zeros (n : nat) : string :=
  match n with
  | O => EmptyString
  | S n' => String "0" (zeros n')
  end.

(** The characters of a printed number: no white space, and no [x]. *)
Definition plainChar (c : ascii) : Prop := isWhiteSpace c = false /\ isChar c 120 = false.

(** ** Gathering ([executeQuery], [getAgentResourceBalances],
    [getCompetitiveIntelligence]) *)

(** [executeQuery]: the request is awaited, a failure is logged and thrown
    again. *)
Definition executeQuery {T} (request : completion T) : completion T :=
  tryCatch request (fun error => Throw error).

Section Gathering.

Variable contractAddresses : ContractCategory -> option (Dict string).

(** The chain and the indexer: a balance read, and the two position queries
    by user address. *)
Variable getTokenBalance : string -> string -> completion Z.
Variable requestLiquidityPositions : string -> completion PositionsResponse.
Variable requestStakePositions : string -> completion PositionsResponse.

Definition getAgentResourceBalances (agentAddress : string) : completion (Dict string) :=
  tryCatch
    (resourceAddresses <- getCategoryAddresses contractAddresses resources ;;
     forOf resourceAddresses
       (fun (balances : Dict string) entry =>
          let '(resourceName, resourceAddress) := entry in
          tryCatch
            (balance <- getTokenBalance resourceAddress agentAddress ;;
             Normal (set balances resourceName (bigintToString balance)))
            (fun _ => Normal (set balances resourceName "Error")))
       [])
    (fun error => Throw error).

Definition getCompetitiveIntelligence (currentAgentIdState : MaybeString)
  : completion (Dict AgentIntelligence) :=
  tryCatch
    (agentAddresses <- getCategoryAddresses contractAddresses agents ;;
     let currentAgentId := getCurrentAgentId currentAgentIdState in
     let currentAgentAddress := getStr agentAddresses currentAgentId in
     if negb (truthy currentAgentAddress) then
       Throw (Error ("Current agent address not found for ID: " ++ currentAgentId))
     else
       resourceAddresses <- getCategoryAddresses contractAddresses resources ;;
       let he3Address := getStr resourceAddresses "helium3" in
       if negb (truthy he3Address) then Throw (Error "He3 token address not found")
       else
         forOf agentAddresses
           (fun (competitiveIntelligence : Dict AgentIntelligence) entry =>
              let '(agentId, agentAddress) := entry in
              if String.eqb agentId currentAgentId then Normal competitiveIntelligence
              else
                tryCatch
                  (he3Balance <- getTokenBalance (stringOf he3Address) agentAddress ;;
                   resourceBalances <-
                     forOf resourceAddresses
                       (fun (resourceBalances : Dict string) resource =>
                          let '(resourceName, resourceAddress) := resource in
                          tryCatch
                            (balance <- getTokenBalance resourceAddress agentAddress ;;
                             Normal (set resourceBalances resourceName
                                       (bigintToString balance)))
                            (fun _ => Normal (set resourceBalances resourceName "Error")))
                       [] ;;
                   liquidityPositionsResult <-
                     executeQuery (requestLiquidityPositions (normalizeAddress agentAddress)) ;;
                   stakePositionsResult <-
                     executeQuery (requestStakePositions (normalizeAddress agentAddress)) ;;
                   Normal (set competitiveIntelligence agentId
                             {| agentId := agentId;
                                address := agentAddress;
                                he3Balance := bigintToString he3Balance;
                                resourceBalances := resourceBalances;
                                liquidityPositions := liquidityPositionsResult;
                                stakePositions := stakePositionsResult;
                                error := Undefined |}))
                  (fun error =>
                     Normal (set competitiveIntelligence agentId
                               {| agentId := agentId;
                                  address := agentAddress;
                                  he3Balance := "0";
                                  resourceBalances := [];
                                  liquidityPositions := RObject (FArray []);
                                  stakePositions := RObject (FArray []);
                                  error :=
                                    Str (orString (messageOf error)
                                           "Failed to get competitive intelligence") |})))
           [])
    (fun error => Throw error).

(** The configuration [getCompetitiveIntelligence] needs: the agents table
    with a non-empty address for the current agent, and the resources table
    with a non-empty helium3 address. *)
Definition configured (current : MaybeString) : Prop :=
  exists aa ra,
    contractAddresses agents = Some aa /\
    truthy (getStr aa (getCurrentAgentId current)) = true /\
    contractAddresses resources = Some ra /\
    truthy (getStr ra "helium3") = true.

(** The string recorded for one resource of one agent. *)
Definition balanceString (agentAddress resourceAddress : string) : string :=
  match getTokenBalance resourceAddress agentAddress with
  | Normal balance => bigintToString balance
  | Throw _ => "Error"
  end.

(** The record gathered for one agent: complete when the helium3 balance
    and both position queries are obtained, the error record otherwise. *)
Definition gathered (he3Address : string) (resourceAddresses : Dict string)
    (agentId agentAddress : string) : AgentIntelligence :=
  match
    (he3Balance <- getTokenBalance he3Address agentAddress ;;
     lp <- requestLiquidityPositions (normalizeAddress agentAddress) ;;
     sp <- requestStakePositions (normalizeAddress agentAddress) ;;
     Normal (he3Balance, lp, sp))
  with
  | Normal (he3Balance, lp, sp) =>
      {| agentId := agentId;
         address := agentAddress;
         he3Balance := bigintToString he3Balance;
         resourceBalances :=
           map (fun kv => (fst kv, balanceString agentAddress (snd kv))) resourceAddresses;
         liquidityPositions := lp;
         stakePositions := sp;
         error := Undefined |}
  | Throw e =>
      {| agentId := agentId;
         address := agentAddress;
         he3Balance := "0";
         resourceBalances := [];
         liquidityPositions := RObject (FArray []);
         stakePositions := RObject (FArray []);
         error := Str (orString (messageOf e) "Failed to get competitive intelligence") |}
  end.

End Gathering.

(** Query oracles for the examples: the positions of agent 0xc3 cannot be
    fetched. *)
Definition exampleLiquidity (userAddress : string) : completion PositionsResponse :=
  if String.eqb userAddress "0xc3" then Throw (Error "indexer down")
  else Normal (responseOf ["0xA5"]).

Definition exampleStakes (userAddress : string) : completion PositionsResponse :=
  Normal (responseOf []).

Definition exampleReads (token owner : string) : completion Z :=
  if String.eqb token "0xD1" then Throw (Error "rpc failed") else Normal 7.

(** ** Tiers of liquidity and stake positions *)

Inductive Tier : Type := BaseTier | IntermediateTier | AdvancedTier | SingleStake.

Definition tierIs (t : Tier) (o : option Tier) : bool :=
  match o, t with
  | Some BaseTier, BaseTier
  | Some IntermediateTier, IntermediateTier
  | Some AdvancedTier, AdvancedTier
  | Some SingleStake, SingleStake => true
  | _, _ => false
  end.

Section Tiers.

Variable contractAddresses : ContractCategory -> option (Dict string).

(** The tier a liquidity position is counted in: the first of base,
    intermediate, advanced whose pairs hold its address. *)
Definition liquidityTier (p : Position) : option Tier :=
  if onPath contractAddresses lpPairs ["carbon"; "neodymium"] p then Some BaseTier
  else if onPath contractAddresses lpPairs ["graphite"; "dysprosium"] p
  then Some IntermediateTier
  else if onPath contractAddresses lpPairs ["graphene"; "yttrium"; "helium3"] p
  then Some AdvancedTier
  else None.

(** The tier a stake position is counted in; the helium3 production reactor
    counts as advanced only when it is not also the single-stake reactor. *)
Definition stakeTier (p : Position) : option Tier :=
  if onPath contractAddresses reactors ["grp"; "dy"] p then Some BaseTier
  else if onPath contractAddresses reactors ["gph"; "y"] p then Some IntermediateTier
  else if onPath contractAddresses reactors ["he3"] p &&
          negb (onPath contractAddresses reactors ["he3Stake"] p)
  then Some AdvancedTier
  else if onPath contractAddresses reactors ["he3Stake"] p then Some SingleStake
  else None.

Definition countTier (tier : Position -> option Tier) (t : Tier) (items : list Position)
  : Z :=
  countIf (fun p => tierIs t (tier p)) items.

End Tiers.

(** The rank of a stage label: early and mid game, late game, end game. *)
Definition stageRank (label : string) : Z :=
  if String.eqb label "End Game - Final He3 Accumulation" then 2
  else if String.eqb label "Late Game - He3 Acceleration" then 1
  else 0.

(** The suggestions that answer a path preference and a liquidity
    strategy. *)
Definition pathAdvice (pathPreference : string) : list string :=
  if String.eqb pathPreference "Strong Graphene Path Preference" ||
     String.eqb pathPreference "Moderate Graphene Path Preference"
  then ["Focus on Yttrium path to avoid competition";
        "Secure Neodymium and Dysprosium resources"]
  else if String.eqb pathPreference "Strong Yttrium Path Preference" ||
          String.eqb pathPreference "Moderate Yttrium Path Preference"
  then ["Focus on Graphene path to avoid competition";
        "Secure Carbon and Graphite resources"]
  else ["Specialize in one path for efficiency"].

Definition liquidityAdvice (liquidityStrategy : string) : list string :=
  if String.eqb liquidityStrategy "Base Resource Liquidity Focus"
  then ["Focus on intermediate and advanced resource liquidity"]
  else if String.eqb liquidityStrategy "Advanced Resource Liquidity Focus"
  then ["Ensure base resource supply chain is secure"]
  else [].

(** ** Action handlers ([goals.ts]) *)

(** What a handler returns: [{success: true, data}] or
    [{success: false, error}].  The time stamps of the results are left
    out. *)
Inductive HandlerResult (D : Type) : Type :=
| Success (data : D)
| Failure (error : string).

Arguments Success {D} data.
Arguments Failure {D} error.

Record CompetitiveMetrics : Type := {
  totalAgents : Z;
  agentsWithData : Z;
  leadingAgent : MaybeString;
  maxHe3Balance : string;
  averageHe3Balance : string;
  currentAgentRank : Z
}.

(** [arr.findIndex(p)]: the first index at which [p] holds, or -1 *)
Fixpoint findIndex {A} (p : A -> bool) (arr : list A) : Z :=
  match arr with
  | [] => -1
  | x :: arr' =>
      if p x then 0
      else let i := findIndex p arr' in if i =? -1 then -1 else i + 1
  end.

(** The sum of a list of integers. *)
Definition total (l : list Z) : Z := fold_right Z.add 0 l.

Section Handlers.

Variable contractAddresses : ContractCategory -> option (Dict string).
Variable getTokenBalance : string -> string -> completion Z.
Variable requestLiquidityPositions : string -> completion PositionsResponse.
Variable requestStakePositions : string -> completion PositionsResponse.

(** The handler of the action [getCompetitiveIntelligence]. *)
Definition getCompetitiveIntelligenceHandler (currentAgentIdState : MaybeString)
  : completion (HandlerResult (Dict AgentIntelligence * CompetitiveMetrics)) :=
  tryCatch
    (competitiveIntelligence <-
       getCompetitiveIntelligence contractAddresses getTokenBalance
         requestLiquidityPositions requestStakePositions currentAgentIdState ;;
     let currentAgentId := getCurrentAgentId currentAgentIdState in
     agentAddresses <- getCategoryAddresses contractAddresses agents ;;
     let currentAgentAddress := getStr agentAddresses currentAgentId in
     let competitiveMetrics :=
       {| totalAgents := Z.of_nat (List.length (keys agentAddresses));
          agentsWithData := Z.of_nat (List.length (keys competitiveIntelligence));
          leadingAgent := Null;
          maxHe3Balance := "0";
          averageHe3Balance := "0";
          currentAgentRank := 1 |} in
     rankedAgents <- rankAgentsByHe3 contractAddresses getTokenBalance ;;
     competitiveMetrics <-
       match rankedAgents with
       | [] => Normal competitiveMetrics
       | first :: _ =>
           totalHe3Balance <-
             forOf rankedAgents
               (fun (totalHe3Balance : Z) agent =>
                  balance <- BigInt (Str (ra_he3Balance agent)) ;;
                  Normal (totalHe3Balance + balance))
               0 ;;
           let n := Z.of_nat (List.length rankedAgents) in
           let rank :=
             findIndex (fun agent => String.eqb (ra_agentId agent) currentAgentId)
                       rankedAgents + 1 in
           Normal {| totalAgents := totalAgents competitiveMetrics;
                     agentsWithData := agentsWithData competitiveMetrics;
                     leadingAgent := Str (ra_agentId first);
                     maxHe3Balance := ra_he3Balance first;
                     averageHe3Balance := bigintToString (Z.quot totalHe3Balance n);
                     currentAgentRank := if rank =? 0 then n + 1 else rank |}
       end ;;
     Normal (Success (competitiveIntelligence, competitiveMetrics)))
    (fun error =>
       Normal (Failure (orString (messageOf error)
                          "Failed to get competitive intelligence"))).

(** The handler of the action [detectCompetitorStrategies]. *)
Definition detectCompetitorStrategiesHandler (currentAgentIdState : MaybeString)
  : completion (HandlerResult (Dict StrategicAnalysis)) :=
  tryCatch
    (competitiveIntelligence <-
       getCompetitiveIntelligence contractAddresses getTokenBalance
         requestLiquidityPositions requestStakePositions currentAgentIdState ;;
     strategicAnalysis <-
       analyzeCompetitorStrategies contractAddresses competitiveIntelligence ;;
     Normal (Success strategicAnalysis))
    (fun error =>
       Normal (Failure (orString (messageOf error)
                          "Failed to detect competitor strategies"))).

End Handlers.

(** * Properties *)

(** ** Completions *)

Lemma returns_Normal {A} (a : A) : returns (Normal a).
Proof. now exists a. Qed.

Lemma tryCatch_total {A} (c : completion A) (a : A) :
  returns (tryCatch c (fun _ => Normal a)).
Proof. destruct c; simpl; eauto using returns_Normal. Qed.

(** ** BigInt parsing and printing *)

Ltac code_arith :=
  unfold isChar, isDecimalDigit, isWhiteSpace, digitValue in *;
  repeat match goal with
         | H : _ && _ = true |- _ => apply andb_true_iff in H; destruct H
         | H : (_ <=? _) = true |- _ => apply Z.leb_le in H
         end;
  repeat match goal with
         | |- context [?a <=? ?b] => destruct (Z.leb_spec a b)
         | |- context [?a =? ?b] => destruct (Z.eqb_spec a b)
         | |- context [?a <? ?b] => destruct (Z.ltb_spec a b)
         end;
  simpl; try reflexivity; try lia.

Lemma digit_not_space c : isDecimalDigit c = true -> isWhiteSpace c = false.
Proof. intros H. code_arith. Qed.

Lemma trimStart_id l :
  Forall (fun c => isWhiteSpace c = false) l -> trimStart l = l.
Proof. destruct 1 as [|c l Hc _]; simpl; [reflexivity|now rewrite Hc]. Qed.

Lemma trim_id l :
  Forall (fun c => isWhiteSpace c = false) l -> trim l = l.
Proof.
  intros H. unfold trim. rewrite (trimStart_id l H).
  rewrite trimStart_id by now apply Forall_rev.
  apply rev_involutive.
Qed.

Lemma digits_no_space l :
  forallb isDecimalDigit l = true -> Forall (fun c => isWhiteSpace c = false) l.
Proof.
  rewrite forallb_forall, Forall_forall. intros H c Hc.
  apply digit_not_space, H, Hc.
Qed.

Lemma parseDigits_decimal l : forall acc,
  forallb isDecimalDigit l = true ->
  parseDigits 10 acc l = Some (fold_left (fun a c => a * 10 + (code c - 48)) l acc).
Proof.
  induction l as [|c l IH]; intros acc H; simpl in *; [reflexivity|].
  apply andb_true_iff in H. destruct H as [Hc Hl].
  assert (Hd : digitValue c = Some (code c - 48)) by (unfold digitValue; unfold isDecimalDigit in Hc; now rewrite Hc).
  rewrite Hd.
  assert (Hr : (code c - 48 <? 10) = true) by (apply Z.ltb_lt; code_arith).
  rewrite Hr. now apply IH.
Qed.

Lemma StringToBigInt_digits l :
  l <> [] -> forallb isDecimalDigit l = true ->
  StringToBigInt (string_of_list_ascii l) =
  Some (fold_left (fun a c => a * 10 + (code c - 48)) l 0).
Proof.
  intros Hne H. unfold StringToBigInt.
  rewrite list_ascii_of_string_of_list_ascii.
  rewrite trim_id by now apply digits_no_space.
  destruct l as [|c0 rest]; [congruence|].
  destruct rest as [|c1 ds].
  - change (parseLiteral 10 [c0]) with (parseDigits 10 0 [c0]).
    now apply parseDigits_decimal.
  - pose proof H as H'. simpl in H'.
    apply andb_true_iff in H'. destruct H' as [H0 H'].
    apply andb_true_iff in H'. destruct H' as [H1 _].
    assert (E1 : isChar c0 48 && (isChar c1 120 || isChar c1 88) = false) by code_arith.
    assert (E2 : isChar c0 48 && (isChar c1 111 || isChar c1 79) = false) by code_arith.
    assert (E3 : isChar c0 48 && (isChar c1 98 || isChar c1 66) = false) by code_arith.
    assert (E4 : isChar c0 45 = false) by code_arith.
    assert (E5 : isChar c0 43 = false) by code_arith.
    rewrite E1, E2, E3, E4, E5.
    change (parseLiteral 10 (c0 :: c1 :: ds)) with (parseDigits 10 0 (c0 :: c1 :: ds)).
    now apply parseDigits_decimal.
Qed.

Lemma StringToBigInt_wellFormed s :
  wellFormedNat s = true -> StringToBigInt s = Some (decimalValue s).
Proof.
  intros H. unfold decimalValue.
  rewrite <- (string_of_list_ascii_of_string s) at 1.
  apply StringToBigInt_digits.
  - destruct s; [discriminate|simpl; discriminate].
  - destruct s; [discriminate|exact H].
Qed.

Lemma StringToBigInt_negative l :
  l <> [] -> forallb isDecimalDigit l = true ->
  StringToBigInt (String "-" (string_of_list_ascii l)) =
  Some (- fold_left (fun a c => a * 10 + (code c - 48)) l 0).
Proof.
  intros Hne H. unfold StringToBigInt. simpl list_ascii_of_string.
  rewrite list_ascii_of_string_of_list_ascii.
  rewrite trim_id by (constructor; [reflexivity|now apply digits_no_space]).
  destruct l as [|c1 ds]; [congruence|].
  change (isChar "-" 48) with false. change (isChar "-" 45) with true.
  cbn [andb]. cbv iota.
  change (parseLiteral 10 (c1 :: ds)) with (parseDigits 10 0 (c1 :: ds)).
  now rewrite parseDigits_decimal.
Qed.

Lemma uint_digits u :
  forallb isDecimalDigit (list_ascii_of_string (NilEmpty.string_of_uint u)) = true.
Proof. induction u; simpl; auto. Qed.

Ltac eval_code :=
  repeat match goal with
         | |- context [code ?c] =>
             let v := eval vm_compute in (code c) in change (code c) with v
         end.

Lemma horner_acc u : forall p,
  fold_left (fun a c => a * 10 + (code c - 48))
            (list_ascii_of_string (NilEmpty.string_of_uint u)) (Z.pos p) =
  Z.pos (Pos.of_uint_acc u p).
Proof.
  induction u; intros p;
    cbn [NilEmpty.string_of_uint list_ascii_of_string fold_left Pos.of_uint_acc];
    try reflexivity; rewrite <- IHu; f_equal; eval_code; lia.
Qed.

Lemma horner_uint u :
  fold_left (fun a c => a * 10 + (code c - 48))
            (list_ascii_of_string (NilEmpty.string_of_uint u)) 0 =
  Z.of_N (Pos.of_uint u).
Proof.
  induction u;
    cbn [NilEmpty.string_of_uint list_ascii_of_string fold_left Pos.of_uint Z.of_N];
    try reflexivity; try exact IHu;
    rewrite <- horner_acc; f_equal.
Qed.

Lemma to_uint_nonempty p :
  list_ascii_of_string (NilEmpty.string_of_uint (Pos.to_uint p)) <> [].
Proof.
  pose proof (DecimalPos.Unsigned.of_to p) as H.
  destruct (Pos.to_uint p); simpl in *; discriminate.
Qed.

Lemma string_of_to_uint p :
  NilZero.string_of_uint (Pos.to_uint p) = NilEmpty.string_of_uint (Pos.to_uint p).
Proof.
  pose proof (DecimalPos.Unsigned.of_to p) as H.
  destruct (Pos.to_uint p); simpl in *; [discriminate|reflexivity..].
Qed.

Lemma StringToBigInt_toString z : StringToBigInt (bigintToString z) = Some z.
Proof.
  destruct z as [|p|p]; unfold bigintToString; simpl Z.to_int;
    unfold NilZero.string_of_int.
  - reflexivity.
  - rewrite string_of_to_uint.
    rewrite <- (string_of_list_ascii_of_string (NilEmpty.string_of_uint _)).
    rewrite StringToBigInt_digits by (apply to_uint_nonempty || apply uint_digits).
    now rewrite horner_uint, DecimalPos.Unsigned.of_to.
  - rewrite string_of_to_uint.
    rewrite <- (string_of_list_ascii_of_string (NilEmpty.string_of_uint _)).
    rewrite StringToBigInt_negative by (apply to_uint_nonempty || apply uint_digits).
    now rewrite horner_uint, DecimalPos.Unsigned.of_to.
Qed.

Lemma BigInt_toString z : BigInt (Str (bigintToString z)) = Normal z.
Proof. simpl. now rewrite StringToBigInt_toString. Qed.

Lemma toString_not_Error z : String.eqb (bigintToString z) "Error" = false.
Proof.
  apply String.eqb_neq. intros H.
  pose proof (StringToBigInt_toString z) as P. rewrite H in P. discriminate.
Qed.

(** ** Safe numeric conversion *)

Lemma safeBigIntConversion_returns v d : returns (safeBigIntConversion v d).
Proof.
  unfold safeBigIntConversion. destruct (negb (truthy v)).
  - apply returns_Normal.
  - apply tryCatch_total.
Qed.

(** The value of a conversion with default zero, as a plain integer. *)
Lemma safeBigIntConversion_Str s d :
  safeBigIntConversion (Str s) d =
  Normal match s with
         | EmptyString => d
         | _ => match StringToBigInt s with Some z => z | None => d end
         end.
Proof.
  unfold safeBigIntConversion. destruct s as [|c s]; [reflexivity|].
  simpl. now destruct (StringToBigInt (String c s)).
Qed.

(** C2. [safeBigIntConversion] never throws; on a well-formed non-negative
    integer string it agrees with [BigInt]; on the empty string, [undefined],
    [null], the sentinel "Error" and on every string [BigInt] rejects it
    returns the caller's default. *)
Theorem safeBigIntConversion_spec :
  (forall v d, returns (safeBigIntConversion v d)) /\
  (forall s d, wellFormedNat s = true ->
     BigInt (Str s) = Normal (decimalValue s) /\
     safeBigIntConversion (Str s) d = BigInt (Str s)) /\
  (forall d,
     safeBigIntConversion (Str "") d = Normal d /\
     safeBigIntConversion Undefined d = Normal d /\
     safeBigIntConversion Null d = Normal d /\
     safeBigIntConversion (Str "Error") d = Normal d) /\
  (forall s d, BigInt (Str s) = Throw badLiteral ->
     safeBigIntConversion (Str s) d = Normal d).
Proof.
  split; [exact safeBigIntConversion_returns|].
  split; [|split].
  - intros s d H. pose proof (StringToBigInt_wellFormed s H) as E.
    rewrite safeBigIntConversion_Str. simpl. rewrite E.
    split; [reflexivity|]. destruct s; [discriminate|reflexivity].
  - intros d. repeat split; reflexivity.
  - intros s d H. rewrite safeBigIntConversion_Str.
    simpl in H. destruct (StringToBigInt s); [discriminate|].
    now destruct s.
Qed.

Lemma safeBigIntConversion_spec_witness :
  safeBigIntConversion (Str "9007199254740993") 7 = Normal 9007199254740993 /\
  safeBigIntConversion (Str "not-a-number") 7 = Normal 7.
Proof.
  destruct safeBigIntConversion_spec as (_ & Hwf & _ & Hbad).
  split.
  - destruct (Hwf "9007199254740993" 7 eq_refl) as [Hv Hs].
    rewrite Hs. exact Hv.
  - apply Hbad. reflexivity.
Defined.

(** ** Objects as insertion-ordered maps *)

Lemma set_fresh {V} (o : Dict V) k v :
  ~ In k (keys o) -> set o k v = (o ++ [(k, v)])%list.
Proof.
  induction o as [|[k' v'] o IH]; simpl; intros H; [reflexivity|].
  destruct (String.eqb_spec k k') as [->|_]; [tauto|].
  f_equal. apply IH. tauto.
Qed.

Lemma get_In {V} (o : Dict V) k v :
  NoDup (keys o) -> In (k, v) o -> get o k = Some v.
Proof.
  induction o as [|[k' v'] o IH]; simpl; intros Hnd Hin; [tauto|].
  inversion Hnd as [|? ? Hk Hnd']; subst.
  destruct Hin as [E|Hin].
  - inversion E; subst. now rewrite String.eqb_refl.
  - destruct (String.eqb_spec k k') as [->|_].
    + exfalso. apply Hk. change k' with (fst (k', v)). now apply in_map.
    + now apply IH.
Qed.

Lemma get_Some_In {V} (o : Dict V) k v : get o k = Some v -> In (k, v) o.
Proof.
  induction o as [|[k' v'] o IH]; simpl; [discriminate|].
  destruct (String.eqb_spec k k') as [->|_]; intros H.
  - inversion H; subst. now left.
  - right. now apply IH.
Qed.

Lemma get_Permutation {V} (o1 o2 : Dict V) k :
  NoDup (keys o1) -> Permutation o1 o2 -> get o1 k = get o2 k.
Proof.
  intros Hnd Hp.
  assert (Hnd2 : NoDup (keys o2)).
  { eapply Permutation_NoDup; [|exact Hnd]. now apply Permutation_map. }
  destruct (get o1 k) as [v|] eqn:E1.
  - symmetry. apply get_In; [exact Hnd2|].
    eapply Permutation_in; [exact Hp|]. now apply get_Some_In.
  - destruct (get o2 k) as [v|] eqn:E2; [|reflexivity].
    apply get_Some_In in E2. apply Permutation_sym in Hp.
    eapply Permutation_in in E2; [|exact Hp].
    apply (get_In _ _ _ Hnd) in E2. congruence.
Qed.

(** ** The stable sort *)

Section SortSpec.

Context {A : Type} (cmp : A -> A -> completion Z) (key : A -> Z).

Lemma insertSorted_spec x l :
  (forall y, In y l -> descending cmp key x y) ->
  StronglySorted (fun a b => key b <= key a) l ->
  exists out, insertSorted cmp x l = Normal out /\
              Permutation (x :: l) out /\
              StronglySorted (fun a b => key b <= key a) out.
Proof.
  induction l as [|y l IH]; intros Hc Hs.
  - exists [x]. repeat split; auto. repeat constructor.
  - destruct (Hc y (or_introl eq_refl)) as (c & Ec & Hle).
    apply StronglySorted_inv in Hs. destruct Hs as [Hs Hy].
    simpl. rewrite Ec. simpl.
    destruct (Z.leb_spec c 0) as [Hc0|Hc0].
    + exists (x :: y :: l). repeat split; auto.
      constructor; [now constructor|].
      constructor; [tauto|].
      rewrite Forall_forall in *. intros z Hz. specialize (Hy z Hz). lia.
    + destruct IH as (out & Eo & Hp & Hso); [intros; apply Hc; now right|exact Hs|].
      rewrite Eo. simpl. exists (y :: out). repeat split.
      * rewrite perm_swap. now constructor.
      * constructor; [exact Hso|].
        rewrite Forall_forall in *. intros z Hz.
        apply Permutation_sym in Hp. eapply Permutation_in in Hz; [|exact Hp].
        destruct Hz as [<-|Hz]; [lia|now apply Hy].
Qed.

Lemma sort_spec l :
  (forall x y, In x l -> In y l -> descending cmp key x y) ->
  exists out, sort cmp l = Normal out /\
              Permutation l out /\
              StronglySorted (fun a b => key b <= key a) out.
Proof.
  induction l as [|x l IH]; intros Hc.
  - exists []. repeat split; auto. constructor.
  - destruct IH as (r & Er & Hp & Hs); [intros; apply Hc; now right|].
    destruct (insertSorted_spec x r) as (out & Eo & Hpo & Hso); [|exact Hs|].
    + intros y Hy. apply Hc; [now left|right].
      apply Permutation_sym in Hp. eapply Permutation_in; eauto.
    + simpl. rewrite Er. simpl. exists out. repeat split; auto.
      rewrite <- Hpo. now constructor.
Qed.

End SortSpec.

(** ** Resource focus *)

Lemma byBalanceDesc_descending x y : descending byBalanceDesc snd x y.
Proof.
  unfold descending, byBalanceDesc. eexists. split; [reflexivity|].
  destruct (Z.gtb_spec (snd x) (snd y)); [lia|].
  destruct (Z.ltb_spec (snd x) (snd y)); lia.
Qed.

Lemma safeBigIntConversion_balanceOf s :
  safeBigIntConversion (Str s) 0 = Normal (balanceOf s).
Proof. rewrite safeBigIntConversion_Str. reflexivity. Qed.

Lemma focus_loop rb : forall acc,
  NoDup (keys acc ++ keys (nonError rb)) ->
  forOf rb
    (fun (balances : Dict Z) entry =>
       let '(resource, balance) := entry in
       if negb (String.eqb balance "Error") then
         v <- safeBigIntConversion (Str balance) 0 ;;
         Normal (set balances resource v)
       else Normal balances)
    acc = Normal (acc ++ converted rb)%list.
Proof.
  induction rb as [|[k s] rb IH]; intros acc Hnd; simpl.
  - now rewrite app_nil_r.
  - unfold converted, nonError in *. simpl in *.
    destruct (negb (String.eqb s "Error")); simpl in *.
    + rewrite safeBigIntConversion_balanceOf. simpl.
      assert (Hk : ~ In k (keys acc)).
      { intros Hk. apply NoDup_remove_2 in Hnd. apply Hnd.
        apply in_or_app. now left. }
      rewrite set_fresh by exact Hk.
      rewrite IH.
      * now rewrite <- app_assoc.
      * unfold keys in *. rewrite map_app. simpl. rewrite <- app_assoc. exact Hnd.
    + now apply IH.
Qed.

Lemma keys_nonError rb : NoDup (keys rb) -> NoDup (keys (nonError rb)).
Proof.
  induction rb as [|[k s] rb IH]; simpl; intros H; [constructor|].
  inversion H as [|? ? Hk Hnd]; subst. unfold nonError in *. simpl.
  destruct (negb (String.eqb s "Error")); simpl; [|now apply IH].
  constructor; [|now apply IH].
  intros Hin. apply Hk. unfold keys in *.
  apply in_map_iff in Hin. destruct Hin as (kv & E & Hin).
  apply filter_In in Hin. apply in_map_iff. exists kv. tauto.
Qed.

Lemma keys_converted rb : keys (converted rb) = keys (nonError rb).
Proof. unfold keys, converted. rewrite map_map. reflexivity. Qed.

(** The classifier on a well-formed mapping: sort the converted entries,
    then read the label off the first one. *)
Lemma analyzeResourceFocus_sorted rb :
  NoDup (keys rb) ->
  exists sorted,
    Permutation (converted rb) sorted /\
    StronglySorted (fun a b => snd b <= snd a) sorted /\
    analyzeResourceFocus rb =
    Normal match sorted with
           | [] => "Unknown"
           | (topResource, _) :: _ =>
               focusLabel topResource (get (converted rb) "helium3")
           end.
Proof.
  intros Hnd. unfold analyzeResourceFocus.
  rewrite (focus_loop rb []) by (simpl; now apply keys_nonError).
  simpl app. cbn [bind].
  destruct (sort_spec byBalanceDesc snd (converted rb)) as (sorted & Es & Hp & Hs).
  { intros; apply byBalanceDesc_descending. }
  exists sorted. split; [exact Hp|]. split; [exact Hs|].
  rewrite Es. cbn [bind]. destruct sorted as [|[top v] rest]; [reflexivity|].
  cbn [map fst]. unfold focusLabel.
  destruct (_ && _); [reflexivity|].
  destruct (arrayIncludes ["graphene"; "yttrium"] top); [reflexivity|].
  destruct (arrayIncludes ["carbon"; "neodymium"] top); reflexivity.
Qed.

Lemma allError_nonError rb : allError rb -> nonError rb = [].
Proof.
  induction rb as [|[k s] rb IH]; intros H; [reflexivity|].
  unfold nonError in *. simpl.
  rewrite (H k s (or_introl eq_refl)). simpl.
  apply IH. intros k' s' Hin. apply (H k' s'). now right.
Qed.

(** C1, as the code has it.  A mapping without any non-error entry (empty,
    or every entry the "Error" sentinel) is labelled "Unknown". *)
Theorem analyzeResourceFocus_no_entries rb :
  allError rb -> analyzeResourceFocus rb = Normal "Unknown".
Proof.
  intros H. unfold analyzeResourceFocus.
  rewrite (focus_loop rb []).
  - unfold converted. rewrite (allError_nonError rb H). reflexivity.
  - rewrite (allError_nonError rb H). constructor.
Qed.

Lemma analyzeResourceFocus_no_entries_witness :
  analyzeResourceFocus [("helium3", "Error"); ("carbon", "Error")] = Normal "Unknown".
Proof.
  apply analyzeResourceFocus_no_entries.
  intros k s [E|[E|[]]]; now inversion E.
Defined.

(** C1 as stated fails: a mapping whose only balance is zero is not labelled
    "Unknown" but after its first resource. *)
Lemma analyzeResourceFocus_zero_balance :
  ~ (forall rb, NoDup (keys rb) -> allZero rb ->
                analyzeResourceFocus rb = Normal "Unknown").
Proof.
  intros H. specialize (H [("carbon", "0")]).
  assert (E : analyzeResourceFocus [("carbon", "0")] = Normal "Carbon Stockpiling")
    by reflexivity.
  rewrite E in H. enough (Normal "Carbon Stockpiling" = Normal "Unknown") by discriminate.
  apply H.
  - repeat constructor. simpl. tauto.
  - intros k s [E'|[]] _. now inversion E'.
Qed.

Lemma converted_In rb k v :
  In (k, v) (converted rb) <-> exists s, In (k, s) (nonError rb) /\ v = balanceOf s.
Proof.
  unfold converted. rewrite in_map_iff. split.
  - intros ([k' s] & E & Hin). inversion E; subst. now exists s.
  - intros (s & Hin & ->). now exists (k, s).
Qed.

Lemma head_atTop rb top v rest :
  Permutation (converted rb) ((top, v) :: rest) ->
  StronglySorted (fun a b => snd b <= snd a) ((top, v) :: rest) ->
  atTop rb top.
Proof.
  intros Hp Hs.
  assert (Hin : In (top, v) (converted rb)).
  { eapply Permutation_in; [apply Permutation_sym; exact Hp|now left]. }
  apply converted_In in Hin. destruct Hin as (s & Hin & ->).
  exists s. split; [exact Hin|]. intros k' s' Hin'.
  assert (H' : In (k', balanceOf s') ((top, balanceOf s) :: rest)).
  { eapply Permutation_in; [exact Hp|]. apply converted_In. now exists s'. }
  apply StronglySorted_inv in Hs. destruct Hs as [_ Hall].
  destruct H' as [E|H']; [inversion E; lia|].
  rewrite Forall_forall in Hall. apply (Hall _ H').
Qed.

Lemma nonError_Permutation rb1 rb2 :
  Permutation rb1 rb2 -> Permutation (nonError rb1) (nonError rb2).
Proof.
  induction 1; unfold nonError in *; simpl.
  - constructor.
  - destruct (negb _); [now constructor|assumption].
  - destruct (negb (String.eqb (snd y) "Error")), (negb (String.eqb (snd x) "Error"));
      try reflexivity. apply perm_swap.
  - etransitivity; eassumption.
Qed.

Lemma atTop_Permutation rb1 rb2 k :
  Permutation rb1 rb2 -> atTop rb2 k -> atTop rb1 k.
Proof.
  intros Hp (s & Hin & Hmax).
  pose proof (nonError_Permutation _ _ Hp) as Hq.
  exists s. split.
  - eapply Permutation_in; [apply Permutation_sym; exact Hq|exact Hin].
  - intros k' s' Hin'. apply (Hmax k' s').
    eapply Permutation_in; [exact Hq|exact Hin'].
Qed.

(** C5, as the code has it.  Two orderings of the same entries get the
    same label whenever the largest non-error balance is held by a single
    resource (or there is no non-error entry). *)
Theorem analyzeResourceFocus_order_independent rb1 rb2 :
  NoDup (keys rb1) ->
  Permutation rb1 rb2 ->
  noTopTie rb1 ->
  analyzeResourceFocus rb1 = analyzeResourceFocus rb2.
Proof.
  intros Hnd Hp Htie.
  assert (Hnd2 : NoDup (keys rb2)).
  { eapply Permutation_NoDup; [|exact Hnd]. now apply Permutation_map. }
  assert (Hc : Permutation (converted rb1) (converted rb2)).
  { unfold converted. now apply Permutation_map, nonError_Permutation. }
  destruct (analyzeResourceFocus_sorted rb1 Hnd) as (s1 & Hp1 & Hs1 & E1).
  destruct (analyzeResourceFocus_sorted rb2 Hnd2) as (s2 & Hp2 & Hs2 & E2).
  rewrite E1, E2. f_equal.
  assert (Hs12 : Permutation s1 s2).
  { rewrite <- Hp1, <- Hp2. exact Hc. }
  destruct s1 as [|[t1 v1] r1].
  - apply Permutation_nil in Hs12. now subst.
  - destruct s2 as [|[t2 v2] r2].
    + apply Permutation_sym, Permutation_nil in Hs12. discriminate.
    + assert (Et : t1 = t2).
      { apply Htie.
        - eapply head_atTop; eassumption.
        - apply (atTop_Permutation rb1 rb2 t2 Hp). eapply head_atTop; eassumption. }
      subst t2. f_equal. apply get_Permutation; [|exact Hc].
      rewrite keys_converted. now apply keys_nonError.
Qed.

Lemma analyzeResourceFocus_order_independent_witness :
  analyzeResourceFocus [("carbon", "3"); ("graphene", "5"); ("yttrium", "Error")] =
  analyzeResourceFocus [("yttrium", "Error"); ("graphene", "5"); ("carbon", "3")].
Proof.
  apply analyzeResourceFocus_order_independent.
  - repeat constructor; simpl; intuition discriminate.
  - apply Permutation_rev.
  - assert (Hg : forall k, atTop [("carbon", "3"); ("graphene", "5"); ("yttrium", "Error")] k ->
                           k = "graphene").
    { intros k (s & Hin & Hmax). simpl in Hin.
      destruct Hin as [E|[E|[]]]; inversion E; subst; [|reflexivity].
      specialize (Hmax "graphene" "5" (or_intror (or_introl eq_refl))).
      vm_compute in Hmax. now exfalso. }
    intros k1 k2 H1 H2. now rewrite (Hg k1 H1), (Hg k2 H2).
Defined.

(** C5 as stated fails: with two equal largest balances the label follows
    the iteration order. *)
Lemma analyzeResourceFocus_order_dependent :
  ~ (forall rb1 rb2, NoDup (keys rb1) -> Permutation rb1 rb2 ->
                     analyzeResourceFocus rb1 = analyzeResourceFocus rb2).
Proof.
  intros H.
  specialize (H [("carbon", "5"); ("graphene", "5")] [("graphene", "5"); ("carbon", "5")]).
  assert (E1 : analyzeResourceFocus [("carbon", "5"); ("graphene", "5")] =
               Normal "Carbon Stockpiling") by reflexivity.
  assert (E2 : analyzeResourceFocus [("graphene", "5"); ("carbon", "5")] =
               Normal "Graphene Path Focus") by reflexivity.
  rewrite E1, E2 in H.
  enough (Normal "Carbon Stockpiling" = Normal "Graphene Path Focus") by discriminate.
  apply H.
  - repeat constructor; simpl; intuition discriminate.
  - apply perm_swap.
Qed.

(** ** Address categories *)

Section AddressFacts.

Variable contractAddresses : ContractCategory -> option (Dict string).

Lemma isAddressOfType_named a c t :
  isAddressOfType contractAddresses (Str a) c (Str t) =
  Normal (if truthy (Str t) then addressIs contractAddresses c a t
          else match contractAddresses c with
               | None => false
               | Some ca =>
                   existsb (fun kv => truthy (Str (snd kv)) &&
                                      String.eqb (toLowerCase (snd kv)) (toLowerCase a)) ca
               end).
Proof.
  unfold isAddressOfType, addressIs.
  destruct (contractAddresses c) as [ca|]; simpl; [|now destruct t].
  destruct t as [|ch t]; simpl; [reflexivity|].
  unfold getStr. destruct (get ca (String ch t)) as [ta|]; simpl; [|reflexivity].
  reflexivity.
Qed.

End AddressFacts.

(** ** Loops over counters *)

Lemma countIf_cons {X} (p : X -> bool) x l :
  countIf p (x :: l) = (if p x then 1 else 0) + countIf p l.
Proof.
  unfold countIf. simpl. destruct (p x); simpl List.length; lia.
Qed.

Lemma countIf_nonneg {X} (p : X -> bool) l : 0 <= countIf p l.
Proof. unfold countIf. lia. Qed.

(** A loop that adds [w] to either counter of a pair when its test holds. *)
Lemma score_loop {X} (pa pb : X -> bool) (w : Z) (body : Z * Z -> X -> completion (Z * Z))
    items :
  (forall g y x, In x items ->
     body (g, y) x = Normal (if pa x then g + w else g, if pb x then y + w else y)) ->
  forall g y,
    forOf items body (g, y) =
    Normal (g + w * countIf pa items, y + w * countIf pb items).
Proof.
  induction items as [|x items IH]; intros Hb g y.
  - simpl. f_equal. unfold countIf. simpl. f_equal; lia.
  - simpl. rewrite Hb by now left. cbn [bind].
    rewrite IH by (intros; apply Hb; now right).
    rewrite !countIf_cons. f_equal.
    destruct (pa x), (pb x); f_equal; lia.
Qed.

(** ** Path preference *)

Section PathPreference.

Variable contractAddresses : ContractCategory -> option (Dict string).

Lemma isAddressOfType_name a c ch t :
  isAddressOfType contractAddresses (Str a) c (Str (String ch t)) =
  Normal (addressIs contractAddresses c a (String ch t)).
Proof. now rewrite isAddressOfType_named. Qed.

Lemma isAddressOfType_not_a_string a c t :
  (forall x, a <> Str x) ->
  isAddressOfType contractAddresses a c t = Normal false.
Proof.
  intros H. unfold isAddressOfType.
  destruct (contractAddresses c); [|reflexivity].
  destruct a as [| |x]; [reflexivity|reflexivity|now destruct (H x)].
Qed.

Lemma iterate_wellFormed r :
  wellFormed r = true ->
  iterate (fieldOrEmpty r) = Normal (positionsIn r) /\
  forall p, In p (positionsIn r) -> exists a, p = PObject a.
Proof.
  unfold wellFormed, positionsIn.
  destruct (fieldOrEmpty r) as [|items|]; try discriminate.
  intros H. split; [reflexivity|].
  intros p Hp. rewrite forallb_forall in H. specialize (H p Hp).
  destruct p; [discriminate|eauto].
Qed.

(** C3. On inputs that raise no internal fault, [analyzePathPreference]
    scores each path with +1 per held resource of the path, +2 per liquidity
    position on a pair of the path and +3 per stake position on a reactor of
    the path, and reads the label off the two scores. *)
Theorem analyzePathPreference_scores rb lp sp :
  wellFormed lp = true ->
  wellFormed sp = true ->
  let a := scoreA contractAddresses rb lp sp in
  let b := scoreB contractAddresses rb lp sp in
  exists label,
    analyzePathPreference contractAddresses rb lp sp = Normal label /\
    (a > 2 * b -> label = "Strong Graphene Path Preference") /\
    (a > b -> a <= 2 * b -> label = "Moderate Graphene Path Preference") /\
    (b > 2 * a -> label = "Strong Yttrium Path Preference") /\
    (b > a -> b <= 2 * a -> label = "Moderate Yttrium Path Preference") /\
    (a = b -> label = "Balanced Path Approach").
Proof.
  intros Hlp Hsp a b.
  destruct (iterate_wellFormed lp Hlp) as [Elp Olp].
  destruct (iterate_wellFormed sp Hsp) as [Esp Osp].
  unfold analyzePathPreference. rewrite Elp, Esp.
  erewrite (score_loop (held graphenePathResources) (held yttriumPathResources) 1).
  2:{ intros g y [k s] _. unfold held. cbn [fst snd].
      destruct (String.eqb s "Error"); [reflexivity|].
      rewrite safeBigIntConversion_balanceOf. cbn [bind negb andb].
      destruct (balanceOf s =? 0); [reflexivity|]. reflexivity. }
  cbn [bind].
  erewrite (score_loop (onPath contractAddresses lpPairs graphenePairs)
                       (onPath contractAddresses lpPairs yttriumPairs) 2).
  2:{ intros g y p Hp. destruct (Olp p Hp) as [addr ->].
      cbn [addressOf bind].
      destruct addr as [| |x];
        [rewrite !isAddressOfType_not_a_string by discriminate; reflexivity..|].
      rewrite !isAddressOfType_name.
      unfold onPath, belongsTo, graphenePairs, yttriumPairs. cbn [existsb orElse bind].
      destruct (addressIs contractAddresses lpPairs x "carbon"),
               (addressIs contractAddresses lpPairs x "graphite"),
               (addressIs contractAddresses lpPairs x "graphene"),
               (addressIs contractAddresses lpPairs x "neodymium"),
               (addressIs contractAddresses lpPairs x "dysprosium"),
               (addressIs contractAddresses lpPairs x "yttrium"); reflexivity. }
  cbn [bind].
  erewrite (score_loop (onPath contractAddresses reactors grapheneReactors)
                       (onPath contractAddresses reactors yttriumReactors) 3).
  2:{ intros g y p Hp. destruct (Osp p Hp) as [addr ->].
      cbn [addressOf bind].
      destruct addr as [| |x];
        [rewrite !isAddressOfType_not_a_string by discriminate; reflexivity..|].
      rewrite !isAddressOfType_name.
      unfold onPath, belongsTo, grapheneReactors, yttriumReactors.
      cbn [existsb orElse bind].
      destruct (addressIs contractAddresses reactors x "grp"),
               (addressIs contractAddresses reactors x "gph"),
               (addressIs contractAddresses reactors x "dy"),
               (addressIs contractAddresses reactors x "y"); reflexivity. }
  cbn [bind].
  match goal with
  | |- context [if ?g >? ?y * 2 then _ else _] =>
      assert (Ea : g = a)
        by (unfold a, scoreA, pathScore; rewrite Z.add_0_l; reflexivity);
      assert (Eb : y = b)
        by (unfold b, scoreB, pathScore; rewrite Z.add_0_l; reflexivity)
  end.
  assert (Ha : 0 <= a).
  { unfold a, scoreA, pathScore.
    pose proof (countIf_nonneg (held graphenePathResources) rb).
    pose proof (countIf_nonneg (onPath contractAddresses lpPairs graphenePairs)
                  (positionsIn lp)).
    pose proof (countIf_nonneg (onPath contractAddresses reactors grapheneReactors)
                  (positionsIn sp)). lia. }
  assert (Hb : 0 <= b).
  { unfold b, scoreB, pathScore.
    pose proof (countIf_nonneg (held yttriumPathResources) rb).
    pose proof (countIf_nonneg (onPath contractAddresses lpPairs yttriumPairs)
                  (positionsIn lp)).
    pose proof (countIf_nonneg (onPath contractAddresses reactors yttriumReactors)
                  (positionsIn sp)). lia. }
  rewrite Ea, Eb. clearbody a b.
  destruct (Z.gtb_spec a (b * 2)).
  { eexists; split; [reflexivity|]. repeat split; intros; (reflexivity || lia). }
  destruct (Z.gtb_spec a b).
  { eexists; split; [reflexivity|]. repeat split; intros; (reflexivity || lia). }
  destruct (Z.gtb_spec b (a * 2)).
  { eexists; split; [reflexivity|]. repeat split; intros; (reflexivity || lia). }
  destruct (Z.gtb_spec b a).
  { eexists; split; [reflexivity|]. repeat split; intros; (reflexivity || lia). }
  eexists; split; [reflexivity|]. repeat split; intros; (reflexivity || lia).
Qed.

End PathPreference.

Lemma analyzePathPreference_scores_witness :
  analyzePathPreference exampleContracts [("graphene", "5"); ("yttrium", "0")]
    (responseOf ["0xa5"]) RNullish = Normal "Strong Graphene Path Preference".
Proof.
  destruct (analyzePathPreference_scores exampleContracts
              [("graphene", "5"); ("yttrium", "0")] (responseOf ["0xa5"]) RNullish
              eq_refl eq_refl)
    as (label & E & Hstrong & _).
  rewrite E. f_equal. apply Hstrong. vm_compute. reflexivity.
Defined.

(** ** Labels *)

Lemma yields_Normal labels l : In l labels -> yields labels (Normal l).
Proof. exact (fun H => H). Qed.

Lemma yields_bind {A} labels (c : completion A) k :
  (forall a, yields labels (k a)) -> yields labels (bind c k).
Proof. intros H. destruct c; simpl; [apply H|exact I]. Qed.

Lemma tryCatch_yields labels body :
  yields labels body -> In label_AnalysisError labels ->
  exists l, tryCatch body (fun _ => Normal label_AnalysisError) = Normal l /\ In l labels.
Proof.
  intros Hb He. destruct body as [l|e]; simpl in *; eauto.
Qed.

Ltac yields_ladder :=
  repeat match goal with
         | |- yields _ (bind _ _) => apply yields_bind; intros
         | |- yields _ (let '(_, _) := ?p in _) => destruct p
         | |- yields _ (if ?b then _ else _) => destruct b
         | |- yields _ (Normal _) => apply yields_Normal; simpl; tauto
         end.

Lemma focusLabel_In top he3 : In (focusLabel top he3) resourceFocusLabels.
Proof.
  unfold focusLabel, arrayIncludes. cbn [existsb].
  destruct (_ && _); [simpl; tauto|].
  destruct (String.eqb_spec top "graphene") as [->|_]; [simpl; tauto|].
  destruct (String.eqb_spec top "yttrium") as [->|_]; [simpl; tauto|].
  destruct (String.eqb_spec top "carbon") as [->|_]; [simpl; tauto|].
  destruct (String.eqb_spec top "neodymium") as [->|_]; simpl; tauto.
Qed.

Lemma analyzeResourceFocus_label rb :
  exists l, analyzeResourceFocus rb = Normal l /\ In l resourceFocusLabels.
Proof.
  unfold analyzeResourceFocus. apply tryCatch_yields; [|simpl; tauto].
  apply yields_bind. intros balances. apply yields_bind. intros sorted.
  destruct (map fst sorted) as [|top rest]; [apply yields_Normal; simpl; tauto|].
  pose proof (focusLabel_In top (get balances "helium3")) as H.
  unfold focusLabel in H.
  destruct (_ && _); [exact H|].
  destruct (arrayIncludes ["graphene"; "yttrium"] top); [exact H|].
  destruct (arrayIncludes ["carbon"; "neodymium"] top); exact H.
Qed.

Section Labels.

Variable contractAddresses : ContractCategory -> option (Dict string).

Lemma analyzePathPreference_label rb lp sp :
  exists l, analyzePathPreference contractAddresses rb lp sp = Normal l /\
            In l pathPreferenceLabels.
Proof.
  unfold analyzePathPreference. apply tryCatch_yields; [|simpl; tauto].
  yields_ladder.
Qed.

Lemma analyzeLiquidityStrategy_label lp :
  exists l, analyzeLiquidityStrategy contractAddresses lp = Normal l /\
            In l liquidityStrategyLabels.
Proof.
  unfold analyzeLiquidityStrategy. apply tryCatch_yields; [|simpl; tauto].
  cbv zeta. yields_ladder.
Qed.

Lemma analyzeStakingStrategy_label sp :
  exists l, analyzeStakingStrategy contractAddresses sp = Normal l /\
            In l stakingStrategyLabels.
Proof.
  unfold analyzeStakingStrategy. apply tryCatch_yields; [|simpl; tauto].
  cbv zeta. yields_ladder.
Qed.

End Labels.

(** ** Overall strategy *)

Lemma hasResource_positive rb name :
  hasResource rb name = Normal (resourceBalance rb name >? 0).
Proof.
  unfold hasResource, resourceBalance, getStr.
  destruct (get rb name) as [s|]; [|reflexivity].
  destruct s as [|c s]; [reflexivity|].
  cbn [truthy]. now rewrite safeBigIntConversion_balanceOf.
Qed.

Lemma lengthIsPositive_count lp :
  lengthIsPositive (fieldOrEmpty lp) = (positionCount lp >? 0).
Proof. destruct lp as [|[| |]]; reflexivity. Qed.

Lemma thresholds :
  endGameThreshold = 800000 * 10 ^ 18 /\ lateGameThreshold = 500000 * 10 ^ 18.
Proof. split; reflexivity. Qed.

Lemma determineOverallStrategy_ladder rb lp sp he3Balance :
  determineOverallStrategy rb lp sp he3Balance =
  Normal (stage (balanceOf he3Balance)
                (resourceBalance rb "graphene" >? 0)
                (resourceBalance rb "yttrium" >? 0)
                (positionCount lp >? 0)).
Proof.
  unfold determineOverallStrategy, stage.
  rewrite safeBigIntConversion_balanceOf. cbn [bind].
  destruct thresholds as [-> ->].
  destruct (balanceOf he3Balance >? 800000 * 10 ^ 18); [reflexivity|].
  destruct (balanceOf he3Balance >? 500000 * 10 ^ 18); [reflexivity|].
  rewrite !hasResource_positive. cbn [bind].
  rewrite lengthIsPositive_count.
  destruct (resourceBalance rb "graphene" >? 0),
           (resourceBalance rb "yttrium" >? 0),
           (positionCount lp >? 0); reflexivity.
Qed.

(** C4. [determineOverallStrategy] applies the seven stage rules in order,
    first match wins, on thresholds 800000 x 10^18 and 500000 x 10^18, the
    late one below the end one. *)
Theorem determineOverallStrategy_stage rb lp sp he3Balance :
  determineOverallStrategy rb lp sp he3Balance =
  Normal (stage (balanceOf he3Balance)
                (resourceBalance rb "graphene" >? 0)
                (resourceBalance rb "yttrium" >? 0)
                (positionCount lp >? 0)) /\
  endGameThreshold = 800000 * 10 ^ 18 /\
  lateGameThreshold = 500000 * 10 ^ 18 /\
  lateGameThreshold < endGameThreshold.
Proof.
  split; [apply determineOverallStrategy_ladder|].
  repeat split.
Qed.

Lemma determineOverallStrategy_label rb lp sp he3Balance :
  exists l, determineOverallStrategy rb lp sp he3Balance = Normal l /\
            In l overallStrategyLabels.
Proof.
  unfold determineOverallStrategy. apply tryCatch_yields; [|simpl; tauto].
  cbv zeta. yields_ladder.
Qed.

(** ** Internal faults

    The faults the classifiers can meet on the positions they are given:
    the TypeError of reading the address of a [null] position, and the
    TypeError of iterating a value that is not iterable. *)

Lemma wellFormed_false r :
  wellFormed r = false <->
  r = RObject FNotIterable \/
  exists items, r = RObject (FArray items) /\ In PNullish items.
Proof.
  unfold wellFormed. split.
  - destruct r as [|[|items|]]; cbn [fieldOrEmpty]; try discriminate.
    + intros H. right. exists items. split; [reflexivity|].
      induction items as [|[|a] items IH]; simpl in H;
        [discriminate|now left|right; auto].
    + now left.
  - intros [->|(items & -> & Hin)]; [reflexivity|]. cbn [fieldOrEmpty].
    induction items as [|x items IH]; [contradiction|].
    destruct Hin as [->|Hin]; [reflexivity|].
    simpl. rewrite IH by exact Hin. apply andb_false_r.
Qed.

Lemma returns_bind {A B} (c : completion A) (k : A -> completion B) :
  returns c -> (forall a, returns (k a)) -> returns (bind c k).
Proof. intros [a ->] H. apply H. Qed.

Lemma orElse_returns a b : returns a -> returns b -> returns (orElse a b).
Proof.
  intros Ha Hb. apply returns_bind; [exact Ha|].
  intros []; [apply returns_Normal|exact Hb].
Qed.

Lemma andAlso_returns a b : returns a -> returns b -> returns (andAlso a b).
Proof.
  intros Ha Hb. apply returns_bind; [exact Ha|].
  intros []; [exact Hb|apply returns_Normal].
Qed.

Lemma notM_returns a : returns a -> returns (notM a).
Proof. intros Ha. apply returns_bind; [exact Ha|]. intros; apply returns_Normal. Qed.

Lemma isAddressOfType_returns contractAddresses a c t :
  returns (isAddressOfType contractAddresses a c t).
Proof. apply tryCatch_total. Qed.

Ltac returns_ladder :=
  repeat first
    [ apply returns_Normal
    | apply isAddressOfType_returns
    | apply safeBigIntConversion_returns
    | apply orElse_returns
    | apply andAlso_returns
    | apply notM_returns
    | apply returns_bind; [|intros]
    | match goal with
      | |- returns (if ?b then _ else _) => destruct b
      | |- returns (let '(_, _) := ?p in _) => destruct p
      end ].

Lemma forOf_total {X S} (body : S -> X -> completion S) items :
  (forall s x, In x items -> returns (body s x)) ->
  forall s, returns (forOf items body s).
Proof.
  induction items as [|x items IH]; intros Hb s; simpl; [apply returns_Normal|].
  apply returns_bind; [apply Hb; now left|].
  intros s'. apply IH. intros; apply Hb; now right.
Qed.

(** A loop over positions stops with the TypeError at the first [null]. *)
Lemma forOf_nullish {S} (body : S -> Position -> completion S) items :
  (forall s, exists e, body s PNullish = Throw e) ->
  forallb isObject items = false ->
  forall s, exists e, forOf items body s = Throw e.
Proof.
  intros Hb. induction items as [|x items IH]; intros H s; [discriminate|].
  simpl in *. destruct x as [|a]; simpl in H.
  - destruct (Hb s) as [e ->]. simpl. eauto.
  - destruct (body s (PObject a)) as [s'|e]; simpl; eauto.
Qed.

(** [for (const x of response.field || []) body], followed by [k]: it
    reaches [k] on a well-formed response and throws on any other. *)
Lemma positions_reach {S B} r (body : S -> Position -> completion S) s
    (k : S -> completion B) :
  wellFormed r = true ->
  (forall s a, returns (body s (PObject a))) ->
  exists s',
    (positions <- iterate (fieldOrEmpty r) ;; s2 <- forOf positions body s ;; k s2) =
    k s'.
Proof.
  intros W Hb. destruct (iterate_wellFormed r W) as [-> Hobj]. cbn [bind].
  assert (R : returns (forOf (positionsIn r) body s)).
  { apply forOf_total. intros s0 x Hin. destruct (Hobj x Hin) as [a ->]. apply Hb. }
  destruct R as [s' ->]. now exists s'.
Qed.

Lemma positions_fault {S B} r (body : S -> Position -> completion S) s
    (k : S -> completion B) :
  wellFormed r = false ->
  (forall s, exists e, body s PNullish = Throw e) ->
  exists e,
    (positions <- iterate (fieldOrEmpty r) ;; s2 <- forOf positions body s ;; k s2) =
    Throw e.
Proof.
  unfold wellFormed. intros W Hb.
  destruct (fieldOrEmpty r) as [|items|]; cbn [iterate bind]; eauto.
  destruct (forOf_nullish body items Hb W s) as [e ->]. simpl. eauto.
Qed.

Lemma lengthIsZero_fault r :
  wellFormed r = false -> lengthIsZero (fieldOrEmpty r) = false.
Proof.
  unfold wellFormed, lengthIsZero.
  destruct (fieldOrEmpty r) as [|[|x items]|]; try reflexivity; discriminate.
Qed.

Ltac nullish_throws :=
  let s := fresh "s" in
  intros s;
  repeat match goal with
         | x : (_ * _)%type |- _ => destruct x
         end;
  eexists; reflexivity.

Lemma focusLabel_not_fault top he3 : focusLabel top he3 <> label_AnalysisError.
Proof.
  unfold focusLabel, arrayIncludes. cbn [existsb].
  destruct (_ && _); [discriminate|].
  destruct (String.eqb_spec top "graphene") as [->|_]; [discriminate|].
  destruct (String.eqb_spec top "yttrium") as [->|_]; [discriminate|].
  destruct (String.eqb_spec top "carbon") as [->|_]; [discriminate|].
  destruct (String.eqb_spec top "neodymium") as [->|_]; discriminate.
Qed.

(** The [try] block of [analyzeResourceFocus] meets no fault. *)
Lemma analyzeResourceFocus_no_fault rb :
  analyzeResourceFocus rb <> Normal label_AnalysisError.
Proof.
  unfold analyzeResourceFocus.
  match goal with
  | |- context [forOf rb ?body ?s0] =>
      assert (R : returns (forOf rb body s0))
        by (apply forOf_total; intros s [resource balance] _; returns_ladder);
      destruct R as [balances ->]
  end.
  cbn [bind].
  destruct (sort_spec byBalanceDesc snd balances) as (sorted & -> & _ & _).
  { intros; apply byBalanceDesc_descending. }
  cbn [bind]. destruct (map fst sorted) as [|top rest]; [discriminate|].
  pose proof (focusLabel_not_fault top (get balances "helium3")) as H.
  unfold focusLabel in H.
  destruct (_ && _); [cbn [tryCatch]; congruence|].
  destruct (arrayIncludes ["graphene"; "yttrium"] top); [cbn [tryCatch]; congruence|].
  destruct (arrayIncludes ["carbon"; "neodymium"] top); cbn [tryCatch]; congruence.
Qed.

Lemma determineOverallStrategy_no_fault rb lp sp he3Balance :
  determineOverallStrategy rb lp sp he3Balance <> Normal label_AnalysisError.
Proof.
  rewrite determineOverallStrategy_ladder. unfold stage.
  destruct (_ >? _); [discriminate|]. destruct (_ >? _); [discriminate|].
  destruct (_ >? _), (_ >? _), (_ >? _); discriminate.
Qed.

Section Faults.

Variable contractAddresses : ContractCategory -> option (Dict string).

(** [analyzeLiquidityStrategy] answers "Analysis Error" exactly on the
    responses that make its loop fault. *)
Lemma analyzeLiquidityStrategy_fault lp :
  analyzeLiquidityStrategy contractAddresses lp = Normal label_AnalysisError <->
  wellFormed lp = false.
Proof.
  unfold analyzeLiquidityStrategy. cbv zeta.
  destruct (wellFormed lp) eqn:W.
  - split; [|discriminate]. intros H. exfalso. revert H.
    destruct (lengthIsZero (fieldOrEmpty lp)); [discriminate|].
    match goal with
    | |- context [bind (iterate _) (fun items => bind (forOf items ?body ?s) ?k)] =>
        destruct (positions_reach lp body s k W) as [[[b i] a] ->]
    end.
    { intros s a. returns_ladder. }
    destruct (_ && _); [discriminate|].
    destruct (_ >? _); [discriminate|]. destruct (_ >? _); discriminate.
  - split; [reflexivity|intros _].
    rewrite (lengthIsZero_fault lp W).
    match goal with
    | |- context [bind (iterate _) (fun items => bind (forOf items ?body ?s) ?k)] =>
        destruct (positions_fault lp body s k W) as [e ->]
    end.
    { nullish_throws. }
    reflexivity.
Qed.

Lemma analyzeStakingStrategy_fault sp :
  analyzeStakingStrategy contractAddresses sp = Normal label_AnalysisError <->
  wellFormed sp = false.
Proof.
  unfold analyzeStakingStrategy. cbv zeta.
  destruct (wellFormed sp) eqn:W.
  - split; [|discriminate]. intros H. exfalso. revert H.
    destruct (lengthIsZero (fieldOrEmpty sp)); [discriminate|].
    match goal with
    | |- context [bind (iterate _) (fun items => bind (forOf items ?body ?s) ?k)] =>
        destruct (positions_reach sp body s k W) as [[[[b i] a] h] ->]
    end.
    { intros s a. returns_ladder. }
    destruct (_ >? _); [discriminate|].
    destruct (_ && _); [discriminate|].
    destruct (_ >? _); [discriminate|]. destruct (_ >? _); discriminate.
  - split; [reflexivity|intros _].
    rewrite (lengthIsZero_fault sp W).
    match goal with
    | |- context [bind (iterate _) (fun items => bind (forOf items ?body ?s) ?k)] =>
        destruct (positions_fault sp body s k W) as [e ->]
    end.
    { nullish_throws. }
    reflexivity.
Qed.

(** [analyzePathPreference] goes through both lists of positions: it
    answers "Analysis Error" exactly when one of them makes its loop fault. *)
Lemma analyzePathPreference_fault rb lp sp :
  analyzePathPreference contractAddresses rb lp sp = Normal label_AnalysisError <->
  wellFormed lp = false \/ wellFormed sp = false.
Proof.
  unfold analyzePathPreference.
  match goal with
  | |- context [forOf rb ?body ?s0] =>
      assert (R : returns (forOf rb body s0))
        by (apply forOf_total; intros s [resource balance] _; returns_ladder);
      destruct R as [s1 ->]
  end.
  cbn [bind].
  destruct (wellFormed lp) eqn:Wl.
  - match goal with
    | |- context [bind (iterate _) (fun items => bind (forOf items ?body ?s) ?k)] =>
        destruct (positions_reach lp body s k Wl) as [s2 ->]
    end.
    { intros s a. returns_ladder. }
    destruct (wellFormed sp) eqn:Ws.
    + split; [|intros [|]; discriminate]. intros H. exfalso. revert H.
      match goal with
      | |- context [bind (iterate _) (fun items => bind (forOf items ?body ?s) ?k)] =>
          destruct (positions_reach sp body s k Ws) as [[g y] ->]
      end.
      { intros s a. returns_ladder. }
      repeat (destruct (_ >? _); [discriminate|]). discriminate.
    + split; [now right|intros _].
      match goal with
      | |- context [bind (iterate _) (fun items => bind (forOf items ?body ?s) ?k)] =>
          destruct (positions_fault sp body s k Ws) as [e ->]
      end.
      { nullish_throws. }
      reflexivity.
  - split; [now left|intros _].
    match goal with
    | |- context [bind (iterate _) (fun items => bind (forOf items ?body ?s) ?k)] =>
        destruct (positions_fault lp body s k Wl) as [e ->]
    end.
    { nullish_throws. }
    reflexivity.
Qed.

End Faults.

(** C7. Each classifier returns, for every input, a label of its label set,
    and nothing is thrown past it.  An internal fault gives "Analysis
    Error": the faults are the TypeError of reading the address of a null
    position, wherever it stands in the array, and of iterating a value that
    is not iterable.  [analyzeLiquidityStrategy] and
    [analyzeStakingStrategy] answer "Analysis Error" exactly when their
    positions raise one, [analyzePathPreference] exactly when either of its
    two lists of positions does; [analyzeResourceFocus] and
    [determineOverallStrategy] meet no fault and never answer it. *)
Theorem classifiers_total contractAddresses rb lp sp he3Balance :
  (exists l, analyzeResourceFocus rb = Normal l /\ In l resourceFocusLabels) /\
  (exists l, analyzePathPreference contractAddresses rb lp sp = Normal l /\
             In l pathPreferenceLabels) /\
  (exists l, analyzeLiquidityStrategy contractAddresses lp = Normal l /\
             In l liquidityStrategyLabels) /\
  (exists l, analyzeStakingStrategy contractAddresses sp = Normal l /\
             In l stakingStrategyLabels) /\
  (exists l, determineOverallStrategy rb lp sp he3Balance = Normal l /\
             In l overallStrategyLabels) /\
  (forall r,
     wellFormed r = false <->
     r = RObject FNotIterable \/
     exists items, r = RObject (FArray items) /\ In PNullish items) /\
  (analyzePathPreference contractAddresses rb lp sp = Normal "Analysis Error" <->
   wellFormed lp = false \/ wellFormed sp = false) /\
  (analyzeLiquidityStrategy contractAddresses lp = Normal "Analysis Error" <->
   wellFormed lp = false) /\
  (analyzeStakingStrategy contractAddresses sp = Normal "Analysis Error" <->
   wellFormed sp = false) /\
  analyzeResourceFocus rb <> Normal "Analysis Error" /\
  determineOverallStrategy rb lp sp he3Balance <> Normal "Analysis Error".
Proof.
  split; [apply analyzeResourceFocus_label|].
  split; [apply analyzePathPreference_label|].
  split; [apply analyzeLiquidityStrategy_label|].
  split; [apply analyzeStakingStrategy_label|].
  split; [apply determineOverallStrategy_label|].
  split; [exact wellFormed_false|].
  split; [apply analyzePathPreference_fault|].
  split; [apply analyzeLiquidityStrategy_fault|].
  split; [apply analyzeStakingStrategy_fault|].
  split; [apply analyzeResourceFocus_no_fault|apply determineOverallStrategy_no_fault].
Qed.

Lemma classifiers_total_witness :
  analyzePathPreference exampleContracts [("carbon", "3")]
    (RObject (FArray [PObject (Str "0xa5"); PNullish])) RNullish =
  Normal "Analysis Error" /\
  analyzeLiquidityStrategy exampleContracts
    (RObject (FArray [PObject (Str "0xa5"); PNullish])) =
  Normal "Analysis Error" /\
  analyzeStakingStrategy exampleContracts (RObject FNotIterable) =
  Normal "Analysis Error".
Proof.
  pose proof (classifiers_total exampleContracts [("carbon", "3")]
                (RObject (FArray [PObject (Str "0xa5"); PNullish]))
                (RObject FNotIterable) "12")
    as (_ & _ & _ & _ & _ & _ & Hpp & Hls & Hss & _).
  split; [|split].
  - pose proof (classifiers_total exampleContracts [("carbon", "3")]
                  (RObject (FArray [PObject (Str "0xa5"); PNullish]))
                  RNullish "12")
      as (_ & _ & _ & _ & _ & _ & Hpp' & _).
    apply (proj2 Hpp'). left. reflexivity.
  - apply (proj2 Hls). reflexivity.
  - apply (proj2 Hss). reflexivity.
Defined.

(** ** Counter-strategies *)

Section CounterStrategies.

Variable contractAddresses : ContractCategory -> option (Dict string).

(** Below the late-game threshold the suggestions start with one of the
    three path-driven sentences. *)
Lemma suggestCounterStrategies_stages rb lp sp he3Balance :
  exists strategies,
    suggestCounterStrategies contractAddresses rb lp sp he3Balance = Normal strategies /\
    if balanceOf he3Balance >? endGameThreshold then strategies = endGameCounters
    else if balanceOf he3Balance >? lateGameThreshold then strategies = lateGameCounters
    else exists first rest,
        strategies = first :: rest /\
        In first ["Focus on Yttrium path to avoid competition";
                  "Focus on Graphene path to avoid competition";
                  "Specialize in one path for efficiency"].
Proof.
  unfold suggestCounterStrategies.
  rewrite safeBigIntConversion_balanceOf. cbn [bind].
  destruct (balanceOf he3Balance >? endGameThreshold); [eexists; split; reflexivity|].
  destruct (balanceOf he3Balance >? lateGameThreshold); [eexists; split; reflexivity|].
  destruct (analyzePathPreference_label contractAddresses rb lp sp) as (pp & -> & _).
  destruct (analyzeLiquidityStrategy_label contractAddresses lp) as (ls & -> & _).
  cbn [bind tryCatch].
  eexists. split; [reflexivity|].
  destruct (includes pp "Graphene"), (includes pp "Yttrium"),
           (includes ls "Base Resource"), (includes ls "Advanced Resource");
    cbn [push app]; do 2 eexists; (split; [reflexivity|]); simpl; tauto.
Qed.

(** C10. Both functions branch on the same thresholds:
    [determineOverallStrategy] gives the end-game label exactly when
    [suggestCounterStrategies] gives the two end-game suggestions, and the
    late-game label exactly when it gives the two late-game suggestions. *)
Theorem stage_and_counter_strategies_agree rb lp sp he3Balance :
  (determineOverallStrategy rb lp sp he3Balance =
     Normal "End Game - Final He3 Accumulation" <->
   suggestCounterStrategies contractAddresses rb lp sp he3Balance =
     Normal ["Accelerate He3 production to catch up";
             "Focus exclusively on He3 single staking"]) /\
  (determineOverallStrategy rb lp sp he3Balance =
     Normal "Late Game - He3 Acceleration" <->
   suggestCounterStrategies contractAddresses rb lp sp he3Balance =
     Normal ["Optimize He3 production path";
             "Balance between He3 single staking and GPH-Y liquidity"]).
Proof.
  rewrite determineOverallStrategy_ladder.
  destruct (suggestCounterStrategies_stages rb lp sp he3Balance) as (st & -> & Hst).
  unfold stage. destruct thresholds as [Ee El]. rewrite Ee, El in Hst.
  destruct (balanceOf he3Balance >? 800000 * 10 ^ 18).
  { subst st. split; split; intros H; first [reflexivity | discriminate H]. }
  destruct (balanceOf he3Balance >? 500000 * 10 ^ 18).
  { subst st. split; split; intros H; first [reflexivity | discriminate H]. }
  destruct Hst as (first & rest & -> & Hfirst).
  assert (Hd : forall l : string,
             Normal (A := string) l = Normal "End Game - Final He3 Accumulation" \/
             Normal (A := string) l = Normal "Late Game - He3 Acceleration" ->
             In l ["Mid Game - Dual Path Production"; "Mid Game - Graphene Path Focus";
                   "Mid Game - Yttrium Path Focus"; "Early Game - Resource Conversion Setup";
                   "Early Game - Resource Accumulation"] -> False).
  { intros l [E|E] Hin; inversion E; subst; simpl in Hin;
      repeat (destruct Hin as [Hin|Hin]; [discriminate Hin|]); exact Hin. }
  assert (Hin : In (if (resourceBalance rb "graphene" >? 0) && (resourceBalance rb "yttrium" >? 0)
                    then "Mid Game - Dual Path Production"
                    else if (resourceBalance rb "graphene" >? 0) &&
                            negb (resourceBalance rb "yttrium" >? 0)
                    then "Mid Game - Graphene Path Focus"
                    else if (resourceBalance rb "yttrium" >? 0) &&
                            negb (resourceBalance rb "graphene" >? 0)
                    then "Mid Game - Yttrium Path Focus"
                    else if positionCount lp >? 0
                    then "Early Game - Resource Conversion Setup"
                    else "Early Game - Resource Accumulation")
                   ["Mid Game - Dual Path Production"; "Mid Game - Graphene Path Focus";
                    "Mid Game - Yttrium Path Focus"; "Early Game - Resource Conversion Setup";
                    "Early Game - Resource Accumulation"]).
  { destruct (resourceBalance rb "graphene" >? 0), (resourceBalance rb "yttrium" >? 0),
             (positionCount lp >? 0); simpl; tauto. }
  split; split; intros H.
  - exfalso. eapply Hd; [left; exact H|exact Hin].
  - exfalso. inversion H; subst. simpl in Hfirst.
    repeat (destruct Hfirst as [Hfirst|Hfirst]; [discriminate Hfirst|]). exact Hfirst.
  - exfalso. eapply Hd; [right; exact H|exact Hin].
  - exfalso. inversion H; subst. simpl in Hfirst.
    repeat (destruct Hfirst as [Hfirst|Hfirst]; [discriminate Hfirst|]). exact Hfirst.
Qed.

End CounterStrategies.

Lemma stage_and_counter_strategies_agree_witness :
  suggestCounterStrategies exampleContracts [("graphene", "5")] RNullish RNullish
    "900000000000000000000000" =
  Normal ["Accelerate He3 production to catch up";
          "Focus exclusively on He3 single staking"].
Proof.
  apply (proj1 (stage_and_counter_strategies_agree exampleContracts
                  [("graphene", "5")] RNullish RNullish "900000000000000000000000")).
  reflexivity.
Defined.

(** ** Aggregation *)

Lemma get_set_same {V} (o : Dict V) k v : get (set o k v) k = Some v.
Proof.
  induction o as [|[k' v'] o IH]; simpl.
  - now rewrite String.eqb_refl.
  - destruct (String.eqb_spec k k') as [->|Hne]; simpl.
    + now rewrite String.eqb_refl.
    + destruct (String.eqb_spec k k'); [contradiction|exact IH].
Qed.

Lemma get_set_other {V} (o : Dict V) k k' v :
  k <> k' -> get (set o k v) k' = get o k'.
Proof.
  intros Hne. induction o as [|[k0 v0] o IH]; simpl.
  - destruct (String.eqb_spec k' k); [congruence|reflexivity].
  - destruct (String.eqb_spec k k0) as [->|_]; simpl.
    + destruct (String.eqb_spec k' k0); [congruence|reflexivity].
    + now rewrite IH.
Qed.

Lemma get_None_keys {V} (o : Dict V) k : ~ In k (keys o) -> get o k = None.
Proof.
  induction o as [|[k' v'] o IH]; simpl; intros H; [reflexivity|].
  destruct (String.eqb_spec k k') as [->|_]; [tauto|]. apply IH. tauto.
Qed.

Section AggregatorFacts.

Variable F : Analyses.

Lemma analyzeAgent_store acc entry :
  analyzeAgent F acc entry = Normal (store F acc entry).
Proof.
  destruct entry as [id intel]. unfold analyzeAgent, store, recordFor. cbn [fst snd].
  destruct (truthy (error intel)); [reflexivity|].
  now destruct (buildAnalysis F id intel).
Qed.

Lemma forOf_agents ci : forall acc,
  forOf ci (analyzeAgent F) acc = Normal (fold_left (store F) ci acc).
Proof.
  induction ci as [|entry ci IH]; intros acc; simpl; [reflexivity|].
  rewrite analyzeAgent_store. cbn [bind]. apply IH.
Qed.

Lemma get_fold_store ci : forall acc id,
  NoDup (keys ci) ->
  get (fold_left (store F) ci acc) id =
  match get ci id with
  | Some intel =>
      match recordFor F id intel with
      | Some r => Some r
      | None => get acc id
      end
  | None => get acc id
  end.
Proof.
  induction ci as [|[k i] ci IH]; intros acc id Hnd; [reflexivity|].
  inversion Hnd as [|? ? Hk Hnd']; subst.
  cbn [fold_left]. rewrite IH by exact Hnd'. cbn [get].
  destruct (String.eqb_spec id k) as [->|Hne].
  - rewrite (get_None_keys ci k Hk). unfold store. cbn [fst snd].
    destruct (recordFor F k i); [apply get_set_same|reflexivity].
  - assert (E : get (store F acc (k, i)) id = get acc id).
    { unfold store. cbn [fst snd].
      destruct (recordFor F k i); [|reflexivity].
      apply get_set_other. congruence. }
    now rewrite E.
Qed.

Lemma analyzeCompetitorStrategiesWith_records ci :
  NoDup (keys ci) ->
  exists out,
    analyzeCompetitorStrategiesWith F ci = Normal out /\
    forall id,
      get out id =
      match get ci id with
      | Some intel => recordFor F id intel
      | None => None
      end.
Proof.
  intros Hnd. unfold analyzeCompetitorStrategiesWith. rewrite forOf_agents.
  eexists. split; [reflexivity|]. intros id.
  rewrite get_fold_store by exact Hnd.
  destruct (get ci id) as [intel|]; [|reflexivity].
  now destruct (recordFor F id intel).
Qed.

End AggregatorFacts.

Lemma buildAnalysis_classifiers contractAddresses id intel :
  exists rf pp ls ss os cs,
    analyzeResourceFocus (resourceBalances intel) = Normal rf /\
    analyzePathPreference contractAddresses (resourceBalances intel)
      (liquidityPositions intel) (stakePositions intel) = Normal pp /\
    analyzeLiquidityStrategy contractAddresses (liquidityPositions intel) = Normal ls /\
    analyzeStakingStrategy contractAddresses (stakePositions intel) = Normal ss /\
    determineOverallStrategy (resourceBalances intel) (liquidityPositions intel)
      (stakePositions intel) (he3Balance intel) = Normal os /\
    suggestCounterStrategies contractAddresses (resourceBalances intel)
      (liquidityPositions intel) (stakePositions intel) (he3Balance intel) = Normal cs /\
    buildAnalysis (classifiers contractAddresses) id intel =
    Normal {| sa_agentId := id;
              sa_address := address intel;
              sa_he3Balance := he3Balance intel;
              resourceFocus := rf;
              pathPreference := pp;
              liquidityStrategy := ls;
              stakingStrategy := ss;
              overallStrategy := os;
              counterStrategies := cs;
              sa_error := Undefined |}.
Proof.
  destruct (analyzeResourceFocus_label (resourceBalances intel)) as (rf & Erf & _).
  destruct (analyzePathPreference_label contractAddresses (resourceBalances intel)
              (liquidityPositions intel) (stakePositions intel)) as (pp & Epp & _).
  destruct (analyzeLiquidityStrategy_label contractAddresses (liquidityPositions intel))
    as (ls & Els & _).
  destruct (analyzeStakingStrategy_label contractAddresses (stakePositions intel))
    as (ss & Ess & _).
  destruct (determineOverallStrategy_label (resourceBalances intel)
              (liquidityPositions intel) (stakePositions intel) (he3Balance intel))
    as (os & Eos & _).
  destruct (suggestCounterStrategies_stages contractAddresses (resourceBalances intel)
              (liquidityPositions intel) (stakePositions intel) (he3Balance intel))
    as (cs & Ecs & _).
  exists rf, pp, ls, ss, os, cs. repeat (split; [assumption|]).
  unfold buildAnalysis, classifiers. cbn [resourceFocusOf pathPreferenceOf
    liquidityStrategyOf stakingStrategyOf overallStrategyOf counterStrategiesOf].
  rewrite Erf, Epp, Els, Ess, Eos, Ecs. reflexivity.
Qed.

Lemma suggestCounterStrategies_no_fault contractAddresses rb lp sp he3Balance cs :
  suggestCounterStrategies contractAddresses rb lp sp he3Balance = Normal cs ->
  cs <> [label_AnalysisError].
Proof.
  intros E.
  destruct (suggestCounterStrategies_stages contractAddresses rb lp sp he3Balance)
    as (cs' & E' & H).
  rewrite E in E'. injection E' as <-.
  destruct (_ >? _); [subst cs; discriminate|].
  destruct (_ >? _); [subst cs; discriminate|].
  destruct H as (first & rest & -> & Hin). intros [= -> _].
  simpl in Hin. intuition discriminate.
Qed.

(** C8. Fault isolation.

    Over arbitrary analyses, every agent without a truthy [error] gets a
    record that depends on its own entry only: the analysis when the six
    analyses return, and otherwise (a per-agent failure) the record whose
    labels are all "Analysis Error".

    With the classifiers of the module no analysis throws past its own
    [catch], so that every such agent gets its analysis, each field the
    answer of its own classifier on the agent's own data.  A fault of one
    sub-analysis shows as "Analysis Error" in the field of that sub-analysis
    alone: the liquidity field exactly when the liquidity positions fault,
    the staking field exactly when the stake positions fault, the path field
    exactly when either does, and the resource focus, the overall strategy
    and the suggestions never. *)
Theorem analyzeCompetitorStrategies_fault_isolation :
  (forall F ci, NoDup (keys ci) ->
     exists out,
       analyzeCompetitorStrategiesWith F ci = Normal out /\
       forall id intel, In (id, intel) ci -> truthy (error intel) = false ->
         (forall analysis, buildAnalysis F id intel = Normal analysis ->
                           get out id = Some analysis) /\
         (forall e, buildAnalysis F id intel = Throw e ->
                    get out id = Some (analysisErrorRecord id intel e))) /\
  (forall id intel e,
     let r := analysisErrorRecord id intel e in
     resourceFocus r = "Analysis Error" /\ pathPreference r = "Analysis Error" /\
     liquidityStrategy r = "Analysis Error" /\ stakingStrategy r = "Analysis Error" /\
     overallStrategy r = "Analysis Error" /\ counterStrategies r = ["Analysis Error"]) /\
  (forall contractAddresses ci, NoDup (keys ci) ->
     exists out,
       analyzeCompetitorStrategies contractAddresses ci = Normal out /\
       forall id intel, In (id, intel) ci -> truthy (error intel) = false ->
         let rb := resourceBalances intel in
         let lp := liquidityPositions intel in
         let sp := stakePositions intel in
         exists r,
           buildAnalysis (classifiers contractAddresses) id intel = Normal r /\
           get out id = Some r /\
           sa_agentId r = id /\ sa_address r = address intel /\
           sa_he3Balance r = he3Balance intel /\ sa_error r = Undefined /\
           analyzeResourceFocus rb = Normal (resourceFocus r) /\
           analyzePathPreference contractAddresses rb lp sp = Normal (pathPreference r) /\
           analyzeLiquidityStrategy contractAddresses lp = Normal (liquidityStrategy r) /\
           analyzeStakingStrategy contractAddresses sp = Normal (stakingStrategy r) /\
           determineOverallStrategy rb lp sp (he3Balance intel) =
           Normal (overallStrategy r) /\
           suggestCounterStrategies contractAddresses rb lp sp (he3Balance intel) =
           Normal (counterStrategies r) /\
           (liquidityStrategy r = "Analysis Error" <-> wellFormed lp = false) /\
           (stakingStrategy r = "Analysis Error" <-> wellFormed sp = false) /\
           (pathPreference r = "Analysis Error" <->
            wellFormed lp = false \/ wellFormed sp = false) /\
           resourceFocus r <> "Analysis Error" /\
           overallStrategy r <> "Analysis Error" /\
           counterStrategies r <> ["Analysis Error"]).
Proof.
  assert (Hagg : forall F ci, NoDup (keys ci) ->
     exists out,
       analyzeCompetitorStrategiesWith F ci = Normal out /\
       forall id intel, In (id, intel) ci -> truthy (error intel) = false ->
         (forall analysis, buildAnalysis F id intel = Normal analysis ->
                           get out id = Some analysis) /\
         (forall e, buildAnalysis F id intel = Throw e ->
                    get out id = Some (analysisErrorRecord id intel e))).
  { intros F ci Hnd.
    destruct (analyzeCompetitorStrategiesWith_records F ci Hnd) as (out & E & Hget).
    exists out. split; [exact E|]. intros id intel Hin Herr.
    rewrite Hget, (get_In ci id intel Hnd Hin). unfold recordFor. rewrite Herr.
    split; intros ? ->; reflexivity. }
  split; [exact Hagg|]. split.
  - intros id intel e. repeat split.
  - intros contractAddresses ci Hnd.
    destruct (Hagg (classifiers contractAddresses) ci Hnd) as (out & E & Hrec).
    exists out. split; [exact E|]. intros id intel Hin Herr rb lp sp.
    destruct (buildAnalysis_classifiers contractAddresses id intel)
      as (rf & pp & ls & ss & os & cs & Erf & Epp & Els & Ess & Eos & Ecs & Eb).
    fold rb lp sp in Erf, Epp, Els, Ess, Eos, Ecs.
    eexists. split; [exact Eb|].
    split; [exact (proj1 (Hrec id intel Hin Herr) _ Eb)|].
    cbn [sa_agentId sa_address sa_he3Balance sa_error resourceFocus pathPreference
         liquidityStrategy stakingStrategy overallStrategy counterStrategies].
    do 4 (split; [reflexivity|]).
    do 6 (split; [assumption|]).
    split; [|split; [|split; [|split; [|split]]]].
    + rewrite <- (analyzeLiquidityStrategy_fault contractAddresses lp), Els.
      split; [intros ->; reflexivity|intros [= ->]; reflexivity].
    + rewrite <- (analyzeStakingStrategy_fault contractAddresses sp), Ess.
      split; [intros ->; reflexivity|intros [= ->]; reflexivity].
    + rewrite <- (analyzePathPreference_fault contractAddresses rb lp sp), Epp.
      split; [intros ->; reflexivity|intros [= ->]; reflexivity].
    + intros ->. exact (analyzeResourceFocus_no_fault rb Erf).
    + intros ->. exact (determineOverallStrategy_no_fault rb lp sp _ Eos).
    + exact (suggestCounterStrategies_no_fault _ _ _ _ _ _ Ecs).
Qed.

Lemma analyzeCompetitorStrategies_fault_isolation_witness :
  (exists out,
     analyzeCompetitorStrategies exampleContracts
       [("agent-1", nullPositionIntelligence "agent-1");
        ("agent-2", exampleIntelligence "agent-2" [("carbon", "3")] Undefined)] =
     Normal out /\
     option_map liquidityStrategy (get out "agent-1") = Some "Analysis Error" /\
     option_map pathPreference (get out "agent-1") = Some "Analysis Error" /\
     option_map resourceFocus (get out "agent-1") = Some "Carbon Stockpiling" /\
     option_map stakingStrategy (get out "agent-1") = Some "No Staking Positions" /\
     option_map sa_error (get out "agent-1") = Some Undefined /\
     option_map liquidityStrategy (get out "agent-2") =
     Some "Advanced Resource Liquidity Focus") /\
  (exists out,
     analyzeCompetitorStrategiesWith faultyAnalyses
       [("agent-1", exampleIntelligence "agent-1" [] Undefined);
        ("agent-2", exampleIntelligence "agent-2" [("carbon", "3")] Undefined)] =
     Normal out /\
     option_map resourceFocus (get out "agent-1") = Some "Analysis Error" /\
     option_map resourceFocus (get out "agent-2") = Some "Carbon Stockpiling").
Proof.
  destruct analyzeCompetitorStrategies_fault_isolation as (Hagg & _ & Hreal).
  split.
  - destruct (Hreal exampleContracts
                [("agent-1", nullPositionIntelligence "agent-1");
                 ("agent-2", exampleIntelligence "agent-2" [("carbon", "3")] Undefined)])
      as (out & E & Hrec).
    { repeat constructor; simpl; intuition discriminate. }
    exists out. split; [exact E|].
    destruct (Hrec "agent-1" _ (or_introl eq_refl) eq_refl)
      as (r1 & _ & G1 & _ & _ & _ & Herr1 & Hrf1 & _ & _ & Hss1 & _ & _ & Hls1 & _ & Hpp1 & _).
    destruct (Hrec "agent-2" _ (or_intror (or_introl eq_refl)) eq_refl)
      as (r2 & _ & G2 & _ & _ & _ & _ & _ & _ & Hls2 & _).
    rewrite G1, G2. cbn [option_map].
    split; [f_equal; apply (proj2 Hls1); reflexivity|].
    split; [f_equal; apply (proj2 Hpp1); left; reflexivity|].
    split; [f_equal; symmetry; exact (f_equal (fun c => match c with
                                                        | Normal l => l
                                                        | Throw _ => EmptyString
                                                        end) Hrf1)|].
    split; [f_equal; symmetry; exact (f_equal (fun c => match c with
                                                        | Normal l => l
                                                        | Throw _ => EmptyString
                                                        end) Hss1)|].
    split; [f_equal; exact Herr1|].
    f_equal; symmetry; exact (f_equal (fun c => match c with
                                                | Normal l => l
                                                | Throw _ => EmptyString
                                                end) Hls2).
  - destruct (Hagg faultyAnalyses
                [("agent-1", exampleIntelligence "agent-1" [] Undefined);
                 ("agent-2", exampleIntelligence "agent-2" [("carbon", "3")] Undefined)])
      as (out & E & Hrec).
    { repeat constructor; simpl; intuition discriminate. }
    exists out. split; [exact E|]. split.
    + destruct (Hrec "agent-1" _ (or_introl eq_refl) eq_refl) as [_ Hthrow].
      rewrite (Hthrow (Error "no balances") eq_refl). reflexivity.
    + destruct (Hrec "agent-2" _ (or_intror (or_introl eq_refl)) eq_refl) as [Hok _].
      erewrite Hok by (vm_compute; reflexivity). reflexivity.
Defined.

(** C9, as the code has it.  The result holds a record exactly for the
    agents of the input whose [error] is not truthy (absent, or the empty
    string); the agents with a non-empty [error] get none. *)
Theorem analyzeCompetitorStrategies_skips_errors contractAddresses ci :
  NoDup (keys ci) ->
  exists out,
    analyzeCompetitorStrategies contractAddresses ci = Normal out /\
    (forall id intel, In (id, intel) ci ->
       (truthy (error intel) = true -> get out id = None) /\
       (truthy (error intel) = false -> exists r, get out id = Some r)) /\
    (forall id r, get out id = Some r -> In id (keys ci)).
Proof.
  intros Hnd. unfold analyzeCompetitorStrategies.
  destruct (analyzeCompetitorStrategiesWith_records (classifiers contractAddresses) ci Hnd)
    as (out & E & Hget).
  exists out. split; [exact E|]. split.
  - intros id intel Hin. rewrite Hget, (get_In ci id intel Hnd Hin).
    unfold recordFor. split; intros ->; [reflexivity|eauto].
  - intros id r. rewrite Hget. destruct (get ci id) as [intel|] eqn:Eg; [|discriminate].
    intros _. apply get_Some_In in Eg. apply in_map_iff. now exists (id, intel).
Qed.

Lemma analyzeCompetitorStrategies_skips_errors_witness :
  exists out,
    analyzeCompetitorStrategies exampleContracts
      [("agent-1", exampleIntelligence "agent-1" [] (Str "rpc failed"));
       ("agent-2", exampleIntelligence "agent-2" [("carbon", "3")] Undefined)] = Normal out /\
    get out "agent-1" = None /\
    exists r, get out "agent-2" = Some r.
Proof.
  destruct (analyzeCompetitorStrategies_skips_errors exampleContracts
              [("agent-1", exampleIntelligence "agent-1" [] (Str "rpc failed"));
               ("agent-2", exampleIntelligence "agent-2" [("carbon", "3")] Undefined)])
    as (out & E & Hrec & _).
  { repeat constructor; simpl; intuition discriminate. }
  exists out. split; [exact E|]. split.
  - apply (Hrec "agent-1" _ (or_introl eq_refl)). reflexivity.
  - apply (Hrec "agent-2" _ (or_intror (or_introl eq_refl))). reflexivity.
Defined.

(** C9 as stated fails: an agent whose [error] field is defined but empty is
    not skipped. *)
Lemma analyzeCompetitorStrategies_empty_error_kept :
  ~ (forall contractAddresses ci, NoDup (keys ci) ->
       exists out,
         analyzeCompetitorStrategies contractAddresses ci = Normal out /\
         forall id intel, In (id, intel) ci ->
           (error intel <> Undefined -> get out id = None) /\
           (error intel = Undefined -> exists r, get out id = Some r)).
Proof.
  intros H.
  destruct (H exampleContracts [("agent-1", exampleIntelligence "agent-1" [] (Str ""))])
    as (out & E & Hrec).
  { repeat constructor; simpl; tauto. }
  vm_compute in E. inversion E; subst out. clear E.
  destruct (Hrec "agent-1" _ (or_introl eq_refl)) as [Hnone _].
  assert (Hd : error (exampleIntelligence "agent-1" [] (Str "")) <> Undefined)
    by (simpl; discriminate).
  specialize (Hnone Hd). simpl in Hnone. discriminate Hnone.
Qed.

(** ** Ranking *)

Lemma StronglySorted_map {X Y} (f : X -> Y) (R : Y -> Y -> Prop) l :
  StronglySorted R (map f l) -> StronglySorted (fun a b => R (f a) (f b)) l.
Proof.
  induction l as [|x l IH]; simpl; intros H; [constructor|].
  apply StronglySorted_inv in H. destruct H as [Hs Hall].
  constructor; [now apply IH|].
  rewrite Forall_forall in *. intros y Hy. apply Hall. now apply in_map.
Qed.

Section RankingFacts.

Variable contractAddresses : ContractCategory -> option (Dict string).
Variable getTokenBalance : string -> string -> completion Z.

Lemma rankKey_rankedEntry e : rankKey (rankedEntry e) = snd e.
Proof. unfold rankKey, rankedEntry. cbn [ra_he3Balance]. now rewrite StringToBigInt_toString. Qed.

Lemma byHe3Desc_descending l x y :
  In x (map rankedEntry l) -> In y (map rankedEntry l) ->
  descending byHe3Desc rankKey x y.
Proof.
  intros Hx Hy. apply in_map_iff in Hx, Hy.
  destruct Hx as (ex & <- & _). destruct Hy as (ey & <- & _).
  unfold descending, byHe3Desc. rewrite !rankKey_rankedEntry.
  cbn [rankedEntry ra_he3Balance]. rewrite !BigInt_toString. cbn [bind].
  eexists. split; [reflexivity|].
  destruct (Z.gtb_spec (snd ey) (snd ex)); [lia|].
  destruct (Z.ltb_spec (snd ey) (snd ex)); lia.
Qed.

Lemma balances_loop he3Address aa : forall acc,
  forOf aa
    (fun (balances : list RankedAgent) entry =>
       let '(agentId, agentAddress) := entry in
       tryCatch
         (balance <- getTokenBalance he3Address agentAddress ;;
          Normal (push balances
                    {| ra_agentId := agentId;
                       ra_address := agentAddress;
                       ra_he3Balance := bigintToString balance |}))
         (fun _ =>
            Normal (push balances
                      {| ra_agentId := agentId;
                         ra_address := agentAddress;
                         ra_he3Balance := "Error" |})))
    acc = Normal (acc ++ map (balanceEntry getTokenBalance he3Address) aa)%list.
Proof.
  induction aa as [|[id addr] aa IH]; intros acc; simpl.
  - now rewrite app_nil_r.
  - unfold balanceEntry at 1. cbn [fst snd].
    destruct (getTokenBalance he3Address addr); cbn [bind tryCatch];
      rewrite IH; unfold push; now rewrite <- app_assoc.
Qed.

Lemma filter_balances he3Address aa :
  filter (fun agent => negb (String.eqb (ra_he3Balance agent) "Error"))
         (map (balanceEntry getTokenBalance he3Address) aa) =
  map rankedEntry (fetched getTokenBalance he3Address aa).
Proof.
  induction aa as [|[id addr] aa IH]; [reflexivity|].
  unfold fetched in *. cbn [map filter flat_map fst snd].
  set (entry := balanceEntry getTokenBalance he3Address (id, addr)).
  assert (E : entry = balanceEntry getTokenBalance he3Address (id, addr)) by reflexivity.
  clearbody entry. unfold balanceEntry in E. cbn [fst snd] in E.
  destruct (getTokenBalance he3Address addr) as [b|e]; subst entry; cbn [ra_he3Balance].
  - rewrite toString_not_Error. cbn [negb app map]. now rewrite IH.
  - rewrite String.eqb_refl. exact IH.
Qed.

(** C6. With the agent and resource tables in place, [rankAgentsByHe3]
    returns exactly the agents whose balance fetch succeeded, in descending
    order of their balances compared as integers of any size. *)
Theorem rankAgentsByHe3_sorted aa ra he3Address :
  contractAddresses agents = Some aa ->
  contractAddresses resources = Some ra ->
  get ra "helium3" = Some he3Address ->
  he3Address <> "" ->
  exists ranking,
    rankAgentsByHe3 contractAddresses getTokenBalance = Normal (map rankedEntry ranking) /\
    Permutation (fetched getTokenBalance he3Address aa) ranking /\
    StronglySorted (fun x y => snd y <= snd x) ranking.
Proof.
  intros Ha Hr Hg Hne.
  unfold rankAgentsByHe3, getCategoryAddresses, getStr. rewrite Ha, Hr. cbn [bind].
  rewrite Hg. destruct he3Address as [|c a]; [congruence|].
  rewrite (balances_loop (String c a) aa []). cbn [app bind].
  rewrite filter_balances.
  destruct (sort_spec byHe3Desc rankKey
              (map rankedEntry (fetched getTokenBalance (String c a) aa)))
    as (out & Es & Hp & Hs).
  { intros x y. apply byHe3Desc_descending. }
  rewrite Es. cbn [tryCatch].
  apply Permutation_sym, Permutation_map_inv in Hp.
  destruct Hp as (ranking & -> & Hp).
  exists ranking. split; [reflexivity|]. split; [exact Hp|].
  apply StronglySorted_map in Hs.
  eapply StronglySorted_ind with (P := fun l => StronglySorted (fun x y => snd y <= snd x) l)
    in Hs; [exact Hs|constructor|].
  intros x l _ IH Hall. constructor; [exact IH|].
  rewrite Forall_forall in *. intros y Hy. specialize (Hall y Hy).
  now rewrite !rankKey_rankedEntry in Hall.
Qed.

End RankingFacts.

Lemma rankAgentsByHe3_sorted_witness :
  exists ranking,
    rankAgentsByHe3 exampleContracts exampleBalances = Normal (map rankedEntry ranking) /\
    Permutation [("agent-1", "0xC1", 50); ("agent-3", "0xC3", 9007199254740993)] ranking /\
    StronglySorted (fun x y => snd y <= snd x) ranking.
Proof.
  apply (rankAgentsByHe3_sorted exampleContracts exampleBalances
           [("agent-1", "0xC1"); ("agent-2", "0xC2"); ("agent-3", "0xC3")]
           [("carbon", "0xD1"); ("graphene", "0xD2"); ("helium3", "0xD3")] "0xD3").
  - reflexivity.
  - reflexivity.
  - reflexivity.
  - discriminate.
Defined.

(** The ranking of the example, computed: the balance above 2^53 comes
    first and the failed fetch is left out. *)
Example rankAgentsByHe3_example :
  rankAgentsByHe3 exampleContracts exampleBalances =
  Normal [ {| ra_agentId := "agent-3"; ra_address := "0xC3";
              ra_he3Balance := "9007199254740993" |};
           {| ra_agentId := "agent-1"; ra_address := "0xC1"; ra_he3Balance := "50" |} ].
Proof. reflexivity. Qed.

(** ** A complete run

    An agent holding graphene only, with one liquidity position on the
    graphene pair, no stake and no helium3. *)
Example analyzeCompetitorStrategies_example :
  analyzeCompetitorStrategies exampleContracts
    [("agent-2",
      {| agentId := "agent-2"; address := "0xC2"; he3Balance := "0";
         resourceBalances := [("graphene", "5"); ("yttrium", "0")];
         liquidityPositions := responseOf ["0xa5"];
         stakePositions := responseOf [];
         error := Undefined |})] =
  Normal
    [("agent-2",
      {| sa_agentId := "agent-2"; sa_address := "0xC2"; sa_he3Balance := "0";
         resourceFocus := "Graphene Path Focus";
         pathPreference := "Strong Graphene Path Preference";
         liquidityStrategy := "Advanced Resource Liquidity Focus";
         stakingStrategy := "No Staking Positions";
         overallStrategy := "Mid Game - Graphene Path Focus";
         counterStrategies :=
           ["Focus on Yttrium path to avoid competition";
            "Secure Neodymium and Dysprosium resources";
            "Ensure base resource supply chain is secure"];
         sa_error := Undefined |})].
Proof. reflexivity. Qed.

(** * Further properties of the code *)

(** ** Case mapping *)

Lemma lowerChar_idem c : lowerChar (lowerChar c) = lowerChar c.
Proof. destruct c as [[] [] [] [] [] [] [] []]; reflexivity. Qed.

Lemma lowerChar_upperChar c : lowerChar (upperChar c) = lowerChar c.
Proof. destruct c as [[] [] [] [] [] [] [] []]; reflexivity. Qed.

Lemma toLowerCase_idem s : toLowerCase (toLowerCase s) = toLowerCase s.
Proof. induction s as [|c s IH]; simpl; [reflexivity|]. now rewrite lowerChar_idem, IH. Qed.

Lemma toLowerCase_toUpperCase s : toLowerCase (toUpperCase s) = toLowerCase s.
Proof.
  induction s as [|c s IH]; simpl; [reflexivity|]. now rewrite lowerChar_upperChar, IH.
Qed.

Lemma toLowerCase_empty s : toLowerCase s = "" <-> s = "".
Proof. destruct s; simpl; split; intros H; (reflexivity || discriminate H). Qed.

(** ** Contract lookups *)

Section ContractLookupFacts.

Variable contractAddresses : ContractCategory -> option (Dict string).

Lemma getStr_truthy o k :
  truthy (getStr o k) = true ->
  exists a, get o k = Some a /\ a <> "" /\ getStr o k = Str a.
Proof.
  unfold getStr. destruct (get o k) as [[|c a]|]; simpl; try discriminate.
  intros _. exists (String c a). repeat split. discriminate.
Qed.

(** X1. [getContractAddress]: for the category [agents] it never throws and
    falls back on a placeholder; for the other categories it returns the
    registered address when there is a non-empty one and throws otherwise.
    What it returns is never empty. *)
Theorem getContractAddress_lookup :
  (forall name, exists r, getContractAddress contractAddresses agents name = Normal r) /\
  (forall category name a,
     getContractAddress contractAddresses category name = Normal a ->
     a <> "" /\
     ((category = agents /\ a = agentPlaceholder) \/
      exists ca, contractAddresses category = Some ca /\ get ca name = Some a)) /\
  (forall category name ca a,
     contractAddresses category = Some ca -> get ca name = Some a -> a <> "" ->
     getContractAddress contractAddresses category name = Normal a) /\
  (forall category name,
     category <> agents ->
     (forall ca, contractAddresses category = Some ca ->
                 truthy (getStr ca name) = false) ->
     exists message,
       getContractAddress contractAddresses category name = Throw (Error message)).
Proof.
  repeat split.
  - intros name. unfold getContractAddress. cbn [isAgents].
    destruct (contractAddresses agents) as [ca|]; cbn [tryCatch]; [|eauto].
    destruct (truthy (getStr ca name)); cbn [negb tryCatch]; eauto.
  - revert H. unfold getContractAddress.
    destruct (contractAddresses category) as [ca|].
    + destruct (truthy (getStr ca name)) eqn:T; cbn [negb].
      * destruct (getStr_truthy _ _ T) as (a' & _ & Hne & ->). cbn.
        intros E; inversion E; subst; exact Hne.
      * destruct category; cbn; intros E; inversion E; discriminate.
    + destruct category; cbn; intros E; inversion E; discriminate.
  - revert H. unfold getContractAddress.
    destruct (contractAddresses category) as [ca|].
    + destruct (truthy (getStr ca name)) eqn:T; cbn [negb].
      * destruct (getStr_truthy _ _ T) as (a' & Hg & _ & ->). cbn.
        intros E; inversion E; subst. right. eauto.
      * destruct category; cbn; intros E; inversion E. left. now split.
    + destruct category; cbn; intros E; inversion E. left. now split.
  - intros category name ca a Hc Hg Hne. unfold getContractAddress, getStr.
    rewrite Hc, Hg. destruct a; [congruence|reflexivity].
  - intros category name Hc Hmiss. unfold getContractAddress.
    destruct (contractAddresses category) as [ca|].
    + rewrite (Hmiss ca eq_refl). destruct category; cbn; eauto. congruence.
    + destruct category; cbn; eauto. congruence.
Qed.

(** X2. An address returned by [getContractAddress] is recognised by
    [isAddressOfType] under the same category and name, whatever the case
    of its letters. *)
Theorem getContractAddress_recognised category name ca a :
  contractAddresses category = Some ca ->
  get ca name = Some a ->
  a <> "" ->
  getContractAddress contractAddresses category name = Normal a /\
  isAddressOfType contractAddresses (Str a) category (Str name) = Normal true /\
  isAddressOfType contractAddresses (Str (toUpperCase a)) category (Str name) =
  Normal true.
Proof.
  intros Hc Hg Hne.
  assert (Hin : In (name, a) ca) by now apply get_Some_In.
  split; [|split].
  - unfold getContractAddress, getStr. rewrite Hc, Hg.
    destruct a; [congruence|reflexivity].
  - rewrite isAddressOfType_named. f_equal.
    destruct name as [|ch name]; cbn [truthy].
    + rewrite Hc. apply existsb_exists. exists ("", a). split; [exact Hin|].
      cbn [snd]. destruct a; [congruence|]. cbn [truthy andb]. apply String.eqb_refl.
    + unfold addressIs. rewrite Hc, Hg. cbn [truthy andb].
      destruct a; [congruence|]. cbn [truthy andb]. apply String.eqb_refl.
  - rewrite isAddressOfType_named, toLowerCase_toUpperCase. f_equal.
    destruct name as [|ch name]; cbn [truthy].
    + rewrite Hc. apply existsb_exists. exists ("", a). split; [exact Hin|].
      cbn [snd]. destruct a; [congruence|]. cbn [truthy andb]. apply String.eqb_refl.
    + unfold addressIs. rewrite Hc, Hg, toLowerCase_toUpperCase. cbn [truthy andb].
      destruct a; [congruence|]. cbn [truthy andb]. apply String.eqb_refl.
Qed.

Lemma find_first_key (ca : Dict string) (p : string * string -> bool) t a :
  NoDup (keys ca) -> find p ca = Some (t, a) -> get ca t = Some a /\ p (t, a) = true.
Proof.
  intros Hnd Hf. apply find_some in Hf. destruct Hf as [Hin Hp].
  split; [now apply get_In|exact Hp].
Qed.

(** X3. [getTokenTypeForAddress] never throws, and agrees with
    [isAddressOfType]: the type it finds for a non-empty address is one
    under which [isAddressOfType] accepts that address, and it finds some
    type exactly when [isAddressOfType] without a type accepts the address. *)
Theorem getTokenTypeForAddress_agrees address category :
  (exists r, getTokenTypeForAddress contractAddresses address category = Normal r) /\
  (forall a ca t,
     address = Str a -> a <> "" ->
     contractAddresses category = Some ca -> NoDup (keys ca) ->
     getTokenTypeForAddress contractAddresses address category = Normal (Some t) ->
     isAddressOfType contractAddresses address category (Str t) = Normal true) /\
  (forall a, address = Str a -> a <> "" ->
     (isAddressOfType contractAddresses address category Undefined = Normal true <->
      exists t, getTokenTypeForAddress contractAddresses address category =
                Normal (Some t))).
Proof.
  split; [|split].
  - unfold getTokenTypeForAddress. apply tryCatch_total.
  - intros a ca t -> Hne Hc Hnd. unfold getTokenTypeForAddress. rewrite Hc.
    cbn [bind tryCatch].
    destruct (find _ ca) as [[t' a']|] eqn:Hf; cbn [option_map fst]; [|discriminate].
    intros E. inversion E; subst t'. clear E.
    destruct (find_first_key ca _ t a' Hnd Hf) as [Hg Hp]. cbn [snd] in Hp.
    apply String.eqb_eq in Hp.
    assert (Ha' : a' <> "").
    { intros ->. simpl in Hp. symmetry in Hp. apply (proj1 (toLowerCase_empty a)) in Hp.
      congruence. }
    rewrite isAddressOfType_named. f_equal.
    destruct t as [|ch t]; cbn [truthy].
    + rewrite Hc. apply existsb_exists. exists ("", a'). split.
      * now apply get_Some_In.
      * cbn [snd]. destruct a'; [congruence|]. cbn [truthy andb].
        now apply String.eqb_eq.
    + unfold addressIs. rewrite Hc, Hg. cbn [truthy andb].
      destruct a'; [congruence|]. cbn [truthy andb]. apply String.eqb_eq. now symmetry.
  - intros a -> Hne. unfold isAddressOfType, getTokenTypeForAddress.
    destruct (contractAddresses category) as [ca|]; cbn [bind tryCatch truthy].
    2:{ split; [discriminate|]. intros [t E]. discriminate E. }
    split.
    + intros E. inversion E as [Hex]. clear E.
      apply existsb_exists in Hex. destruct Hex as ([t a'] & Hin & Hp). cbn [snd] in Hp.
      apply andb_true_iff in Hp. destruct Hp as [_ Hp].
      destruct (find (fun kv => String.eqb (toLowerCase (snd kv)) (toLowerCase a)) ca)
        as [[t0 a0]|] eqn:Hf.
      * exists t0. reflexivity.
      * exfalso. apply (find_none _ _ Hf) in Hin. cbn [snd] in Hin. congruence.
    + intros [t E].
      destruct (find (fun kv => String.eqb (toLowerCase (snd kv)) (toLowerCase a)) ca)
        as [[t0 a0]|] eqn:Hf; [|discriminate E].
      apply find_some in Hf. destruct Hf as [Hin Hp]. cbn [snd] in Hp.
      f_equal. apply existsb_exists. exists (t0, a0). split; [exact Hin|].
      cbn [snd]. rewrite Hp, andb_true_r.
      destruct a0; [|reflexivity].
      apply String.eqb_eq in Hp. simpl in Hp. symmetry in Hp.
      apply (proj1 (toLowerCase_empty a)) in Hp. congruence.
Qed.

(** X4. [getAgentAddress] always returns, either the address registered for
    the current agent or the placeholder of [getContractAddress]: its own
    [catch] is never entered. *)
Theorem getAgentAddress_total currentAgentId :
  exists r,
    getAgentAddress contractAddresses currentAgentId = Normal r /\
    (r = agentPlaceholder \/
     exists ca, contractAddresses agents = Some ca /\
                get ca (getCurrentAgentId currentAgentId) = Some r).
Proof.
  unfold getAgentAddress, getContractAddress. cbn [isAgents].
  destruct (contractAddresses agents) as [ca|]; cbn [tryCatch]; [|eauto].
  destruct (truthy (getStr ca (getCurrentAgentId currentAgentId))) eqn:T;
    cbn [negb tryCatch]; [|eauto].
  destruct (getStr_truthy _ _ T) as (a & Hg & _ & ->). cbn [stringOf].
  exists a. split; [reflexivity|]. right. eauto.
Qed.

End ContractLookupFacts.

Lemma getContractAddress_lookup_witness :
  getContractAddress exampleContracts lpPairs "graphene" = Normal "0xA5" /\
  exists message, getContractAddress exampleContracts lpPairs "wdCarbon" =
                  Throw (Error message).
Proof.
  destruct (getContractAddress_lookup exampleContracts) as (_ & _ & Hfound & Hmissing).
  split.
  - eapply Hfound; [reflexivity|reflexivity|discriminate].
  - apply Hmissing; [discriminate|].
    intros ca E. inversion E; subst. reflexivity.
Defined.

Lemma getContractAddress_recognised_witness :
  isAddressOfType exampleContracts (Str "0XA5") lpPairs (Str "graphene") = Normal true.
Proof.
  apply (getContractAddress_recognised exampleContracts lpPairs "graphene" _ "0xA5"
           eq_refl eq_refl).
  discriminate.
Defined.

Lemma getTokenTypeForAddress_agrees_witness :
  isAddressOfType exampleContracts (Str "0xa3") lpPairs (Str "graphite") = Normal true.
Proof.
  destruct (getTokenTypeForAddress_agrees exampleContracts (Str "0xa3") lpPairs)
    as (_ & Htyped & _).
  eapply Htyped; [reflexivity|discriminate|reflexivity| |reflexivity].
  repeat constructor; simpl; intuition discriminate.
Defined.

(** ** Address normalisation *)

Lemma isChar_lowerChar c : isChar (lowerChar c) 48 = isChar c 48.
Proof. destruct c as [[] [] [] [] [] [] [] []]; reflexivity. Qed.

Lemma dropZeros_toLowerCase s : dropZeros (toLowerCase s) = toLowerCase (dropZeros s).
Proof.
  induction s as [|c s IH]; [reflexivity|].
  cbn [toLowerCase dropZeros]. rewrite isChar_lowerChar.
  destruct (isChar c 48); [exact IH|reflexivity].
Qed.

Lemma dropZeros_idem s : dropZeros (dropZeros s) = dropZeros s.
Proof.
  induction s as [|c s IH]; [reflexivity|]. cbn [dropZeros].
  destruct (isChar c 48) eqn:E; [exact IH|]. cbn [dropZeros]. now rewrite E.
Qed.

Lemma prefix_0x s :
  prefix "0x" s = true -> s = "0x" ++ slice1 (slice1 s).
Proof.
  intros H. apply prefix_correct in H. destruct s as [|a [|b s]]; try discriminate H.
  simpl in H. injection H as Ha Hb _. subst a b. reflexivity.
Qed.

Lemma normalizeAddress_digits address :
  normalizeAddress address =
  match significantDigits address with
  | EmptyString => "0x0"
  | digits => "0x" ++ digits
  end.
Proof.
  unfold normalizeAddress, significantDigits.
  destruct (prefix "0x" address) eqn:P.
  - pose proof (prefix_0x address P) as E.
    set (rest := slice1 (slice1 address)) in *. clearbody rest. subst address.
    change (toLowerCase ("0x" ++ rest)) with ("0x" ++ toLowerCase rest).
    change (replaceLeadingZeros ("0x" ++ toLowerCase rest))
      with ("0x" ++ dropZeros (toLowerCase rest)).
    now destruct (dropZeros (toLowerCase rest)).
  - change (toLowerCase ("0x" ++ address)) with ("0x" ++ toLowerCase address).
    change (replaceLeadingZeros ("0x" ++ toLowerCase address))
      with ("0x" ++ dropZeros (toLowerCase address)).
    now destruct (dropZeros (toLowerCase address)).
Qed.

Lemma significantDigits_0x s :
  significantDigits ("0x" ++ s) = dropZeros (toLowerCase s).
Proof.
  unfold significantDigits.
  assert (P : prefix "0x" ("0x" ++ s) = true).
  { apply prefix_correct. simpl. now destruct s. }
  now rewrite P.
Qed.

(** X5. [normalizeAddress] is idempotent: a normalised address is left as it
    is. *)
Theorem normalizeAddress_idempotent address :
  normalizeAddress (normalizeAddress address) = normalizeAddress address.
Proof.
  rewrite (normalizeAddress_digits address).
  destruct (significantDigits address) as [|c d] eqn:E; [reflexivity|].
  rewrite normalizeAddress_digits, significantDigits_0x.
  assert (H : dropZeros (toLowerCase (String c d)) = String c d).
  { rewrite <- E. unfold significantDigits.
    set (body := if prefix "0x" address then slice1 (slice1 address) else address).
    rewrite <- (dropZeros_toLowerCase (toLowerCase body)), toLowerCase_idem.
    apply dropZeros_idem. }
  now rewrite H.
Qed.

Lemma dropZeros_zeros n s : dropZeros (zeros n ++ s) = dropZeros s.
Proof. induction n as [|n IH]; [reflexivity|exact IH]. Qed.

Lemma toLowerCase_app s t : toLowerCase (s ++ t) = toLowerCase s ++ toLowerCase t.
Proof. induction s as [|c s IH]; simpl; [reflexivity|now rewrite IH]. Qed.

Lemma toLowerCase_zeros n : toLowerCase (zeros n) = zeros n.
Proof. induction n as [|n IH]; simpl; [reflexivity|]. now rewrite IH. Qed.

(** X6. [normalizeAddress] identifies the spellings of an address: leading
    zeros after the prefix, the case of the digits and a missing prefix
    make no difference; the result starts with [0x] and, unless it is
    [0x0], its first digit is not a zero. *)
Theorem normalizeAddress_spellings s :
  (forall n, normalizeAddress ("0x" ++ zeros n ++ s) = normalizeAddress ("0x" ++ s)) /\
  normalizeAddress ("0x" ++ toUpperCase s) = normalizeAddress ("0x" ++ s) /\
  (prefix "0x" s = false -> normalizeAddress s = normalizeAddress ("0x" ++ s)) /\
  exists digits,
    normalizeAddress s = "0x" ++ digits /\
    (digits = "0" \/ exists c rest, digits = String c rest /\ isChar c 48 = false).
Proof.
  split; [|split; [|split]].
  - intros n. rewrite !normalizeAddress_digits, !significantDigits_0x.
    now rewrite toLowerCase_app, toLowerCase_zeros, dropZeros_zeros.
  - rewrite !normalizeAddress_digits, !significantDigits_0x.
    now rewrite toLowerCase_toUpperCase.
  - intros P. rewrite !normalizeAddress_digits, significantDigits_0x.
    unfold significantDigits. now rewrite P.
  - rewrite normalizeAddress_digits. unfold significantDigits.
    set (body := toLowerCase _). clearbody body.
    induction body as [|c body IH]; cbn [dropZeros].
    + exists "0". split; [reflexivity|now left].
    + destruct (isChar c 48) eqn:E; [exact IH|].
      exists (String c body). split; [reflexivity|]. right. eauto.
Qed.

Lemma normalizeAddress_spellings_witness :
  prefix "0x" "00Ab1" = false /\
  normalizeAddress "00Ab1" = normalizeAddress "0x00Ab1".
Proof.
  split; [reflexivity|].
  apply (proj1 (proj2 (proj2 (normalizeAddress_spellings "00Ab1")))).
  reflexivity.
Defined.

(** ** Hexadecimal strings *)

Ltac eval_digit :=
  repeat match goal with
         | |- context [digitValue ?c] =>
             let v := eval vm_compute in (digitValue c) in change (digitValue c) with v
         end.

Lemma parseHex_acc u : forall p,
  parseDigits 16 (Z.pos p)
    (list_ascii_of_string (HexadecimalString.NilEmpty.string_of_uint u)) =
  Some (Z.pos (Pos.of_hex_uint_acc u p)).
Proof.
  induction u; intros p;
    cbn [HexadecimalString.NilEmpty.string_of_uint list_ascii_of_string parseDigits
         Pos.of_hex_uint_acc];
    try reflexivity; eval_digit; cbv iota;
    match goal with
    | |- context [?d <? 16] => change (d <? 16) with true
    end; cbv iota; rewrite <- IHu; f_equal; lia.
Qed.

Lemma parseHex_uint u :
  parseDigits 16 0
    (list_ascii_of_string (HexadecimalString.NilEmpty.string_of_uint u)) =
  Some (Z.of_N (Pos.of_hex_uint u)).
Proof.
  induction u;
    cbn [HexadecimalString.NilEmpty.string_of_uint list_ascii_of_string parseDigits
         Pos.of_hex_uint Z.of_N];
    try reflexivity; eval_digit; cbv iota;
    match goal with
    | |- context [?d <? 16] => change (d <? 16) with true
    end; cbv iota; try exact IHu; rewrite <- parseHex_acc; f_equal.
Qed.

Lemma hex_uint_plain u :
  Forall plainChar (list_ascii_of_string (HexadecimalString.NilEmpty.string_of_uint u)).
Proof. induction u; simpl; constructor; (exact IHu || (split; reflexivity)). Qed.

Lemma to_hex_uint_nonempty p :
  HexadecimalString.NilEmpty.string_of_uint (Pos.to_hex_uint p) <> "".
Proof.
  pose proof (HexadecimalPos.Unsigned.of_to p) as H.
  destruct (Pos.to_hex_uint p); simpl in *; discriminate.
Qed.

Lemma bigintToHexString_pos p :
  bigintToHexString (Z.pos p) =
  HexadecimalString.NilEmpty.string_of_uint (Pos.to_hex_uint p).
Proof.
  unfold bigintToHexString. cbn [Z.to_hex_int HexadecimalString.NilZero.string_of_int].
  pose proof (HexadecimalPos.Unsigned.of_to p) as H.
  destruct (Pos.to_hex_uint p); simpl in *; [discriminate|reflexivity..].
Qed.

Lemma StringToBigInt_0x_hex z :
  0 <= z -> StringToBigInt ("0x" ++ bigintToHexString z) = Some z.
Proof.
  intros Hz. destruct z as [|p|p]; [reflexivity| |lia].
  rewrite bigintToHexString_pos.
  pose proof (hex_uint_plain (Pos.to_hex_uint p)) as Hplain.
  pose proof (to_hex_uint_nonempty p) as Hne.
  pose proof (parseHex_uint (Pos.to_hex_uint p)) as Hparse.
  rewrite HexadecimalPos.Unsigned.of_to in Hparse.
  set (h := HexadecimalString.NilEmpty.string_of_uint (Pos.to_hex_uint p)) in *.
  clearbody h. unfold StringToBigInt.
  change (list_ascii_of_string ("0x" ++ h))
    with ("0"%char :: "x"%char :: list_ascii_of_string h).
  rewrite trim_id.
  - change (isChar "0" 48 && (isChar "x" 120 || isChar "x" 88)) with true. cbv iota.
    unfold parseLiteral. destruct h; [congruence|exact Hparse].
  - constructor; [reflexivity|]. constructor; [reflexivity|].
    eapply Forall_impl; [|exact Hplain]. intros c [Hc _]. exact Hc.
Qed.

Lemma hex_no_prefix z : 0 <= z -> prefix "0x" (bigintToHexString z) = false.
Proof.
  intros Hz. destruct z as [|p|p]; [reflexivity| |lia].
  rewrite bigintToHexString_pos.
  pose proof (hex_uint_plain (Pos.to_hex_uint p)) as Hplain.
  set (h := HexadecimalString.NilEmpty.string_of_uint (Pos.to_hex_uint p)) in *.
  clearbody h.
  destruct (prefix "0x" h) eqn:P; [|reflexivity].
  apply prefix_correct in P.
  destruct h as [|a [|b s]]; simpl in P; try discriminate P.
  assert (Hx : isChar b 120 = false).
  { simpl in Hplain. apply Forall_inv_tail, Forall_inv in Hplain. apply Hplain. }
  injection P as _ Hb _. rewrite Hb in Hx. discriminate Hx.
Qed.

(** X7. [toHex] ignores [withPrefix]: the string it returns for a non-negative
    value never has the [0x] prefix, and reads back as that value once the
    prefix is put in front.  A decimal string is converted like the number
    it spells. *)
Theorem toHex_unprefixed z withPrefix :
  0 <= z ->
  exists hexString,
    toHex (OfBigInt z) withPrefix = Normal hexString /\
    toHex (OfString (bigintToString z)) withPrefix = Normal hexString /\
    prefix "0x" hexString = false /\
    BigInt (Str ("0x" ++ hexString)) = Normal z.
Proof.
  intros Hz. exists (bigintToHexString z). repeat split.
  - unfold toHex. rewrite BigInt_toString. reflexivity.
  - now apply hex_no_prefix.
  - cbn [BigInt]. now rewrite StringToBigInt_0x_hex.
Qed.

Lemma toHex_unprefixed_witness :
  exists hexString,
    toHex (OfBigInt 9007199254740993) true = Normal hexString /\
    toHex (OfString (bigintToString 9007199254740993)) true = Normal hexString /\
    prefix "0x" hexString = false /\
    BigInt (Str ("0x" ++ hexString)) = Normal 9007199254740993.
Proof. apply toHex_unprefixed. lia. Defined.

(** ** Loops that fill an object *)

Lemma forOf_collect {V R} (f : string -> V -> option R)
    (body : Dict R -> string * V -> completion (Dict R)) l :
  (forall acc k v, In (k, v) l ->
     body acc (k, v) = Normal match f k v with
                              | Some r => set acc k r
                              | None => acc
                              end) ->
  forall acc, NoDup (keys acc ++ keys l) ->
  forOf l body acc =
  Normal (acc ++ flat_map (fun kv => match f (fst kv) (snd kv) with
                                     | Some r => [(fst kv, r)]
                                     | None => []
                                     end) l)%list.
Proof.
  induction l as [|[k v] l IH]; intros Hb acc Hnd.
  - simpl. now rewrite app_nil_r.
  - cbn [forOf flat_map fst snd]. rewrite Hb by now left. cbn [bind].
    assert (Hk : ~ In k (keys acc)).
    { intros Hk. apply NoDup_remove_2 in Hnd. apply Hnd. apply in_or_app. now left. }
    destruct (f k v) as [r|].
    + rewrite set_fresh by exact Hk. rewrite IH.
      * now rewrite <- app_assoc.
      * intros; apply Hb; now right.
      * unfold keys in *. rewrite map_app. cbn [map fst]. rewrite <- app_assoc. exact Hnd.
    + rewrite IH; [reflexivity|intros; apply Hb; now right|].
      eapply NoDup_remove_1. exact Hnd.
Qed.

Lemma keys_flat_map {V R} (f : string -> V -> option R) (l : Dict V) :
  keys (flat_map (fun kv => match f (fst kv) (snd kv) with
                            | Some r => [(fst kv, r)]
                            | None => []
                            end) l) =
  map fst (filter (fun kv => match f (fst kv) (snd kv) with
                             | Some _ => true
                             | None => false
                             end) l).
Proof.
  induction l as [|kv l IH]; [reflexivity|]. cbn [flat_map filter].
  destruct (f (fst kv) (snd kv)); cbn [app map keys fst]; [f_equal|]; exact IH.
Qed.

Lemma NoDup_keys_filter {V} (p : string * V -> bool) (l : Dict V) :
  NoDup (keys l) -> NoDup (keys (filter p l)).
Proof.
  induction l as [|kv l IH]; simpl; intros H; [constructor|].
  inversion H as [|? ? Hk Hnd]; subst.
  destruct (p kv); [|now apply IH].
  cbn [keys map]. constructor; [|now apply IH].
  intros Hin. apply Hk. unfold keys in *.
  apply in_map_iff in Hin. destruct Hin as (x & E & Hin).
  apply filter_In in Hin. apply in_map_iff. exists x. tauto.
Qed.

Lemma toString_nonempty z : bigintToString z <> "".
Proof.
  intros H. pose proof (toString_not_Error z) as Hn.
  destruct z as [|p|p]; [discriminate H| |discriminate H].
  unfold bigintToString in H. cbn [Z.to_int NilZero.string_of_int] in H.
  rewrite string_of_to_uint in H. apply (to_uint_nonempty p). now rewrite H.
Qed.

Lemma safeBigIntConversion_toString z d :
  safeBigIntConversion (Str (bigintToString z)) d = Normal z.
Proof.
  rewrite safeBigIntConversion_Str, StringToBigInt_toString.
  pose proof (toString_nonempty z). now destruct (bigintToString z).
Qed.

(** ** Gathering *)

Section GatheringFacts.

Variable contractAddresses : ContractCategory -> option (Dict string).
Variable getTokenBalance : string -> string -> completion Z.
Variable requestLiquidityPositions : string -> completion PositionsResponse.
Variable requestStakePositions : string -> completion PositionsResponse.

Lemma resource_loop agentAddress ra :
  NoDup (keys ra) ->
  forOf ra
    (fun (balances : Dict string) entry =>
       let '(resourceName, resourceAddress) := entry in
       tryCatch
         (balance <- getTokenBalance resourceAddress agentAddress ;;
          Normal (set balances resourceName (bigintToString balance)))
         (fun _ => Normal (set balances resourceName "Error")))
    [] =
  Normal (map (fun kv => (fst kv, balanceString getTokenBalance agentAddress (snd kv))) ra).
Proof.
  intros Hnd.
  rewrite (forOf_collect
             (fun _ v => Some (balanceString getTokenBalance agentAddress v))).
  - cbn [app]. f_equal.
  - intros acc k v _. unfold balanceString.
    now destruct (getTokenBalance v agentAddress).
  - exact Hnd.
Qed.

(** X8. [getAgentResourceBalances] fails only when the resources table is
    missing.  Otherwise it returns one entry per resource of the table, in
    the table's order: the decimal string of the balance, which
    [safeBigIntConversion] reads back exactly, or "Error" when the read
    failed; one failed read does not affect the other entries. *)
Theorem getAgentResourceBalances_entries agentAddress :
  (contractAddresses resources = None ->
   exists e, getAgentResourceBalances contractAddresses getTokenBalance agentAddress =
             Throw e) /\
  (forall ra,
     contractAddresses resources = Some ra -> NoDup (keys ra) ->
     exists balances,
       getAgentResourceBalances contractAddresses getTokenBalance agentAddress =
       Normal balances /\
       keys balances = keys ra /\
       forall name resourceAddress, In (name, resourceAddress) ra ->
         (forall balance,
            getTokenBalance resourceAddress agentAddress = Normal balance ->
            get balances name = Some (bigintToString balance) /\
            safeBigIntConversion (getStr balances name) 0 = Normal balance) /\
         (forall e,
            getTokenBalance resourceAddress agentAddress = Throw e ->
            get balances name = Some "Error")).
Proof.
  split.
  - intros Hr. unfold getAgentResourceBalances, getCategoryAddresses. rewrite Hr.
    cbn. eauto.
  - intros ra Hr Hnd. unfold getAgentResourceBalances, getCategoryAddresses.
    rewrite Hr. cbn [bind]. rewrite (resource_loop agentAddress ra Hnd). cbn [tryCatch].
    eexists. split; [reflexivity|].
    assert (Hk : keys (map (fun kv => (fst kv,
                   balanceString getTokenBalance agentAddress (snd kv))) ra) = keys ra).
    { unfold keys. rewrite map_map. reflexivity. }
    split; [exact Hk|].
    intros name resourceAddress Hin.
    assert (Hg : get (map (fun kv => (fst kv,
                   balanceString getTokenBalance agentAddress (snd kv))) ra) name =
                 Some (balanceString getTokenBalance agentAddress resourceAddress)).
    { apply get_In; [now rewrite Hk|].
      apply in_map_iff. exists (name, resourceAddress). now split. }
    split.
    + intros balance Eb. unfold getStr. rewrite Hg. unfold balanceString. rewrite Eb.
      split; [reflexivity|apply safeBigIntConversion_toString].
    + intros e Ee. rewrite Hg. unfold balanceString. now rewrite Ee.
Qed.

End GatheringFacts.

Lemma getAgentResourceBalances_entries_witness :
  exists balances,
    getAgentResourceBalances exampleContracts exampleReads "0xC2" = Normal balances /\
    get balances "carbon" = Some "Error" /\
    safeBigIntConversion (getStr balances "graphene") 0 = Normal 7.
Proof.
  destruct (getAgentResourceBalances_entries exampleContracts exampleReads "0xC2")
    as [_ H].
  destruct (H [("carbon", "0xD1"); ("graphene", "0xD2"); ("helium3", "0xD3")] eq_refl)
    as (balances & E & _ & Hentries).
  { repeat constructor; simpl; intuition discriminate. }
  exists balances. split; [exact E|]. split.
  - apply (Hentries "carbon" "0xD1" (or_introl eq_refl)) with (e := Error "rpc failed").
    reflexivity.
  - apply (Hentries "graphene" "0xD2" (or_intror (or_introl eq_refl))). reflexivity.
Defined.

Section IntelligenceFacts.

Variable contractAddresses : ContractCategory -> option (Dict string).
Variable getTokenBalance : string -> string -> completion Z.
Variable requestLiquidityPositions : string -> completion PositionsResponse.
Variable requestStakePositions : string -> completion PositionsResponse.

Lemma orString_nonempty a b : b <> "" -> orString a b <> "".
Proof. destruct a; simpl; [auto|discriminate]. Qed.

(** A gathered record is complete, or is the error record with a non-empty
    message. *)
Lemma gathered_error he3Address ra id addr :
  let r := gathered getTokenBalance requestLiquidityPositions requestStakePositions he3Address ra id addr in
  agentId r = id /\ address r = addr /\
  (error r = Undefined \/
   exists m, error r = Str m /\ m <> "" /\ he3Balance r = "0" /\ resourceBalances r = []).
Proof.
  unfold gathered.
  destruct (getTokenBalance he3Address addr) as [b|e]; cbn [bind].
  2:{ repeat split. right. eexists. repeat split. now apply orString_nonempty. }
  destruct (requestLiquidityPositions (normalizeAddress addr)) as [lp|e]; cbn [bind].
  2:{ repeat split. right. eexists. repeat split. now apply orString_nonempty. }
  destruct (requestStakePositions (normalizeAddress addr)) as [sp|e]; cbn [bind].
  2:{ repeat split. right. eexists. repeat split. now apply orString_nonempty. }
  repeat split. now left.
Qed.

Lemma forOf_returns {X S} (body : S -> X -> completion S) items :
  (forall s x, returns (body s x)) -> forall s, returns (forOf items body s).
Proof.
  intros Hb. induction items as [|x items IH]; intros s; simpl.
  - apply returns_Normal.
  - destruct (Hb s x) as [s' ->]. cbn [bind]. apply IH.
Qed.

Lemma getCompetitiveIntelligence_returns_iff current :
  (exists out,
     getCompetitiveIntelligence contractAddresses getTokenBalance
       requestLiquidityPositions requestStakePositions current = Normal out) <->
  configured contractAddresses current.
Proof.
  unfold getCompetitiveIntelligence, getCategoryAddresses, configured.
  destruct (contractAddresses agents) as [aa|]; cbn [bind].
  2:{ split; [intros [out E]; discriminate E|].
      intros (aa & ra & E & _). discriminate E. }
  destruct (truthy (getStr aa (getCurrentAgentId current))) eqn:Tc; cbn [negb].
  2:{ split; [intros [out E]; discriminate E|].
      intros (aa' & ra & E & T & _). inversion E; subst. congruence. }
  destruct (contractAddresses resources) as [ra|]; cbn [bind].
  2:{ split; [intros [out E]; discriminate E|].
      intros (aa' & ra & _ & _ & E & _). discriminate E. }
  destruct (truthy (getStr ra "helium3")) eqn:Th; cbn [negb].
  2:{ split; [intros [out E]; discriminate E|].
      intros (aa' & ra' & _ & _ & E & T). inversion E; subst. congruence. }
  split; [intros _; exists aa, ra; auto|]. intros _.
  match goal with
  | |- exists out, tryCatch (forOf ?l ?body ?acc) _ = _ =>
      destruct (forOf_returns body l) with (s := acc) as [out E]
  end.
  - intros acc [agentId agentAddress].
    destruct (String.eqb agentId (getCurrentAgentId current)); [apply returns_Normal|].
    match goal with |- returns (tryCatch ?c _) => destruct c end;
      apply returns_Normal.
  - exists out. now rewrite E.
Qed.

(** X9. [getCompetitiveIntelligence] returns exactly when it is configured;
    no failed balance read or position query makes it throw.  In particular
    it throws while no agent identifier is set, unless an agent is registered
    as "default-agent". *)
Theorem getCompetitiveIntelligence_configuration current :
  (exists out,
     getCompetitiveIntelligence contractAddresses getTokenBalance
       requestLiquidityPositions requestStakePositions current = Normal out) <->
  configured contractAddresses current.
Proof. apply getCompetitiveIntelligence_returns_iff. Qed.

Lemma getCompetitiveIntelligence_closed current aa ra he3Address :
  contractAddresses agents = Some aa -> NoDup (keys aa) ->
  truthy (getStr aa (getCurrentAgentId current)) = true ->
  contractAddresses resources = Some ra -> NoDup (keys ra) ->
  get ra "helium3" = Some he3Address -> he3Address <> "" ->
  getCompetitiveIntelligence contractAddresses getTokenBalance
    requestLiquidityPositions requestStakePositions current =
  Normal (flat_map
            (fun kv =>
               match (if String.eqb (fst kv) (getCurrentAgentId current) then None
                      else Some (gathered getTokenBalance requestLiquidityPositions requestStakePositions he3Address ra (fst kv) (snd kv))) with
               | Some r => [(fst kv, r)]
               | None => []
               end) aa).
Proof.
  intros Ha Hnda Hcur Hr Hndr Hhe3 Hne.
  unfold getCompetitiveIntelligence, getCategoryAddresses.
  rewrite Ha. cbn [bind]. rewrite Hcur. cbn [negb]. rewrite Hr. cbn [bind].
  unfold getStr at 1 2. rewrite Hhe3.
  destruct he3Address as [|c0 h]; [congruence|]. cbn [truthy negb stringOf].
  rewrite (forOf_collect
             (fun k v => if String.eqb k (getCurrentAgentId current) then None
                         else Some (gathered getTokenBalance requestLiquidityPositions requestStakePositions (String c0 h) ra k v))).
  - reflexivity.
  - intros acc k v _.
    destruct (String.eqb k (getCurrentAgentId current)); [reflexivity|].
    unfold gathered.
    destruct (getTokenBalance (String c0 h) v) as [b|e]; cbn [bind tryCatch];
      [|reflexivity].
    rewrite (resource_loop getTokenBalance v ra Hndr). cbn [bind]. unfold executeQuery.
    destruct (requestLiquidityPositions (normalizeAddress v)) as [lp|e];
      cbn [bind tryCatch]; [|reflexivity].
    destruct (requestStakePositions (normalizeAddress v)) as [sp|e];
      cbn [bind tryCatch]; reflexivity.
  - exact Hnda.
Qed.

Lemma gathered_entries current aa ra he3Address :
  NoDup (keys aa) ->
  let out :=
    flat_map
      (fun kv =>
         match (if String.eqb (fst kv) (getCurrentAgentId current) then None
                else Some (gathered getTokenBalance requestLiquidityPositions requestStakePositions he3Address ra (fst kv) (snd kv))) with
         | Some r => [(fst kv, r)]
         | None => []
         end) aa in
  NoDup (keys out) /\
  keys out = filter (fun k => negb (String.eqb k (getCurrentAgentId current))) (keys aa) /\
  (forall id intel, In (id, intel) out <->
     exists addr, In (id, addr) aa /\ id <> getCurrentAgentId current /\
                  intel = gathered getTokenBalance requestLiquidityPositions requestStakePositions he3Address ra id addr).
Proof.
  intros Hnd out.
  assert (Hk : keys out =
               filter (fun k => negb (String.eqb k (getCurrentAgentId current))) (keys aa)).
  { subst out. clear Hnd. induction aa as [|[k v] l IH]; [reflexivity|].
    cbn [flat_map keys map filter fst snd].
    destruct (String.eqb k (getCurrentAgentId current)); cbn [negb app map fst];
      [|f_equal]; exact IH. }
  split; [|split; [exact Hk|]].
  - rewrite Hk. now apply NoDup_filter.
  - intros id intel. subst out. rewrite in_flat_map. split.
    + intros ([k v] & Hin & Hx). cbn [fst snd] in Hx.
      destruct (String.eqb_spec k (getCurrentAgentId current)) as [->|Hne];
        [destruct Hx|].
      destruct Hx as [E|[]]. inversion E; subst. eauto.
    + intros (addr & Hin & Hne & ->). exists (id, addr). split; [exact Hin|].
      cbn [fst snd]. destruct (String.eqb_spec id (getCurrentAgentId current));
        [contradiction|now left].
Qed.

(** X10. Once configured, [getCompetitiveIntelligence] returns a record for
    every agent of the table but the current one, and for no one else.  The
    record of an agent is complete (balances of all resources, "Error" for
    the reads that failed, and both position lists) when its helium3 balance
    and its two position queries are obtained; otherwise it is the error
    record, whose [error] is a non-empty message. *)
Theorem getCompetitiveIntelligence_gathers current aa ra he3Address :
  contractAddresses agents = Some aa -> NoDup (keys aa) ->
  truthy (getStr aa (getCurrentAgentId current)) = true ->
  contractAddresses resources = Some ra -> NoDup (keys ra) ->
  get ra "helium3" = Some he3Address -> he3Address <> "" ->
  exists out,
    getCompetitiveIntelligence contractAddresses getTokenBalance
      requestLiquidityPositions requestStakePositions current = Normal out /\
    keys out = filter (fun k => negb (String.eqb k (getCurrentAgentId current))) (keys aa) /\
    get out (getCurrentAgentId current) = None /\
    (forall id addr, In (id, addr) aa -> id <> getCurrentAgentId current ->
       get out id = Some (gathered getTokenBalance requestLiquidityPositions requestStakePositions he3Address ra id addr)) /\
    (forall id intel, In (id, intel) out ->
       agentId intel = id /\
       (error intel = Undefined \/
        exists m, error intel = Str m /\ m <> "" /\
                  he3Balance intel = "0" /\ resourceBalances intel = [])).
Proof.
  intros Ha Hnda Hcur Hr Hndr Hhe3 Hne.
  rewrite (getCompetitiveIntelligence_closed current aa ra he3Address) by assumption.
  destruct (gathered_entries current aa ra he3Address Hnda) as (Hnd & Hk & Hin).
  eexists. split; [reflexivity|]. split; [exact Hk|]. split; [|split].
  - apply get_None_keys. rewrite Hk. intros Hf. apply filter_In in Hf.
    destruct Hf as [_ Hf]. now rewrite String.eqb_refl in Hf.
  - intros id addr Hi Hd. apply get_In; [exact Hnd|]. apply Hin. eauto.
  - intros id intel Hi. apply Hin in Hi. destruct Hi as (addr & _ & _ & ->).
    destruct (gathered_error he3Address ra id addr) as (E1 & _ & E3). split; assumption.
Qed.

(** X11. Gathering then analysing: [analyzeCompetitorStrategies] on what
    [getCompetitiveIntelligence] returns has a record exactly for the other
    agents whose gathering succeeded; an agent whose record carries an
    [error] is left out, and so is the current agent. *)
Theorem gather_then_analyze current aa ra he3Address :
  contractAddresses agents = Some aa -> NoDup (keys aa) ->
  truthy (getStr aa (getCurrentAgentId current)) = true ->
  contractAddresses resources = Some ra -> NoDup (keys ra) ->
  get ra "helium3" = Some he3Address -> he3Address <> "" ->
  exists intelligence analysis,
    getCompetitiveIntelligence contractAddresses getTokenBalance
      requestLiquidityPositions requestStakePositions current = Normal intelligence /\
    analyzeCompetitorStrategies contractAddresses intelligence = Normal analysis /\
    get analysis (getCurrentAgentId current) = None /\
    forall id intel, In (id, intel) intelligence ->
      (error intel <> Undefined -> get analysis id = None) /\
      (error intel = Undefined ->
       exists r, get analysis id = Some r /\ sa_agentId r = id /\
                 sa_address r = address intel /\ sa_he3Balance r = he3Balance intel).
Proof.
  intros Ha Hnda Hcur Hr Hndr Hhe3 Hne.
  rewrite (getCompetitiveIntelligence_closed current aa ra he3Address) by assumption.
  destruct (gathered_entries current aa ra he3Address Hnda) as (Hnd & Hk & Hin).
  set (ci := flat_map _ aa) in *.
  destruct (analyzeCompetitorStrategiesWith_records (classifiers contractAddresses) ci Hnd)
    as (out & E & Hget).
  exists ci, out. split; [reflexivity|]. split; [exact E|]. split.
  - rewrite Hget. rewrite get_None_keys; [reflexivity|].
    rewrite Hk. intros Hf. apply filter_In in Hf.
    destruct Hf as [_ Hf]. now rewrite String.eqb_refl in Hf.
  - intros id intel Hi. rewrite Hget, (get_In ci id intel Hnd Hi).
    pose proof Hi as Hi'. apply Hin in Hi'. destruct Hi' as (addr & _ & _ & Eintel).
    destruct (gathered_error he3Address ra id addr) as (_ & _ & Herr).
    rewrite <- Eintel in Herr. cbv zeta in Herr.
    unfold recordFor. split.
    + intros Hdef. destruct Herr as [Hu|(m & Em & Hm & _)]; [contradiction|].
      rewrite Em. destruct m; [congruence|reflexivity].
    + intros Hu. rewrite Hu. cbn [truthy].
      destruct (buildAnalysis_classifiers contractAddresses id intel)
        as (rf & pp & ls & ss & os & cs & _ & _ & _ & _ & _ & _ & Eb).
      rewrite Eb. eexists. split; [reflexivity|]. repeat split.
Qed.

End IntelligenceFacts.

Lemma getCompetitiveIntelligence_gathers_witness :
  exists out,
    getCompetitiveIntelligence exampleContracts exampleReads exampleLiquidity exampleStakes
      (setCurrentAgentId "agent-1") = Normal out /\
    keys out = ["agent-2"; "agent-3"].
Proof.
  destruct (getCompetitiveIntelligence_gathers exampleContracts exampleReads
              exampleLiquidity exampleStakes (setCurrentAgentId "agent-1")
              [("agent-1", "0xC1"); ("agent-2", "0xC2"); ("agent-3", "0xC3")]
              [("carbon", "0xD1"); ("graphene", "0xD2"); ("helium3", "0xD3")] "0xD3")
    as (out & E & Hk & _); try reflexivity; try discriminate.
  - repeat constructor; simpl; intuition discriminate.
  - repeat constructor; simpl; intuition discriminate.
  - exists out. split; [exact E|exact Hk].
Defined.

Lemma gather_then_analyze_witness :
  exists intelligence analysis,
    getCompetitiveIntelligence exampleContracts exampleReads exampleLiquidity exampleStakes
      (setCurrentAgentId "agent-1") = Normal intelligence /\
    analyzeCompetitorStrategies exampleContracts intelligence = Normal analysis /\
    get analysis "agent-1" = None.
Proof.
  destruct (gather_then_analyze exampleContracts exampleReads
              exampleLiquidity exampleStakes (setCurrentAgentId "agent-1")
              [("agent-1", "0xC1"); ("agent-2", "0xC2"); ("agent-3", "0xC3")]
              [("carbon", "0xD1"); ("graphene", "0xD2"); ("helium3", "0xD3")] "0xD3")
    as (ci & out & E1 & E2 & Hc & _); try reflexivity; try discriminate.
  - repeat constructor; simpl; intuition discriminate.
  - repeat constructor; simpl; intuition discriminate.
  - exists ci, out. repeat split; assumption.
Defined.

Lemma getCompetitiveIntelligence_configuration_witness :
  ~ exists out,
      getCompetitiveIntelligence exampleContracts exampleReads exampleLiquidity
        exampleStakes Null = Normal out.
Proof.
  intros H.
  apply (proj1 (getCompetitiveIntelligence_configuration exampleContracts exampleReads
                  exampleLiquidity exampleStakes Null)) in H.
  destruct H as (aa & ra & Ea & T & _). inversion Ea; subst. discriminate T.
Defined.

(** ** Liquidity and staking strategies *)

Ltac tuple_lia :=
  apply (f_equal Normal);
  repeat match goal with
         | |- pair _ _ = pair _ _ => apply f_equal2
         end; lia.

Lemma tier_loop3 (tier : Position -> option Tier)
    (body : Z * Z * Z -> Position -> completion (Z * Z * Z)) items :
  (forall b i a x, In x items ->
     body (b, i, a) x =
     Normal match tier x with
            | Some BaseTier => (b + 1, i, a)
            | Some IntermediateTier => (b, i + 1, a)
            | Some AdvancedTier => (b, i, a + 1)
            | _ => (b, i, a)
            end) ->
  forall b i a,
    forOf items body (b, i, a) =
    Normal (b + countTier tier BaseTier items,
            i + countTier tier IntermediateTier items,
            a + countTier tier AdvancedTier items).
Proof.
  unfold countTier.
  induction items as [|x items IH]; intros Hb b i a.
  - simpl. unfold countIf. simpl. tuple_lia.
  - cbn [forOf]. rewrite Hb by now left. cbn [bind].
    rewrite !countIf_cons.
    destruct (tier x) as [[]|]; rewrite IH by (intros; apply Hb; now right);
      cbn [tierIs]; tuple_lia.
Qed.

Lemma tier_loop4 (tier : Position -> option Tier)
    (body : Z * Z * Z * Z -> Position -> completion (Z * Z * Z * Z)) items :
  (forall b i a h x, In x items ->
     body (b, i, a, h) x =
     Normal match tier x with
            | Some BaseTier => (b + 1, i, a, h)
            | Some IntermediateTier => (b, i + 1, a, h)
            | Some AdvancedTier => (b, i, a + 1, h)
            | Some SingleStake => (b, i, a, h + 1)
            | None => (b, i, a, h)
            end) ->
  forall b i a h,
    forOf items body (b, i, a, h) =
    Normal (b + countTier tier BaseTier items,
            i + countTier tier IntermediateTier items,
            a + countTier tier AdvancedTier items,
            h + countTier tier SingleStake items).
Proof.
  unfold countTier.
  induction items as [|x items IH]; intros Hb b i a h.
  - simpl. unfold countIf. simpl. tuple_lia.
  - cbn [forOf]. rewrite Hb by now left. cbn [bind].
    rewrite !countIf_cons.
    destruct (tier x) as [[]|]; rewrite IH by (intros; apply Hb; now right);
      cbn [tierIs]; tuple_lia.
Qed.

Lemma countTier_nonneg tier t items : 0 <= countTier tier t items.
Proof. apply countIf_nonneg. Qed.

Lemma lengthIsZero_positions r :
  wellFormed r = true ->
  lengthIsZero (fieldOrEmpty r) = match positionsIn r with [] => true | _ => false end.
Proof.
  unfold wellFormed, positionsIn, lengthIsZero, lengthOf.
  destruct (fieldOrEmpty r) as [|items|]; try discriminate. intros _.
  destruct items; [reflexivity|].
  cbn [List.length]. destruct (Z.eqb_spec (Z.of_nat (S (List.length items))) 0); [lia|].
  reflexivity.
Qed.

Ltac ladder_cases :=
  eexists; split; [reflexivity|];
  split; [intros Hnil; first [reflexivity | congruence]|];
  intros _; repeat split; intros;
  repeat match goal with
         | H : _ /\ _ |- _ => destruct H
         end;
  first [reflexivity | lia | congruence].

Section Strategies.

Variable contractAddresses : ContractCategory -> option (Dict string).

(** X12. [analyzeLiquidityStrategy] on a fault-free response: no position gives
    "No Liquidity Positions"; otherwise each position counts in the first
    tier whose pairs hold its address and the label follows the counts.  A
    tie that involves a counted base position gives the base label;
    "Diversified Liquidity Strategy" is returned exactly when no position is
    on a registered pair. *)
Theorem analyzeLiquidityStrategy_tiers lp :
  wellFormed lp = true ->
  let tier := liquidityTier contractAddresses in
  let b := countTier tier BaseTier (positionsIn lp) in
  let i := countTier tier IntermediateTier (positionsIn lp) in
  let a := countTier tier AdvancedTier (positionsIn lp) in
  exists label,
    analyzeLiquidityStrategy contractAddresses lp = Normal label /\
    (positionsIn lp = [] -> label = "No Liquidity Positions") /\
    (positionsIn lp <> [] ->
     (a > i -> a > b -> label = "Advanced Resource Liquidity Focus") /\
     ((a <= i \/ a <= b) -> i > b -> label = "Intermediate Resource Liquidity Focus") /\
     ((a <= i \/ a <= b) -> i <= b -> b > 0 -> label = "Base Resource Liquidity Focus") /\
     (label = "Diversified Liquidity Strategy" <-> b = 0 /\ i = 0 /\ a = 0)).
Proof.
  intros Hwf tier b i a.
  destruct (iterate_wellFormed lp Hwf) as [Eit Hobj].
  unfold analyzeLiquidityStrategy. cbv zeta.
  rewrite (lengthIsZero_positions lp Hwf).
  destruct (positionsIn lp) as [|p0 rest] eqn:Epos.
  { eexists. split; [reflexivity|]. split; [reflexivity|]. intros H. now destruct H. }
  rewrite Eit; try rewrite Epos. cbn [bind].
  rewrite (tier_loop3 tier).
  2:{ intros b0 i0 a0 x Hx.
      assert (Hx' : exists addr, x = PObject addr)
        by (first [apply Hobj; exact Hx | apply Hobj; rewrite Epos; exact Hx]).
      destruct Hx' as [addr ->].
      cbn [addressOf bind]. unfold tier, liquidityTier.
      destruct addr as [| |s];
        [rewrite !isAddressOfType_not_a_string by discriminate; reflexivity..|].
      rewrite !isAddressOfType_name. unfold onPath, belongsTo. cbn [existsb orElse bind].
      destruct (addressIs contractAddresses lpPairs s "carbon"),
               (addressIs contractAddresses lpPairs s "neodymium"),
               (addressIs contractAddresses lpPairs s "graphite"),
               (addressIs contractAddresses lpPairs s "dysprosium"),
               (addressIs contractAddresses lpPairs s "graphene"),
               (addressIs contractAddresses lpPairs s "yttrium"),
               (addressIs contractAddresses lpPairs s "helium3"); reflexivity. }
  cbn [bind]. rewrite !Z.add_0_l.
  fold b i a.
  pose proof (countTier_nonneg tier BaseTier (p0 :: rest)) as Hb0.
  pose proof (countTier_nonneg tier IntermediateTier (p0 :: rest)) as Hi0.
  pose proof (countTier_nonneg tier AdvancedTier (p0 :: rest)) as Ha0.
  fold b in Hb0. fold i in Hi0. fold a in Ha0. clearbody b i a.
  destruct (Z.gtb_spec a i), (Z.gtb_spec a b); cbn [andb];
    [ladder_cases|..];
    (destruct (Z.gtb_spec i b); [ladder_cases|]);
    (destruct (Z.gtb_spec b 0); ladder_cases).
Qed.

(** X13. [analyzeStakingStrategy] on a fault-free response: no position gives
    "No Staking Positions"; a position on the single-stake reactor (and on
    no base or intermediate reactor) gives "He3 Single Stake Focus" whatever
    the other counts; otherwise the label follows the counts of base,
    intermediate and advanced positions, and "Diversified Staking Strategy"
    is returned exactly when no position is on a registered reactor. *)
Theorem analyzeStakingStrategy_tiers sp :
  wellFormed sp = true ->
  let tier := stakeTier contractAddresses in
  let b := countTier tier BaseTier (positionsIn sp) in
  let i := countTier tier IntermediateTier (positionsIn sp) in
  let a := countTier tier AdvancedTier (positionsIn sp) in
  let h := countTier tier SingleStake (positionsIn sp) in
  exists label,
    analyzeStakingStrategy contractAddresses sp = Normal label /\
    (positionsIn sp = [] -> label = "No Staking Positions") /\
    (positionsIn sp <> [] ->
     (h > 0 -> label = "He3 Single Stake Focus") /\
     (h = 0 -> a > i -> a > b -> label = "Advanced Resource Staking Focus") /\
     (h = 0 -> (a <= i \/ a <= b) -> i > b ->
      label = "Intermediate Resource Staking Focus") /\
     (h = 0 -> (a <= i \/ a <= b) -> i <= b -> b > 0 ->
      label = "Base Resource Staking Focus") /\
     (label = "Diversified Staking Strategy" <-> b = 0 /\ i = 0 /\ a = 0 /\ h = 0)).
Proof.
  intros Hwf tier b i a h.
  destruct (iterate_wellFormed sp Hwf) as [Eit Hobj].
  unfold analyzeStakingStrategy. cbv zeta.
  rewrite (lengthIsZero_positions sp Hwf).
  destruct (positionsIn sp) as [|p0 rest] eqn:Epos.
  { eexists. split; [reflexivity|]. split; [reflexivity|]. intros H. now destruct H. }
  rewrite Eit; try rewrite Epos. cbn [bind].
  rewrite (tier_loop4 tier).
  2:{ intros b0 i0 a0 h0 x Hx.
      assert (Hx' : exists addr, x = PObject addr)
        by (first [apply Hobj; exact Hx | apply Hobj; rewrite Epos; exact Hx]).
      destruct Hx' as [addr ->].
      cbn [addressOf bind]. unfold tier, stakeTier.
      destruct addr as [| |s];
        [rewrite !isAddressOfType_not_a_string by discriminate; reflexivity..|].
      rewrite !isAddressOfType_name. unfold onPath, belongsTo.
      cbn [existsb orElse andAlso notM bind].
      destruct (addressIs contractAddresses reactors s "grp"),
               (addressIs contractAddresses reactors s "dy"),
               (addressIs contractAddresses reactors s "gph"),
               (addressIs contractAddresses reactors s "y"),
               (addressIs contractAddresses reactors s "he3"),
               (addressIs contractAddresses reactors s "he3Stake"); reflexivity. }
  cbn [bind]. rewrite !Z.add_0_l.
  fold b i a h.
  pose proof (countTier_nonneg tier BaseTier (p0 :: rest)) as Hb0.
  pose proof (countTier_nonneg tier IntermediateTier (p0 :: rest)) as Hi0.
  pose proof (countTier_nonneg tier AdvancedTier (p0 :: rest)) as Ha0.
  pose proof (countTier_nonneg tier SingleStake (p0 :: rest)) as Hh0.
  fold b in Hb0. fold i in Hi0. fold a in Ha0. fold h in Hh0. clearbody b i a h.
  destruct (Z.gtb_spec h 0); [ladder_cases|].
  destruct (Z.gtb_spec a i), (Z.gtb_spec a b); cbn [andb];
    [ladder_cases|..];
    (destruct (Z.gtb_spec i b); [ladder_cases|]);
    (destruct (Z.gtb_spec b 0); ladder_cases).
Qed.

End Strategies.

Lemma analyzeLiquidityStrategy_tiers_witness :
  analyzeLiquidityStrategy exampleContracts (responseOf ["0xA5"; "0xA1"]) =
  Normal "Base Resource Liquidity Focus".
Proof.
  destruct (analyzeLiquidityStrategy_tiers exampleContracts
              (responseOf ["0xA5"; "0xA1"]) eq_refl) as (label & E & _ & H).
  destruct H as (_ & _ & Hbase & _); [discriminate|].
  rewrite E. f_equal. apply Hbase; vm_compute; first [now right | discriminate | reflexivity].
Defined.

Lemma analyzeStakingStrategy_tiers_witness :
  analyzeStakingStrategy exampleContracts (responseOf ["0xB1"; "0xB1"; "0xB6"]) =
  Normal "He3 Single Stake Focus".
Proof.
  destruct (analyzeStakingStrategy_tiers exampleContracts
              (responseOf ["0xB1"; "0xB1"; "0xB6"]) eq_refl) as (label & E & _ & H).
  destruct H as (Hsingle & _); [discriminate|].
  rewrite E. f_equal. apply Hsingle. vm_compute. reflexivity.
Defined.

(** ** Stages and suggestions *)

(** X14. The stage never moves backward when the helium3 balance grows, the
    other inputs being the same; a balance that does not parse counts as
    zero, so it never reaches the late or end game. *)
Theorem determineOverallStrategy_monotone rb lp sp he3Low he3High :
  balanceOf he3Low <= balanceOf he3High ->
  exists low high,
    determineOverallStrategy rb lp sp he3Low = Normal low /\
    determineOverallStrategy rb lp sp he3High = Normal high /\
    stageRank low <= stageRank high /\
    (StringToBigInt he3Low = None -> stageRank low = 0).
Proof.
  intros Hle. rewrite !determineOverallStrategy_ladder.
  do 2 eexists. split; [reflexivity|]. split; [reflexivity|].
  assert (Hrank : forall balance g y l,
             stageRank (stage balance g y l) =
             if balance >? 800000 * 10 ^ 18 then 2
             else if balance >? 500000 * 10 ^ 18 then 1 else 0).
  { intros balance g y l. unfold stage.
    destruct (balance >? 800000 * 10 ^ 18); [reflexivity|].
    destruct (balance >? 500000 * 10 ^ 18); [reflexivity|].
    destruct g, y, l; reflexivity. }
  rewrite !Hrank. split.
  - destruct (Z.gtb_spec (balanceOf he3Low) (800000 * 10 ^ 18)),
             (Z.gtb_spec (balanceOf he3High) (800000 * 10 ^ 18)),
             (Z.gtb_spec (balanceOf he3Low) (500000 * 10 ^ 18)),
             (Z.gtb_spec (balanceOf he3High) (500000 * 10 ^ 18)); lia.
  - intros Hbad. unfold balanceOf. rewrite Hbad. now destruct he3Low.
Qed.

Lemma determineOverallStrategy_monotone_witness :
  exists low high,
    determineOverallStrategy [] RNullish RNullish "Error" = Normal low /\
    determineOverallStrategy [] RNullish RNullish "600000000000000000000000" =
    Normal high /\
    stageRank low <= stageRank high /\
    (StringToBigInt "Error" = None -> stageRank low = 0).
Proof.
  apply determineOverallStrategy_monotone. vm_compute. discriminate.
Defined.

Section Suggestions.

Variable contractAddresses : ContractCategory -> option (Dict string).

Lemma advice_of_labels pp ls :
  In pp pathPreferenceLabels -> In ls liquidityStrategyLabels ->
  (let strategies :=
     if includes pp "Graphene" then
       push (push [] "Focus on Yttrium path to avoid competition")
            "Secure Neodymium and Dysprosium resources"
     else if includes pp "Yttrium" then
       push (push [] "Focus on Graphene path to avoid competition")
            "Secure Carbon and Graphite resources"
     else push [] "Specialize in one path for efficiency" in
   if includes ls "Base Resource" then
     push strategies "Focus on intermediate and advanced resource liquidity"
   else if includes ls "Advanced Resource" then
     push strategies "Ensure base resource supply chain is secure"
   else strategies) = (pathAdvice pp ++ liquidityAdvice ls)%list.
Proof.
  intros Hpp Hls. simpl in Hpp, Hls.
  repeat (destruct Hpp as [<-|Hpp]); try contradiction;
    repeat (destruct Hls as [<-|Hls]); try contradiction; reflexivity.
Qed.

Lemma suggestCounterStrategies_shape rb lp sp he3Balance :
  exists strategies pp ls,
    suggestCounterStrategies contractAddresses rb lp sp he3Balance = Normal strategies /\
    analyzePathPreference contractAddresses rb lp sp = Normal pp /\
    analyzeLiquidityStrategy contractAddresses lp = Normal ls /\
    (balanceOf he3Balance > endGameThreshold -> strategies = endGameCounters) /\
    (lateGameThreshold < balanceOf he3Balance <= endGameThreshold ->
     strategies = lateGameCounters) /\
    (balanceOf he3Balance <= lateGameThreshold ->
     strategies = (pathAdvice pp ++ liquidityAdvice ls)%list) /\
    (1 <= List.length strategies <= 3)%nat /\
    ~ In "Analysis Error" strategies.
Proof.
  destruct (analyzePathPreference_label contractAddresses rb lp sp) as (pp & Epp & Hpp).
  destruct (analyzeLiquidityStrategy_label contractAddresses lp) as (ls & Els & Hls).
  unfold suggestCounterStrategies.
  rewrite safeBigIntConversion_balanceOf. cbn [bind].
  assert (Hlt : lateGameThreshold < endGameThreshold) by reflexivity.
  destruct (Z.gtb_spec (balanceOf he3Balance) endGameThreshold).
  { exists endGameCounters, pp, ls. repeat split; auto; try lia;
      try (simpl; lia). simpl. intuition discriminate. }
  destruct (Z.gtb_spec (balanceOf he3Balance) lateGameThreshold).
  { exists lateGameCounters, pp, ls. repeat split; auto; try lia;
      try (simpl; lia). simpl. intuition discriminate. }
  rewrite Epp, Els. cbn [bind tryCatch].
  pose proof (advice_of_labels pp ls Hpp Hls) as Hadv. cbv zeta in Hadv.
  rewrite Hadv.
  exists (pathAdvice pp ++ liquidityAdvice ls)%list, pp, ls.
  split; [reflexivity|]. split; [reflexivity|]. split; [reflexivity|].
  split; [intros; lia|]. split; [intros; lia|]. split; [reflexivity|].
  unfold pathAdvice, liquidityAdvice.
  destruct (_ || _); [|destruct (_ || _)];
    (destruct (String.eqb ls "Base Resource Liquidity Focus");
     [|destruct (String.eqb ls "Advanced Resource Liquidity Focus")]);
    (split; [simpl; lia|simpl; intuition discriminate]).
Qed.

(** X15. [suggestCounterStrategies] never gives its "Analysis Error" answer: it
    returns two fixed suggestions in the end game and in the late game, and
    below them the suggestions that answer the path preference followed by
    the one, if any, that answers the liquidity strategy, between one and
    three in all. *)
Theorem suggestCounterStrategies_advice rb lp sp he3Balance :
  exists strategies pp ls,
    suggestCounterStrategies contractAddresses rb lp sp he3Balance = Normal strategies /\
    analyzePathPreference contractAddresses rb lp sp = Normal pp /\
    analyzeLiquidityStrategy contractAddresses lp = Normal ls /\
    (balanceOf he3Balance > endGameThreshold -> strategies = endGameCounters) /\
    (lateGameThreshold < balanceOf he3Balance <= endGameThreshold ->
     strategies = lateGameCounters) /\
    (balanceOf he3Balance <= lateGameThreshold ->
     strategies = (pathAdvice pp ++ liquidityAdvice ls)%list) /\
    (1 <= List.length strategies <= 3)%nat /\
    ~ In "Analysis Error" strategies.
Proof. apply suggestCounterStrategies_shape. Qed.

End Suggestions.

Lemma suggestCounterStrategies_advice_witness :
  suggestCounterStrategies exampleContracts [("graphene", "5")] (responseOf ["0xA1"])
    RNullish "12" =
  Normal ["Focus on Yttrium path to avoid competition";
          "Secure Neodymium and Dysprosium resources";
          "Focus on intermediate and advanced resource liquidity"].
Proof.
  destruct (suggestCounterStrategies_advice exampleContracts
              [("graphene", "5")] (responseOf ["0xA1"]) RNullish "12")
    as (st & pp & ls & E & Epp & Els & _ & _ & Hearly & _).
  rewrite E. f_equal. rewrite Hearly by (vm_compute; discriminate).
  vm_compute in Epp, Els. inversion Epp; inversion Els; subst. reflexivity.
Defined.

(** ** Stability of the sort *)

Section SortStable.

Context {A : Type} (cmp : A -> A -> completion Z) (key : A -> Z).

Lemma insertSorted_filter v x l :
  (forall y, In y l -> descending cmp key x y) ->
  forall out, insertSorted cmp x l = Normal out ->
  filter (fun e => key e =? v) out = filter (fun e => key e =? v) (x :: l).
Proof.
  induction l as [|y l IH]; intros Hc out E.
  - simpl in E. now inversion E.
  - destruct (Hc y (or_introl eq_refl)) as (c & Ec & Hle).
    simpl in E. rewrite Ec in E. cbn [bind] in E.
    destruct (Z.leb_spec c 0) as [Hc0|Hc0].
    + now inversion E.
    + destruct (insertSorted cmp x l) as [r|e] eqn:Er; cbn [bind] in E; [|discriminate].
      inversion E; subst out. clear E.
      specialize (IH (fun y' Hy' => Hc y' (or_intror Hy')) r eq_refl).
      cbn [filter] in *. rewrite IH.
      assert (Hlt : key x < key y) by lia.
      destruct (Z.eqb_spec (key y) v), (Z.eqb_spec (key x) v); try reflexivity. lia.
Qed.

Lemma sort_filter v l :
  (forall x y, In x l -> In y l -> descending cmp key x y) ->
  forall out, sort cmp l = Normal out ->
  filter (fun e => key e =? v) out = filter (fun e => key e =? v) l.
Proof.
  induction l as [|x l IH]; intros Hc out E.
  - simpl in E. now inversion E.
  - destruct (sort_spec cmp key l) as (r & Er & Hp & _);
      [intros; apply Hc; now right|].
    simpl in E. rewrite Er in E. cbn [bind] in E.
    rewrite (insertSorted_filter v x r) with (out := out); [|
      intros y Hy; apply Hc; [now left|right];
      apply Permutation_sym in Hp; eapply Permutation_in; eauto | exact E].
    cbn [filter]. rewrite (IH (fun a b Ha Hb => Hc a b (or_intror Ha) (or_intror Hb)) r Er).
    reflexivity.
Qed.

(** In a sorted result, the first element is the first of the input among
    those with the largest key. *)
Lemma sort_head l before top after :
  (forall x y, In x l -> In y l -> descending cmp key x y) ->
  l = (before ++ top :: after)%list ->
  (forall e, In e before -> key e < key top) ->
  (forall e, In e after -> key e <= key top) ->
  exists rest, sort cmp l = Normal (top :: rest).
Proof.
  intros Hc El Hb Ha.
  destruct (sort_spec cmp key l Hc) as (out & E & Hp & Hs).
  pose proof (sort_filter (key top) l Hc out E) as Hf.
  assert (Hfl : filter (fun e => key e =? key top) l =
                top :: filter (fun e => key e =? key top) after).
  { rewrite El, filter_app. cbn [filter]. rewrite Z.eqb_refl.
    replace (filter (fun e => key e =? key top) before) with (@nil A); [reflexivity|].
    symmetry. clear -Hb. induction before as [|e b IH]; [reflexivity|].
    cbn [filter]. destruct (Z.eqb_spec (key e) (key top)) as [Ee|_].
    - specialize (Hb e (or_introl eq_refl)). lia.
    - apply IH. intros; apply Hb; now right. }
  destruct out as [|h rest].
  - apply Permutation_sym, Permutation_nil in Hp. subst l. now destruct before.
  - assert (Hh : key h = key top).
    { assert (Hin : In h l) by (eapply Permutation_in; [apply Permutation_sym; exact Hp|now left]).
      assert (Hle : key h <= key top).
      { rewrite El in Hin. apply in_app_or in Hin.
        destruct Hin as [Hin|[<-|Hin]]; [specialize (Hb h Hin)|..]; try lia. now apply Ha. }
      assert (Hge : key top <= key h).
      { assert (Ht : In top (h :: rest)).
        { eapply Permutation_in; [exact Hp|]. rewrite El. apply in_or_app. right. now left. }
        apply StronglySorted_inv in Hs. destruct Hs as [_ Hall].
        destruct Ht as [<-|Ht]; [lia|]. rewrite Forall_forall in Hall. now apply Hall. }
      lia. }
    cbn [filter] in Hf. rewrite Hh, Z.eqb_refl, Hfl in Hf.
    inversion Hf; subst h. exists rest. exact E.
Qed.

End SortStable.

(** ** Resource focus: ties and the "Unknown" label *)

Lemma focusLabel_not_Unknown top he3 : focusLabel top he3 <> "Unknown".
Proof.
  unfold focusLabel, arrayIncludes. cbn [existsb].
  destruct (_ && _); [discriminate|].
  destruct (String.eqb_spec top "graphene") as [->|_]; [discriminate|].
  destruct (String.eqb_spec top "yttrium") as [->|_]; [discriminate|].
  destruct (String.eqb_spec top "carbon") as [->|_]; [discriminate|].
  destruct (String.eqb_spec top "neodymium") as [->|_]; discriminate.
Qed.

Lemma nonError_nil_allError rb : nonError rb = [] -> allError rb.
Proof.
  unfold nonError, allError. intros H k s Hin.
  destruct (String.eqb_spec s "Error") as [E|Hne]; [exact E|].
  assert (Hf : In (k, s) (filter (fun kv => negb (String.eqb (snd kv) "Error")) rb)).
  { apply filter_In. split; [exact Hin|]. cbn [snd].
    destruct (String.eqb_spec s "Error"); [contradiction|reflexivity]. }
  rewrite H in Hf. destruct Hf.
Qed.

(** X16. On a mapping with distinct keys, [analyzeResourceFocus] answers
    "Unknown" exactly when the mapping has no entry other than "Error"
    ones. *)
Theorem analyzeResourceFocus_Unknown_iff rb :
  NoDup (keys rb) ->
  (analyzeResourceFocus rb = Normal "Unknown" <-> allError rb).
Proof.
  intros Hnd. destruct (analyzeResourceFocus_sorted rb Hnd) as (sorted & Hp & _ & E).
  rewrite E. split.
  - intros H. destruct sorted as [|[top v] rest].
    + apply Permutation_sym, Permutation_nil in Hp. apply nonError_nil_allError.
      unfold converted in Hp. now apply map_eq_nil in Hp.
    + inversion H as [Hl]. now apply focusLabel_not_Unknown in Hl.
  - intros H. apply allError_nonError in H. unfold converted in Hp. rewrite H in Hp.
    apply Permutation_nil in Hp. now subst sorted.
Qed.

Lemma analyzeResourceFocus_Unknown_iff_witness :
  analyzeResourceFocus [("helium3", "0"); ("carbon", "Error")] <> Normal "Unknown".
Proof.
  intros H.
  apply (analyzeResourceFocus_Unknown_iff [("helium3", "0"); ("carbon", "Error")]) in H.
  - specialize (H "helium3" "0" (or_introl eq_refl)). discriminate H.
  - repeat constructor; simpl; intuition discriminate.
Defined.

(** X17. Ties at the top are decided by the iteration order: the label is read
    off the first entry, in iteration order, among the non-error entries
    with the largest balance. *)
Theorem analyzeResourceFocus_first_of_ties rb before top v after :
  NoDup (keys rb) ->
  converted rb = (before ++ (top, v) :: after)%list ->
  (forall e, In e before -> snd e < v) ->
  (forall e, In e after -> snd e <= v) ->
  analyzeResourceFocus rb = Normal (focusLabel top (Some v)).
Proof.
  intros Hnd Ec Hb Ha.
  destruct (sort_head byBalanceDesc snd (converted rb) before (top, v) after)
    as (rest & Es); auto.
  { intros; apply byBalanceDesc_descending. }
  unfold analyzeResourceFocus.
  rewrite (focus_loop rb []) by (simpl; now apply keys_nonError).
  cbn [app bind]. rewrite Es. cbn [bind map fst tryCatch].
  assert (Hg : String.eqb top "helium3" = true -> get (converted rb) "helium3" = Some v).
  { intros Et. apply String.eqb_eq in Et. subst top. apply get_In.
    - rewrite keys_converted. now apply keys_nonError.
    - rewrite Ec. apply in_or_app. right. now left. }
  unfold focusLabel.
  destruct (String.eqb top "helium3") eqn:Et; cbn [andb].
  - rewrite (Hg eq_refl). destruct (v >? 0); [reflexivity|].
    destruct (arrayIncludes ["graphene"; "yttrium"] top); [reflexivity|].
    destruct (arrayIncludes ["carbon"; "neodymium"] top); reflexivity.
  - destruct (arrayIncludes ["graphene"; "yttrium"] top); [reflexivity|].
    destruct (arrayIncludes ["carbon"; "neodymium"] top); reflexivity.
Qed.

Lemma analyzeResourceFocus_first_of_ties_witness :
  analyzeResourceFocus [("wattDollar", "3"); ("yttrium", "5"); ("graphene", "5")] =
  Normal "Yttrium Path Focus".
Proof.
  apply (analyzeResourceFocus_first_of_ties
           [("wattDollar", "3"); ("yttrium", "5"); ("graphene", "5")]
           [("wattDollar", 3)] "yttrium" 5 [("graphene", 5)]).
  - repeat constructor; simpl; intuition discriminate.
  - reflexivity.
  - intros e [<-|[]]. simpl. lia.
  - intros e [<-|[]]. simpl. lia.
Defined.

(** ** Ranking: configuration, length and ties *)

Lemma bigintToString_inj x y : bigintToString x = bigintToString y -> x = y.
Proof.
  intros H. pose proof (StringToBigInt_toString x) as Hx.
  rewrite H, StringToBigInt_toString in Hx. now inversion Hx.
Qed.

Lemma rankedEntry_inj e1 e2 : rankedEntry e1 = rankedEntry e2 -> e1 = e2.
Proof.
  destruct e1 as [[i1 a1] b1], e2 as [[i2 a2] b2]. unfold rankedEntry. cbn [fst snd].
  intros H. inversion H as [[Hi Ha Hb]]. apply bigintToString_inj in Hb. now subst.
Qed.

Lemma map_rankedEntry_inj l1 l2 : map rankedEntry l1 = map rankedEntry l2 -> l1 = l2.
Proof.
  revert l2. induction l1 as [|e l1 IH]; intros [|e2 l2] H; try discriminate H.
  - reflexivity.
  - cbn [map] in H.
    assert (He : rankedEntry e = rankedEntry e2)
      by exact (f_equal (fun l => hd (rankedEntry e) l) H).
    assert (Hl : map rankedEntry l1 = map rankedEntry l2)
      by exact (f_equal (@tl RankedAgent) H).
    apply rankedEntry_inj in He. f_equal; [exact He|now apply IH].
Qed.

Lemma filter_map_rankedEntry v l :
  filter (fun agent => rankKey agent =? v) (map rankedEntry l) =
  map rankedEntry (filter (fun e => snd e =? v) l).
Proof.
  induction l as [|e l IH]; [reflexivity|].
  cbn [map filter]. rewrite rankKey_rankedEntry.
  destruct (snd e =? v); cbn [map]; now rewrite IH.
Qed.

Lemma fetched_length getTokenBalance he3Address aa :
  (List.length (fetched getTokenBalance he3Address aa) <= List.length aa)%nat.
Proof.
  unfold fetched. induction aa as [|kv aa IH]; [simpl; lia|].
  cbn [flat_map]. rewrite length_app.
  destruct (getTokenBalance he3Address (snd kv)); simpl; lia.
Qed.

Section RankingMore.

Variable contractAddresses : ContractCategory -> option (Dict string).
Variable getTokenBalance : string -> string -> completion Z.

Lemma rankAgentsByHe3_closed aa ra he3Address :
  contractAddresses agents = Some aa ->
  contractAddresses resources = Some ra ->
  get ra "helium3" = Some he3Address ->
  he3Address <> "" ->
  rankAgentsByHe3 contractAddresses getTokenBalance =
  sort byHe3Desc (map rankedEntry (fetched getTokenBalance he3Address aa)).
Proof.
  intros Ha Hr Hg Hne.
  unfold rankAgentsByHe3, getCategoryAddresses, getStr. rewrite Ha, Hr. cbn [bind].
  rewrite Hg. destruct he3Address as [|c a]; [congruence|].
  rewrite (balances_loop getTokenBalance (String c a) aa []). cbn [app bind].
  rewrite filter_balances.
  now destruct (sort byHe3Desc _).
Qed.

(** X18. [rankAgentsByHe3] returns exactly when the agents table and a non-empty
    helium3 address are configured: a failed balance read never makes it
    throw, a missing table or address always does. *)
Theorem rankAgentsByHe3_configuration :
  (exists ranking, rankAgentsByHe3 contractAddresses getTokenBalance = Normal ranking) <->
  (exists aa ra,
     contractAddresses agents = Some aa /\
     contractAddresses resources = Some ra /\
     truthy (getStr ra "helium3") = true).
Proof.
  split.
  - intros [ranking E]. revert E. unfold rankAgentsByHe3, getCategoryAddresses.
    destruct (contractAddresses agents) as [aa|]; [|discriminate].
    destruct (contractAddresses resources) as [ra|]; [|discriminate].
    cbn [bind]. intros E. exists aa, ra. repeat split.
    destruct (getStr ra "helium3") as [| |[|c a]]; try discriminate E. reflexivity.
  - intros (aa & ra & Ha & Hr & Ht).
    destruct (getStr_truthy _ _ Ht) as (he3 & Hg & Hne & _).
    rewrite (rankAgentsByHe3_closed aa ra he3 Ha Hr Hg Hne).
    destruct (sort_spec byHe3Desc rankKey
                (map rankedEntry (fetched getTokenBalance he3 aa))) as (out & E & _).
    { intros x y. apply byHe3Desc_descending. }
    eauto.
Qed.

(** X19. The ranking is stable and loses no one silently: agents with equal
    balances stay in the order of the agents table, and the ranking has one
    entry per successful read, hence at most one per agent. *)
Theorem rankAgentsByHe3_stable aa ra he3Address :
  contractAddresses agents = Some aa ->
  contractAddresses resources = Some ra ->
  get ra "helium3" = Some he3Address ->
  he3Address <> "" ->
  exists ranking,
    rankAgentsByHe3 contractAddresses getTokenBalance = Normal (map rankedEntry ranking) /\
    List.length ranking = List.length (fetched getTokenBalance he3Address aa) /\
    (List.length ranking <= List.length aa)%nat /\
    forall balance,
      filter (fun e => snd e =? balance) ranking =
      filter (fun e => snd e =? balance) (fetched getTokenBalance he3Address aa).
Proof.
  intros Ha Hr Hg Hne.
  rewrite (rankAgentsByHe3_closed aa ra he3Address Ha Hr Hg Hne).
  set (l := fetched getTokenBalance he3Address aa).
  assert (Hd : forall x y, In x (map rankedEntry l) -> In y (map rankedEntry l) ->
                           descending byHe3Desc rankKey x y).
  { intros x y. apply byHe3Desc_descending. }
  destruct (sort_spec byHe3Desc rankKey (map rankedEntry l) Hd) as (out & E & Hp & _).
  pose proof Hp as Hp'. apply Permutation_sym, Permutation_map_inv in Hp'.
  destruct Hp' as (ranking & -> & Hpr).
  exists ranking. split; [exact E|].
  assert (Hlen : List.length ranking = List.length l).
  { symmetry. now apply Permutation_length. }
  split; [exact Hlen|]. split.
  - rewrite Hlen. apply fetched_length.
  - intros balance. apply map_rankedEntry_inj.
    rewrite <- !filter_map_rankedEntry.
    now apply (sort_filter byHe3Desc rankKey balance (map rankedEntry l) Hd).
Qed.

End RankingMore.

Lemma rankAgentsByHe3_configuration_witness :
  exists ranking, rankAgentsByHe3 exampleContracts exampleBalances = Normal ranking.
Proof.
  apply (proj2 (rankAgentsByHe3_configuration exampleContracts exampleBalances)).
  exists [("agent-1", "0xC1"); ("agent-2", "0xC2"); ("agent-3", "0xC3")],
         [("carbon", "0xD1"); ("graphene", "0xD2"); ("helium3", "0xD3")].
  repeat split.
Defined.

Lemma rankAgentsByHe3_stable_witness :
  exists ranking,
    rankAgentsByHe3 exampleContracts exampleReads = Normal (map rankedEntry ranking) /\
    filter (fun e => snd e =? 7) ranking =
    [("agent-1", "0xC1", 7); ("agent-2", "0xC2", 7); ("agent-3", "0xC3", 7)].
Proof.
  destruct (rankAgentsByHe3_stable exampleContracts exampleReads
              [("agent-1", "0xC1"); ("agent-2", "0xC2"); ("agent-3", "0xC3")]
              [("carbon", "0xD1"); ("graphene", "0xD2"); ("helium3", "0xD3")] "0xD3")
    as (ranking & E & _ & _ & Hties); try reflexivity; try discriminate.
  exists ranking. split; [exact E|]. rewrite Hties. reflexivity.
Defined.

(** ** Aggregation: order and identity of the records *)

(** X20. With the classifiers of this file the per-agent [catch] is never
    entered: the result lists the agents without a truthy [error], in the
    order of the input, each with its own identifier, address and balance,
    without an [error] and with suggestions other than "Analysis Error". *)
Theorem analyzeCompetitorStrategies_records contractAddresses ci :
  NoDup (keys ci) ->
  exists out,
    analyzeCompetitorStrategies contractAddresses ci = Normal out /\
    keys out = keys (filter (fun kv => negb (truthy (error (snd kv)))) ci) /\
    forall id r, In (id, r) out ->
      exists intel,
        In (id, intel) ci /\
        sa_agentId r = id /\ sa_address r = address intel /\
        sa_he3Balance r = he3Balance intel /\ sa_error r = Undefined /\
        ~ In "Analysis Error" (counterStrategies r).
Proof.
  intros Hnd. unfold analyzeCompetitorStrategies, analyzeCompetitorStrategiesWith.
  rewrite (forOf_collect (recordFor (classifiers contractAddresses))).
  2:{ intros acc k v _. apply (analyzeAgent_store (classifiers contractAddresses) acc (k, v)). }
  2:{ exact Hnd. }
  cbn [app tryCatch]. eexists. split; [reflexivity|]. split.
  - rewrite keys_flat_map. unfold keys. f_equal.
    apply filter_ext. intros [k v]. unfold recordFor. cbn [fst snd].
    now destruct (truthy (error v)).
  - intros id r Hin. apply in_flat_map in Hin. destruct Hin as ([k intel] & Hin & Hr).
    cbn [fst snd] in Hr. unfold recordFor in Hr.
    destruct (truthy (error intel)); [destruct Hr|].
    destruct Hr as [Er|[]]. injection Er as <- <-.
    exists intel. split; [exact Hin|].
    destruct (buildAnalysis_classifiers contractAddresses k intel)
      as (rf & pp & ls & ss & os & cs & _ & _ & _ & _ & _ & Ecs & Eb).
    rewrite Eb. cbn.
    do 4 (split; [reflexivity|]).
    destruct (suggestCounterStrategies_shape contractAddresses (resourceBalances intel)
                (liquidityPositions intel) (stakePositions intel) (he3Balance intel))
      as (st & pp' & ls' & Est & _ & _ & _ & _ & _ & _ & Hno).
    rewrite Ecs in Est. injection Est as Est. rewrite Est. exact Hno.
Qed.

Lemma analyzeCompetitorStrategies_records_witness :
  exists out,
    analyzeCompetitorStrategies exampleContracts
      [("agent-3", exampleIntelligence "agent-3" [] Undefined);
       ("agent-1", exampleIntelligence "agent-1" [] (Str "rpc failed"));
       ("agent-2", exampleIntelligence "agent-2" [("carbon", "3")] Undefined)] = Normal out /\
    keys out = ["agent-3"; "agent-2"].
Proof.
  destruct (analyzeCompetitorStrategies_records exampleContracts
      [("agent-3", exampleIntelligence "agent-3" [] Undefined);
       ("agent-1", exampleIntelligence "agent-1" [] (Str "rpc failed"));
       ("agent-2", exampleIntelligence "agent-2" [("carbon", "3")] Undefined)])
    as (out & E & Hk & _).
  { repeat constructor; simpl; intuition discriminate. }
  exists out. split; [exact E|exact Hk].
Defined.

(** ** Action handlers *)

Lemma findIndex_bounds {A} (p : A -> bool) arr :
  -1 <= findIndex p arr < Z.of_nat (List.length arr).
Proof.
  induction arr as [|x arr IH]; [simpl; lia|].
  cbn [findIndex List.length]. destruct (p x); [lia|].
  destruct (Z.eqb_spec (findIndex p arr) (-1)); lia.
Qed.

Lemma findIndex_none {A} (p : A -> bool) arr :
  (forall x, In x arr -> p x = false) -> findIndex p arr = -1.
Proof.
  induction arr as [|x arr IH]; intros H; [reflexivity|].
  cbn [findIndex]. rewrite (H x (or_introl eq_refl)).
  rewrite IH by (intros; apply H; now right). reflexivity.
Qed.

Lemma total_Permutation l1 l2 : Permutation l1 l2 -> total l1 = total l2.
Proof. unfold total. induction 1; simpl; lia. Qed.

Lemma total_bound l top :
  (forall z, In z l -> z <= top) -> total l <= Z.of_nat (List.length l) * top.
Proof.
  unfold total. induction l as [|z l IH]; intros H; [simpl; lia|].
  cbn [fold_right List.length].
  specialize (IH (fun z' Hz' => H z' (or_intror Hz'))).
  specialize (H z (or_introl eq_refl)). lia.
Qed.

(** Truncated division of a sum by the number of its terms stays below any
    bound of the terms. *)
Lemma quot_bound t n top : 0 < n -> t <= n * top -> Z.quot t n <= top.
Proof.
  intros Hn Ht. destruct (Z.le_gt_cases 0 t) as [Hpos|Hneg].
  - rewrite Z.quot_div_nonneg by lia. apply Z.div_le_upper_bound; lia.
  - destruct (Z.le_gt_cases 0 top) as [Htop|Htop].
    + assert (Z.quot t n <= 0) by (apply Z.quot_le_upper_bound; lia). lia.
    + replace t with (- (- t)) by lia. rewrite Z.quot_opp_l by lia.
      rewrite Z.quot_div_nonneg by lia.
      assert (- top <= (- t) / n) by (apply Z.div_le_lower_bound; lia). lia.
Qed.

Lemma total_loop l : forall acc,
  forOf (map rankedEntry l)
    (fun (totalHe3Balance : Z) agent =>
       balance <- BigInt (Str (ra_he3Balance agent)) ;;
       Normal (totalHe3Balance + balance))
    acc = Normal (acc + total (map snd l)).
Proof.
  unfold total. induction l as [|e l IH]; intros acc; cbn [map forOf fold_right].
  - f_equal. lia.
  - cbn [rankedEntry ra_he3Balance]. rewrite BigInt_toString. cbn [bind].
    rewrite IH. f_equal. lia.
Qed.

Lemma filter_out_length (l : list string) x :
  NoDup l -> In x l ->
  S (List.length (filter (fun k => negb (String.eqb k x)) l)) = List.length l.
Proof.
  induction l as [|k l IH]; intros Hnd Hin; [destruct Hin|].
  inversion Hnd as [|? ? Hk Hnd']; subst. cbn [filter List.length].
  destruct (String.eqb_spec k x) as [->|Hne]; cbn [negb].
  - f_equal. clear IH Hin Hnd. induction l as [|k l IH]; [reflexivity|].
    cbn [filter]. destruct (String.eqb_spec k x) as [->|_].
    + exfalso. apply Hk. now left.
    + cbn [negb List.length]. f_equal. apply IH.
      * intros H. apply Hk. now right.
      * now inversion Hnd'.
  - cbn [List.length]. f_equal. apply IH; [exact Hnd'|].
    destruct Hin as [->|Hin]; [contradiction|exact Hin].
Qed.

Lemma get_Some_keys {V} (o : Dict V) k v : get o k = Some v -> In k (keys o).
Proof.
  intros H. apply get_Some_In in H. apply in_map_iff. now exists (k, v).
Qed.

Section HandlerFacts.

Variable contractAddresses : ContractCategory -> option (Dict string).
Variable getTokenBalance : string -> string -> completion Z.
Variable requestLiquidityPositions : string -> completion PositionsResponse.
Variable requestStakePositions : string -> completion PositionsResponse.

Lemma ranking_sorted aa ra he3Address :
  contractAddresses agents = Some aa ->
  contractAddresses resources = Some ra ->
  get ra "helium3" = Some he3Address ->
  he3Address <> "" ->
  exists ranking,
    rankAgentsByHe3 contractAddresses getTokenBalance = Normal (map rankedEntry ranking) /\
    Permutation (fetched getTokenBalance he3Address aa) ranking /\
    StronglySorted (fun x y => snd y <= snd x) ranking.
Proof.
  intros Ha Hr Hg Hne.
  rewrite (rankAgentsByHe3_closed contractAddresses getTokenBalance aa ra he3Address)
    by assumption.
  destruct (sort_spec byHe3Desc rankKey
              (map rankedEntry (fetched getTokenBalance he3Address aa)))
    as (out & Es & Hp & Hs).
  { intros x y. apply byHe3Desc_descending. }
  apply Permutation_sym, Permutation_map_inv in Hp. destruct Hp as (ranking & -> & Hp).
  exists ranking. split; [exact Es|]. split; [exact Hp|].
  apply StronglySorted_map in Hs.
  eapply StronglySorted_ind with (P := fun l => StronglySorted (fun x y => snd y <= snd x) l)
    in Hs; [exact Hs|constructor|].
  intros x l _ IH Hall. constructor; [exact IH|].
  rewrite Forall_forall in *. intros y Hy. specialize (Hall y Hy).
  now rewrite !rankKey_rankedEntry in Hall.
Qed.

(** X21. The competitive metrics of the handler [getCompetitiveIntelligence],
    once configured: every agent but the current one has data; the leading
    agent holds the largest balance read, the average (the truncated
    quotient of the sum) does not exceed it, and the rank of the current
    agent lies between 1 and one more than the number of ranked agents, the
    latter when its own balance could not be read. *)
Theorem competitiveMetrics_sound current aa ra he3Address :
  contractAddresses agents = Some aa -> NoDup (keys aa) ->
  truthy (getStr aa (getCurrentAgentId current)) = true ->
  contractAddresses resources = Some ra -> NoDup (keys ra) ->
  get ra "helium3" = Some he3Address -> he3Address <> "" ->
  let ranked := fetched getTokenBalance he3Address aa in
  let n := Z.of_nat (List.length ranked) in
  exists intelligence metrics,
    getCompetitiveIntelligenceHandler contractAddresses getTokenBalance
      requestLiquidityPositions requestStakePositions current =
    Normal (Success (intelligence, metrics)) /\
    totalAgents metrics = Z.of_nat (List.length aa) /\
    agentsWithData metrics = totalAgents metrics - 1 /\
    (ranked = [] ->
     leadingAgent metrics = Null /\ maxHe3Balance metrics = "0" /\
     averageHe3Balance metrics = "0" /\ currentAgentRank metrics = 1) /\
    (ranked <> [] ->
     exists leader addr top,
       In (leader, addr, top) ranked /\
       leadingAgent metrics = Str leader /\
       maxHe3Balance metrics = bigintToString top /\
       (forall e, In e ranked -> snd e <= top) /\
       averageHe3Balance metrics = bigintToString (Z.quot (total (map snd ranked)) n) /\
       Z.quot (total (map snd ranked)) n <= top /\
       1 <= currentAgentRank metrics <= n + 1 /\
       ((forall e, In e ranked -> fst (fst e) <> getCurrentAgentId current) ->
        currentAgentRank metrics = n + 1)).
Proof.
  intros Ha Hnda Hcur Hr Hndr Hhe3 Hne ranked n.
  unfold getCompetitiveIntelligenceHandler.
  rewrite (getCompetitiveIntelligence_closed contractAddresses getTokenBalance
             requestLiquidityPositions requestStakePositions current aa ra he3Address)
    by assumption.
  destruct (gathered_entries getTokenBalance requestLiquidityPositions
              requestStakePositions current aa ra he3Address Hnda) as (_ & Hk & _).
  set (ci := flat_map _ aa) in *. cbn [bind].
  unfold getCategoryAddresses at 1. rewrite Ha. cbn [bind].
  destruct (ranking_sorted aa ra he3Address Ha Hr Hhe3 Hne) as (ranking & Er & Hp & Hs).
  rewrite Er. cbn [bind].
  assert (Hcount : Z.of_nat (List.length (keys ci)) = Z.of_nat (List.length (keys aa)) - 1).
  { rewrite Hk.
    destruct (getStr_truthy _ _ Hcur) as (addr & Hg & _).
    pose proof (filter_out_length (keys aa) (getCurrentAgentId current) Hnda
                  (get_Some_keys aa _ addr Hg)). lia. }
  assert (Hlen : List.length (keys aa) = List.length aa) by apply length_map.
  assert (Hn : Z.of_nat (List.length ranking) = n).
  { unfold n. f_equal. symmetry. now apply Permutation_length. }
  destruct ranking as [|[[leader addr] top] rest].
  - cbn [map bind tryCatch]. do 2 eexists. split; [reflexivity|]. cbn.
    split; [now rewrite Hlen|]. split; [exact Hcount|].
    split; [intros _; repeat split|].
    intros Hne'. apply Permutation_sym, Permutation_nil in Hp. contradiction.
  - cbn [map].
    set (rl := rankedEntry (leader, addr, top) :: map rankedEntry rest).
    assert (Erl : rl = map rankedEntry ((leader, addr, top) :: rest)) by reflexivity.
    match goal with
    | |- context [forOf rl ?body 0] =>
        rewrite (eq_trans (f_equal (fun l => forOf l body 0) Erl)
                          (total_loop ((leader, addr, top) :: rest) 0))
    end.
    cbn [bind tryCatch]. do 2 eexists. split; [reflexivity|]. cbn [totalAgents
      agentsWithData leadingAgent maxHe3Balance averageHe3Balance currentAgentRank
      rankedEntry ra_agentId ra_he3Balance fst snd].
    split; [now rewrite Hlen|]. split; [exact Hcount|].
    split.
    { intros Hnil. fold ranked in Hp. rewrite Hnil in Hp.
      apply Permutation_nil in Hp. discriminate Hp. }
    intros _. exists leader, addr, top.
    assert (Hmax : forall e, In e ranked -> snd e <= top).
    { intros e He. eapply Permutation_in in He; [|exact Hp].
      apply StronglySorted_inv in Hs. destruct Hs as [_ Hall].
      destruct He as [<-|He]; [cbn; lia|]. rewrite Forall_forall in Hall.
      apply (Hall e He). }
    assert (Htot : total (map snd ((leader, addr, top) :: rest)) = total (map snd ranked)).
    { apply total_Permutation, Permutation_map, Permutation_sym, Hp. }
    assert (Hlenr : Z.of_nat (List.length rl) = n).
    { rewrite <- Hn, Erl. now rewrite length_map. }
    assert (Hnpos : 0 < n).
    { rewrite <- Hn. cbn [List.length]. lia. }
    rewrite Z.add_0_l, Htot, !Hlenr.
    split; [eapply Permutation_in; [apply Permutation_sym; exact Hp|now left]|].
    split; [reflexivity|]. split; [reflexivity|]. split; [exact Hmax|].
    split; [reflexivity|]. split.
    { apply quot_bound; [exact Hnpos|].
      pose proof (total_bound (map snd ranked) top) as Hb.
      rewrite length_map in Hb. apply Hb.
      intros z Hz. apply in_map_iff in Hz. destruct Hz as (e & <- & He). now apply Hmax. }
    set (ix := findIndex _ rl).
    assert (Hix : -1 <= ix < n).
    { unfold ix. rewrite <- Hlenr. apply findIndex_bounds. }
    split.
    { destruct (Z.eqb_spec (ix + 1) 0); lia. }
    intros Hnone.
    assert (Eix : ix = -1).
    { unfold ix. apply findIndex_none. intros x Hx. rewrite Erl in Hx.
      apply in_map_iff in Hx. destruct Hx as (e & <- & He).
      apply Permutation_sym in Hp. eapply Permutation_in in He; [|exact Hp].
      specialize (Hnone e He). cbn [rankedEntry ra_agentId].
      destruct (String.eqb_spec (fst (fst e)) (getCurrentAgentId current)); congruence. }
    rewrite Eix. reflexivity.
Qed.

(** X22. Neither handler throws.  Each reports success exactly when
    [getCompetitiveIntelligence] is configured and otherwise a failure with
    a non-empty message. *)
Theorem handlers_report current :
  (configured contractAddresses current ->
   (exists data,
      getCompetitiveIntelligenceHandler contractAddresses getTokenBalance
        requestLiquidityPositions requestStakePositions current =
      Normal (Success data)) /\
   (exists data,
      detectCompetitorStrategiesHandler contractAddresses getTokenBalance
        requestLiquidityPositions requestStakePositions current =
      Normal (Success data))) /\
  (~ configured contractAddresses current ->
   (exists message,
      message <> "" /\
      getCompetitiveIntelligenceHandler contractAddresses getTokenBalance
        requestLiquidityPositions requestStakePositions current =
      Normal (Failure message)) /\
   (exists message,
      message <> "" /\
      detectCompetitorStrategiesHandler contractAddresses getTokenBalance
        requestLiquidityPositions requestStakePositions current =
      Normal (Failure message))).
Proof.
  pose proof (getCompetitiveIntelligence_returns_iff contractAddresses getTokenBalance
                requestLiquidityPositions requestStakePositions current) as Hiff.
  unfold getCompetitiveIntelligenceHandler, detectCompetitorStrategiesHandler.
  split.
  - intros Hc. pose proof Hc as (aa & ra & Ha & _ & Hr & Ht).
    destruct (proj2 Hiff Hc) as [ci ->]. cbn [bind].
    destruct (getStr_truthy _ _ Ht) as (he3 & Hg & Hne & _).
    split.
    + unfold getCategoryAddresses at 1. rewrite Ha. cbn [bind].
      destruct (ranking_sorted aa ra he3 Ha Hr Hg Hne) as (ranking & -> & _).
      cbn [bind]. destruct ranking as [|e rest]; cbn [map bind tryCatch]; [eauto|].
      set (rl := rankedEntry e :: map rankedEntry rest).
      assert (Erl : rl = map rankedEntry (e :: rest)) by reflexivity.
      match goal with
      | |- context [forOf rl ?body 0] =>
          rewrite (eq_trans (f_equal (fun l => forOf l body 0) Erl)
                            (total_loop (e :: rest) 0))
      end.
      cbn [bind tryCatch]. eauto.
    + unfold analyzeCompetitorStrategies, analyzeCompetitorStrategiesWith.
      rewrite forOf_agents. cbn [bind tryCatch]. eauto.
  - intros Hn.
    destruct (getCompetitiveIntelligence contractAddresses getTokenBalance
                requestLiquidityPositions requestStakePositions current) as [ci|e].
    + exfalso. apply Hn, Hiff. eauto.
    + cbn [bind tryCatch]. split; eexists; (split; [|reflexivity]);
        apply orString_nonempty; discriminate.
Qed.

End HandlerFacts.

Lemma competitiveMetrics_sound_witness :
  exists intelligence metrics,
    getCompetitiveIntelligenceHandler exampleContracts exampleBalances exampleLiquidity
      exampleStakes (setCurrentAgentId "agent-2") = Normal (Success (intelligence, metrics)) /\
    agentsWithData metrics = 2 /\ currentAgentRank metrics = 3.
Proof.
  destruct (competitiveMetrics_sound exampleContracts exampleBalances exampleLiquidity
              exampleStakes (setCurrentAgentId "agent-2")
              [("agent-1", "0xC1"); ("agent-2", "0xC2"); ("agent-3", "0xC3")]
              [("carbon", "0xD1"); ("graphene", "0xD2"); ("helium3", "0xD3")] "0xD3")
    as (ci & m & E & Ht & Hd & _ & Hranked); try reflexivity; try discriminate.
  - repeat constructor; simpl; intuition discriminate.
  - repeat constructor; simpl; intuition discriminate.
  - exists ci, m. split; [exact E|]. split; [rewrite Hd, Ht; reflexivity|].
    destruct Hranked as (leader & addr & top & _ & _ & _ & _ & _ & _ & _ & Hlast).
    + discriminate.
    + apply Hlast. intros e [<-|[<-|[]]]; discriminate.
Defined.

Lemma handlers_report_witness :
  exists message,
    message <> "" /\
    detectCompetitorStrategiesHandler exampleContracts exampleBalances exampleLiquidity
      exampleStakes Null = Normal (Failure message).
Proof.
  apply (proj2 (handlers_report exampleContracts exampleBalances exampleLiquidity
                  exampleStakes Null)).
  intros (aa & ra & Ea & T & _). inversion Ea; subst. discriminate T.
Defined.

(** ** Balance strings *)

(** X23. The strings written for balances ([balance.toString()]) read back
    exactly through [safeBigIntConversion], whatever the default and zero
    included; different balances give different strings, and none of them
    is the "Error" sentinel. *)
Theorem balance_strings_round_trip z :
  (forall d, safeBigIntConversion (Str (bigintToString z)) d = Normal z) /\
  (forall z', bigintToString z = bigintToString z' -> z = z') /\
  bigintToString z <> "Error".
Proof.
  split; [|split].
  - intros d. apply safeBigIntConversion_toString.
  - intros z'. apply bigintToString_inj.
  - apply String.eqb_neq, toString_not_Error.
Qed.

Lemma balance_strings_round_trip_witness :
  safeBigIntConversion (Str (bigintToString 0)) 5 = Normal 0 /\
  bigintToString 0 <> "Error".
Proof.
  split.
  - apply (proj1 (balance_strings_round_trip 0)).
  - apply (proj2 (proj2 (balance_strings_round_trip 0))).
Defined.
